(** * at1chatbot: support-ticket routing and lifecycle

    A shallow embedding of [src/at1chatbot.py] and the properties of its
    ticket assignment, message handling, status bookkeeping and reporting.

    Modelling conventions.
    - Python [int] is [Z].  A [datetime] is the number of microseconds since
      an arbitrary epoch and a [timedelta] is a number of microseconds, both
      in [Z]; the range limits of the two Python types are not modelled.
    - A [str] is a [string] holding its UTF-8 encoding.  Substring search on
      valid UTF-8 agrees with substring search on code points.
      [str.lower] is a builtin of the language and is taken as a parameter
      (class [Unicode]).
    - Objects of the dataclasses [Agente], [Cliente] and [Ticket] are mutable
      and shared: a ticket points at its agent and its client, the registry
      dictionaries point at the same objects.  They live in a store indexed
      by locations; dictionaries are insertion-ordered association lists
      from keys to locations.
    - [datetime.now()], [uuid.uuid4()] and [random.choice] read the
      environment.  The environment is a triple of streams indexed by the
      number of readings made so far.
    - A [float] is not evaluated: it is kept as the operations on integers
      that compute it.
    - The dataclasses are read as the records they declare, built with
      keyword arguments as the program does; that some of them list a field
      with a default before fields without one is not modelled. *)

From stdpp Require Import gmap strings list pretty.
From Stdlib Require Import ZArith Lia Sorted.

Local Open Scope Z_scope.

(** ** Builtins of the language *)

Class Unicode := { str_lower : string → string }.

(** [needle in haystack] on strings. *)
Fixpoint str_in (needle haystack : string) : bool :=
  String.prefix needle haystack
  || match haystack with
     | EmptyString => false
     | String _ resto => str_in needle resto
     end.

(** [timedelta(hours=h)] in microseconds. *)
Definition timedelta_hours (h : Z) : Z := h * 3600 * 1000000.
Definition timedelta_minutes (m : Z) : Z := m * 60 * 1000000.

(** [_divide_and_round] of the datetime module: the quotient rounded to the
    nearest integer, halves to the even one.  [timedelta / int] applies it to
    the microseconds. *)
Definition divide_and_round (a b : Z) : Z :=
  let q := a / b in
  let r := 2 * (a mod b) in
  let greater_than_half := if 0 <? b then b <? r else r <? b in
  if greater_than_half || ((r =? b) && (q mod 2 =? 1)) then q + 1 else q.

(** [max(iterable, key=key)] on a non-empty iterable, given as its first item
    and the rest: the running maximum is replaced only by an item whose key
    is strictly greater. *)
Fixpoint max_key_from {A : Type} (key : A → Z) (melhor : A) (resto : list A) : A :=
  match resto with
  | [] => melhor
  | x :: resto' =>
      if key melhor <? key x then max_key_from key x resto'
      else max_key_from key melhor resto'
  end.

(** Insertion-ordered [dict]: assigning to a key that is present replaces the
    value in place, assigning to a new key appends. *)
Fixpoint dict_set {V : Type} (k : string) (v : V) (d : list (string * V))
  : list (string * V) :=
  match d with
  | [] => [(k, v)]
  | (k', v') :: d' =>
      if decide (k' = k) then (k, v) :: d' else (k', v') :: dict_set k v d'
  end.

Fixpoint dict_get {V : Type} (d : list (string * V)) (k : string) : option V :=
  match d with
  | [] => None
  | (k', v) :: d' => if decide (k' = k) then Some v else dict_get d' k
  end.

Definition dict_values {V : Type} (d : list (string * V)) : list V := d.*2.

(** [deque(maxlen=n).append]: the oldest entry is dropped when full. *)
Definition deque_append {A : Type} (maxlen : nat) (d : list A) (x : A) : list A :=
  let d' := d ++ [x] in
  drop (length d' - maxlen)%nat d'.

(** ** Data model *)

Inductive PrioridadeTicket := BAIXA | MEDIA | ALTA | CRITICA.

Inductive StatusTicket :=
  | ABERTO | DESIGNADO | EM_ANDAMENTO | PAUSADO
  | AGUARDANDO_CLIENTE | RESOLVIDO | FECHADO.

#[global] Instance PrioridadeTicket_eq_dec : EqDecision PrioridadeTicket.
Proof. solve_decision. Defined.

#[global] Instance StatusTicket_eq_dec : EqDecision StatusTicket.
Proof. solve_decision. Defined.

Definition prioridade_value (p : PrioridadeTicket) : Z :=
  match p with BAIXA => 1 | MEDIA => 2 | ALTA => 3 | CRITICA => 4 end.

Definition prioridade_name (p : PrioridadeTicket) : string :=
  match p with
  | BAIXA => "BAIXA" | MEDIA => "MEDIA" | ALTA => "ALTA" | CRITICA => "CRITICA"
  end.

Definition status_value (st : StatusTicket) : string :=
  match st with
  | ABERTO => "aberto"
  | DESIGNADO => "designado"
  | EM_ANDAMENTO => "em_andamento"
  | PAUSADO => "pausado"
  | AGUARDANDO_CLIENTE => "aguardando_cliente"
  | RESOLVIDO => "resolvido"
  | FECHADO => "fechado"
  end.

(** [PrioridadeTicket.from_keywords]: the keyword table in its order of
    insertion; the first keyword found in the lowered text decides. *)
Definition keywords : list (string * PrioridadeTicket) :=
  [ ("crítico", CRITICA); ("urgente", CRITICA); ("emergência", CRITICA);
    ("alto", ALTA); ("importante", ALTA);
    ("médio", MEDIA); ("normal", MEDIA);
    ("baixo", BAIXA); ("rotina", BAIXA) ].

Fixpoint from_keywords_loop (tabela : list (string * PrioridadeTicket))
    (texto_lower : string) : PrioridadeTicket :=
  match tabela with
  | [] => BAIXA
  | (keyword, priority) :: resto =>
      if str_in keyword texto_lower then priority
      else from_keywords_loop resto texto_lower
  end.

Definition from_keywords `{Unicode} (texto : string) : PrioridadeTicket :=
  from_keywords_loop keywords (str_lower texto).

(** Locations of objects in the store. *)
Definition loc := nat.

Record Mensagem := {
  mensagem_id : string;
  remetente_id : string;
  remetente_nome : string;
  conteudo : string;
  timestamp : Z;
  is_sistema : bool
}.

Record Agente := {
  agente_id : string;
  agente_nome : string;
  agente_email : string;
  carga_trabalho : Z;
  especializacoes : gset string;
  disponivel : bool;
  ultimo_login : Z;
  tickets_resolvidos : Z;
  tempo_medio_resolucao : Z
}.

Record Cliente := {
  cliente_id : string;
  cliente_nome : string;
  cliente_email : string;
  tickets_abertos : list string;
  historico_interacoes : list string
}.

Record Ticket := {
  ticket_id : string;
  titulo : string;
  descricao : string;
  prioridade : PrioridadeTicket;
  status : StatusTicket;
  cliente : loc;
  criado_em : Z;
  agente_designado : option loc;
  ultima_atualizacao : Z;
  mensagens : list Mensagem;
  tags : gset string;
  tempo_primeira_resposta : option Z;
  tempo_resolucao : option Z;
  satisfacao_cliente : option Z
}.

(** The [__eq__] that [@dataclass] generates compares the fields. *)
#[global] Instance Agente_eq_dec : EqDecision Agente.
Proof. solve_decision. Defined.

(** Truth value of an [Optional[timedelta]] or [Optional[int]]: [None] and
    zero are false. *)
Definition truthy (o : option Z) : bool :=
  match o with
  | None => false
  | Some z => negb (z =? 0)
  end.

(** Truth value of an [Optional[str]]. *)
Definition truthy_str (o : option string) : bool :=
  match o with
  | None | Some EmptyString => false
  | Some _ => true
  end.

(** Field assignments. *)
Definition com_prioridade (p : PrioridadeTicket) (t : Ticket) : Ticket :=
  {| ticket_id := ticket_id t; titulo := titulo t; descricao := descricao t;
     prioridade := p; status := status t; cliente := cliente t;
     criado_em := criado_em t; agente_designado := agente_designado t;
     ultima_atualizacao := ultima_atualizacao t; mensagens := mensagens t;
     tags := tags t; tempo_primeira_resposta := tempo_primeira_resposta t;
     tempo_resolucao := tempo_resolucao t;
     satisfacao_cliente := satisfacao_cliente t |}.

Definition com_status (st : StatusTicket) (t : Ticket) : Ticket :=
  {| ticket_id := ticket_id t; titulo := titulo t; descricao := descricao t;
     prioridade := prioridade t; status := st; cliente := cliente t;
     criado_em := criado_em t; agente_designado := agente_designado t;
     ultima_atualizacao := ultima_atualizacao t; mensagens := mensagens t;
     tags := tags t; tempo_primeira_resposta := tempo_primeira_resposta t;
     tempo_resolucao := tempo_resolucao t;
     satisfacao_cliente := satisfacao_cliente t |}.

Definition com_agente_designado (a : option loc) (t : Ticket) : Ticket :=
  {| ticket_id := ticket_id t; titulo := titulo t; descricao := descricao t;
     prioridade := prioridade t; status := status t; cliente := cliente t;
     criado_em := criado_em t; agente_designado := a;
     ultima_atualizacao := ultima_atualizacao t; mensagens := mensagens t;
     tags := tags t; tempo_primeira_resposta := tempo_primeira_resposta t;
     tempo_resolucao := tempo_resolucao t;
     satisfacao_cliente := satisfacao_cliente t |}.

Definition com_ultima_atualizacao (d : Z) (t : Ticket) : Ticket :=
  {| ticket_id := ticket_id t; titulo := titulo t; descricao := descricao t;
     prioridade := prioridade t; status := status t; cliente := cliente t;
     criado_em := criado_em t; agente_designado := agente_designado t;
     ultima_atualizacao := d; mensagens := mensagens t;
     tags := tags t; tempo_primeira_resposta := tempo_primeira_resposta t;
     tempo_resolucao := tempo_resolucao t;
     satisfacao_cliente := satisfacao_cliente t |}.

Definition com_mensagens (ms : list Mensagem) (t : Ticket) : Ticket :=
  {| ticket_id := ticket_id t; titulo := titulo t; descricao := descricao t;
     prioridade := prioridade t; status := status t; cliente := cliente t;
     criado_em := criado_em t; agente_designado := agente_designado t;
     ultima_atualizacao := ultima_atualizacao t; mensagens := ms;
     tags := tags t; tempo_primeira_resposta := tempo_primeira_resposta t;
     tempo_resolucao := tempo_resolucao t;
     satisfacao_cliente := satisfacao_cliente t |}.

Definition com_tempo_primeira_resposta (d : option Z) (t : Ticket) : Ticket :=
  {| ticket_id := ticket_id t; titulo := titulo t; descricao := descricao t;
     prioridade := prioridade t; status := status t; cliente := cliente t;
     criado_em := criado_em t; agente_designado := agente_designado t;
     ultima_atualizacao := ultima_atualizacao t; mensagens := mensagens t;
     tags := tags t; tempo_primeira_resposta := d;
     tempo_resolucao := tempo_resolucao t;
     satisfacao_cliente := satisfacao_cliente t |}.

Definition com_tempo_resolucao (d : option Z) (t : Ticket) : Ticket :=
  {| ticket_id := ticket_id t; titulo := titulo t; descricao := descricao t;
     prioridade := prioridade t; status := status t; cliente := cliente t;
     criado_em := criado_em t; agente_designado := agente_designado t;
     ultima_atualizacao := ultima_atualizacao t; mensagens := mensagens t;
     tags := tags t; tempo_primeira_resposta := tempo_primeira_resposta t;
     tempo_resolucao := d;
     satisfacao_cliente := satisfacao_cliente t |}.

Definition com_satisfacao_cliente (n : option Z) (t : Ticket) : Ticket :=
  {| ticket_id := ticket_id t; titulo := titulo t; descricao := descricao t;
     prioridade := prioridade t; status := status t; cliente := cliente t;
     criado_em := criado_em t; agente_designado := agente_designado t;
     ultima_atualizacao := ultima_atualizacao t; mensagens := mensagens t;
     tags := tags t; tempo_primeira_resposta := tempo_primeira_resposta t;
     tempo_resolucao := tempo_resolucao t;
     satisfacao_cliente := n |}.

Definition com_carga_trabalho (c : Z) (a : Agente) : Agente :=
  {| agente_id := agente_id a; agente_nome := agente_nome a;
     agente_email := agente_email a; carga_trabalho := c;
     especializacoes := especializacoes a; disponivel := disponivel a;
     ultimo_login := ultimo_login a;
     tickets_resolvidos := tickets_resolvidos a;
     tempo_medio_resolucao := tempo_medio_resolucao a |}.

Definition com_especializacoes (e : gset string) (a : Agente) : Agente :=
  {| agente_id := agente_id a; agente_nome := agente_nome a;
     agente_email := agente_email a; carga_trabalho := carga_trabalho a;
     especializacoes := e; disponivel := disponivel a;
     ultimo_login := ultimo_login a;
     tickets_resolvidos := tickets_resolvidos a;
     tempo_medio_resolucao := tempo_medio_resolucao a |}.

Definition com_tickets_resolvidos (n : Z) (a : Agente) : Agente :=
  {| agente_id := agente_id a; agente_nome := agente_nome a;
     agente_email := agente_email a; carga_trabalho := carga_trabalho a;
     especializacoes := especializacoes a; disponivel := disponivel a;
     ultimo_login := ultimo_login a;
     tickets_resolvidos := n;
     tempo_medio_resolucao := tempo_medio_resolucao a |}.

Definition com_tempo_medio_resolucao (d : Z) (a : Agente) : Agente :=
  {| agente_id := agente_id a; agente_nome := agente_nome a;
     agente_email := agente_email a; carga_trabalho := carga_trabalho a;
     especializacoes := especializacoes a; disponivel := disponivel a;
     ultimo_login := ultimo_login a;
     tickets_resolvidos := tickets_resolvidos a;
     tempo_medio_resolucao := d |}.

Definition com_tickets_abertos (l : list string) (c : Cliente) : Cliente :=
  {| cliente_id := cliente_id c; cliente_nome := cliente_nome c;
     cliente_email := cliente_email c; tickets_abertos := l;
     historico_interacoes := historico_interacoes c |}.

(** ** The state of a run *)

(** The attributes of a [SistemaSuporte] instance that change.  The
    collaborators [auto_resposta] and [analisador] and the table
    [sla_configs] are constant and appear as definitions below. *)
Record SistemaSuporte := {
  agentes : list (string * loc);
  tickets : list (string * loc);
  clientes : list (string * loc);
  historico_global : list Mensagem
}.

Record Memoria := {
  obj_agentes : gmap loc Agente;
  obj_tickets : gmap loc Ticket;
  obj_clientes : gmap loc Cliente
}.

Record Ambiente := {
  relogio : nat → Z;
  gerador_uuid : nat → string;
  gerador_random : nat → nat
}.

Record Estado := {
  sistema : SistemaSuporte;
  memoria : Memoria;
  ambiente : Ambiente;
  leituras : nat
}.

Definition com_sistema (x : SistemaSuporte) (s : Estado) : Estado :=
  {| sistema := x; memoria := memoria s; ambiente := ambiente s;
     leituras := leituras s |}.

Definition com_memoria (m : Memoria) (s : Estado) : Estado :=
  {| sistema := sistema s; memoria := m; ambiente := ambiente s;
     leituras := leituras s |}.

Definition com_leituras (n : nat) (s : Estado) : Estado :=
  {| sistema := sistema s; memoria := memoria s; ambiente := ambiente s;
     leituras := n |}.

Definition com_obj_agentes (h : gmap loc Agente) (m : Memoria) : Memoria :=
  {| obj_agentes := h; obj_tickets := obj_tickets m;
     obj_clientes := obj_clientes m |}.

Definition com_obj_tickets (h : gmap loc Ticket) (m : Memoria) : Memoria :=
  {| obj_agentes := obj_agentes m; obj_tickets := h;
     obj_clientes := obj_clientes m |}.

Definition com_obj_clientes (h : gmap loc Cliente) (m : Memoria) : Memoria :=
  {| obj_agentes := obj_agentes m; obj_tickets := obj_tickets m;
     obj_clientes := h |}.

Definition com_agentes (d : list (string * loc)) (x : SistemaSuporte) : SistemaSuporte :=
  {| agentes := d; tickets := tickets x; clientes := clientes x;
     historico_global := historico_global x |}.

Definition com_tickets (d : list (string * loc)) (x : SistemaSuporte) : SistemaSuporte :=
  {| agentes := agentes x; tickets := d; clientes := clientes x;
     historico_global := historico_global x |}.

Definition com_clientes (d : list (string * loc)) (x : SistemaSuporte) : SistemaSuporte :=
  {| agentes := agentes x; tickets := tickets x; clientes := d;
     historico_global := historico_global x |}.

Definition com_historico_global (h : list Mensagem) (x : SistemaSuporte) : SistemaSuporte :=
  {| agentes := agentes x; tickets := tickets x; clientes := clientes x;
     historico_global := h |}.

(** ** The monad of the methods

    A method takes the state and either returns a value and the next state or
    raises.  [ReferenciaInvalida] stands for a location that is absent from
    the store; Python has no dangling references, so it marks states that no
    run of the program reaches. *)
Inductive Excecao := ZeroDivisionError | ReferenciaInvalida.

Inductive Resultado (A : Type) :=
  | Ok (valor : A) (s : Estado)
  | Levanta (e : Excecao).
Arguments Ok {A} valor s.
Arguments Levanta {A} e.

Definition M (A : Type) : Type := Estado → Resultado A.

#[global] Instance M_ret : MRet M := λ A a s, Ok a s.
#[global] Instance M_bind : MBind M := λ A B f m s,
  match m s with
  | Ok a s' => f a s'
  | Levanta e => Levanta e
  end.

Definition levanta {A : Type} (e : Excecao) : M A := λ _, Levanta e.

Definition le_sistema : M SistemaSuporte := λ s, Ok (sistema s) s.
Definition le_memoria : M Memoria := λ s, Ok (memoria s) s.
Definition altera_sistema (f : SistemaSuporte → SistemaSuporte) : M unit :=
  λ s, Ok tt (com_sistema (f (sistema s)) s).

(** [datetime.now()] *)
Definition agora : M Z :=
  λ s, Ok (relogio (ambiente s) (leituras s)) (com_leituras (S (leituras s)) s).

(** [str(uuid.uuid4())] *)
Definition uuid4 : M string :=
  λ s, Ok (gerador_uuid (ambiente s) (leituras s)) (com_leituras (S (leituras s)) s).

(** [random.choice(seq)] on a non-empty sequence *)
Definition random_choice (seq : list string) : M string :=
  λ s, Ok (nth (gerador_random (ambiente s) (leituras s) mod length seq)%nat
                seq EmptyString)
          (com_leituras (S (leituras s)) s).

Definition le_agente (l : loc) : M Agente := λ s,
  match obj_agentes (memoria s) !! l with
  | Some a => Ok a s
  | None => Levanta ReferenciaInvalida
  end.

Definition le_ticket (l : loc) : M Ticket := λ s,
  match obj_tickets (memoria s) !! l with
  | Some t => Ok t s
  | None => Levanta ReferenciaInvalida
  end.

Definition le_cliente (l : loc) : M Cliente := λ s,
  match obj_clientes (memoria s) !! l with
  | Some c => Ok c s
  | None => Levanta ReferenciaInvalida
  end.

Definition altera_agente (l : loc) (f : Agente → Agente) : M unit := λ s,
  match obj_agentes (memoria s) !! l with
  | Some a =>
      Ok tt (com_memoria
               (com_obj_agentes (<[l := f a]> (obj_agentes (memoria s))) (memoria s)) s)
  | None => Levanta ReferenciaInvalida
  end.

Definition altera_ticket (l : loc) (f : Ticket → Ticket) : M unit := λ s,
  match obj_tickets (memoria s) !! l with
  | Some t =>
      Ok tt (com_memoria
               (com_obj_tickets (<[l := f t]> (obj_tickets (memoria s))) (memoria s)) s)
  | None => Levanta ReferenciaInvalida
  end.

Definition altera_cliente (l : loc) (f : Cliente → Cliente) : M unit := λ s,
  match obj_clientes (memoria s) !! l with
  | Some c =>
      Ok tt (com_memoria
               (com_obj_clientes (<[l := f c]> (obj_clientes (memoria s))) (memoria s)) s)
  | None => Levanta ReferenciaInvalida
  end.

(** Object creation: the new object gets a location that is not in use. *)
Definition novo_agente (a : Agente) : M loc := λ s,
  let l := fresh (dom (obj_agentes (memoria s))) in
  Ok l (com_memoria
          (com_obj_agentes (<[l := a]> (obj_agentes (memoria s))) (memoria s)) s).

Definition novo_ticket (t : Ticket) : M loc := λ s,
  let l := fresh (dom (obj_tickets (memoria s))) in
  Ok l (com_memoria
          (com_obj_tickets (<[l := t]> (obj_tickets (memoria s))) (memoria s)) s).

Definition novo_cliente (c : Cliente) : M loc := λ s,
  let l := fresh (dom (obj_clientes (memoria s))) in
  Ok l (com_memoria
          (com_obj_clientes (<[l := c]> (obj_clientes (memoria s))) (memoria s)) s).

(** ** The dataclasses' methods *)

(** [Mensagem(remetente_id=..., remetente_nome=..., conteudo=...,
    is_sistema=...)]: the default factories draw the id, then the time. *)
Definition nova_mensagem (rid rnome cont : string) (sist : bool) : M Mensagem :=
  mid ← uuid4;
  ts ← agora;
  mret {| mensagem_id := mid; remetente_id := rid; remetente_nome := rnome;
          conteudo := cont; timestamp := ts; is_sistema := sist |}.

(** [Ticket.adicionar_mensagem] *)
Definition adicionar_mensagem (lt : loc) (mensagem : Mensagem) : M unit :=
  altera_ticket lt (λ t, com_mensagens (mensagens t ++ [mensagem]) t);;
  n ← agora;
  altera_ticket lt (com_ultima_atualizacao n).

(** [Agente.adicionar_especializacao] *)
Definition adicionar_especializacao `{Unicode} (la : loc) (especializacao : string)
  : M unit :=
  altera_agente la
    (λ a, com_especializacoes (especializacoes a ∪ {[ str_lower especializacao ]}) a).

(** ** The collaborators *)

Definition respostas_padrao : list (string * list string) :=
  [ ("saudacao",
     [ "Olá! Como posso ajudar você hoje?";
       "Bem-vindo ao nosso suporte! Em que posso auxiliar?";
       "Oi! Estou aqui para ajudar. Qual é a sua dúvida?" ]);
    ("despedida",
     [ "Obrigado por entrar em contato! Tenha um ótimo dia!";
       "Foi um prazer ajudar! Até mais!";
       "Se precisar de mais alguma coisa, estamos à disposição!" ]);
    ("aguarde",
     [ "Por favor, aguarde um momento enquanto processo sua solicitação.";
       "Estou analisando sua questão, só um instante.";
       "Aguarde um momento, já estou verificando isso para você." ]) ].

(** [AutoRespostaManager.get_resposta] *)
Definition get_resposta (tipo : string) : M string :=
  random_choice (default ["Desculpe, não entendi."] (dict_get respostas_padrao tipo)).

Definition palavras_chave : list (string * list string) :=
  [ ("problema", ["erro"; "bug"; "falha"; "problema"; "não funciona"]);
    ("urgencia", ["urgente"; "crítico"; "emergência"; "imediato"]);
    ("ajuda", ["ajuda"; "suporte"; "auxílio"; "como"]) ].

(** [AnalisadorMensagens.classificar_mensagem] *)
Definition classificar_mensagem `{Unicode} (texto : string) : list (string * bool) :=
  let texto_lower := str_lower texto in
  map (λ cp : string * list string,
         (cp.1, existsb (λ palavra, str_in palavra texto_lower) cp.2))
      palavras_chave.

(** [AnalisadorMensagens.extrair_prioridade] *)
Definition extrair_prioridade `{Unicode} (texto : string) : PrioridadeTicket :=
  from_keywords texto.

Definition sla_configs (p : PrioridadeTicket) : Z :=
  match p with
  | CRITICA => timedelta_hours 1
  | ALTA => timedelta_hours 4
  | MEDIA => timedelta_hours 12
  | BAIXA => timedelta_hours 24
  end.

(** ** The methods of [SistemaSuporte] *)

(** [adicionar_agente]: [self.agentes[agente.id] = agente] *)
Definition adicionar_agente (la : loc) : M unit :=
  a ← le_agente la;
  altera_sistema (λ x, com_agentes (dict_set (agente_id a) la (agentes x)) x).

(** [registrar_cliente] *)
Definition registrar_cliente (nome email : string) : M loc :=
  cid ← uuid4;
  lc ← novo_cliente {| cliente_id := cid; cliente_nome := nome;
                       cliente_email := email; tickets_abertos := [];
                       historico_interacoes := [] |};
  altera_sistema (λ x, com_clientes (dict_set cid lc (clientes x)) x);;
  mret lc.

(** The agent objects behind a list of references, as they are now. *)
Fixpoint le_agentes (ls : list loc) : M (list (loc * Agente)) :=
  match ls with
  | [] => mret []
  | l :: resto =>
      a ← le_agente l;
      outros ← le_agentes resto;
      mret ((l, a) :: outros)
  end.

Definition nome_minusculo `{Unicode} (p : PrioridadeTicket) : string :=
  str_lower (prioridade_name p).

(** The local function [pontuacao_agente] of [designar_ticket].  The test
    [agente in agentes_especializados] holds when some element of the list
    is the agent or is equal to it by the dataclass's [__eq__]; identical
    objects have equal fields, so the test is on the fields. *)
Definition pontuacao_agente (agentes_especializados : list (loc * Agente))
    (agente : loc * Agente) : Z :=
  let pontos := 100 - carga_trabalho agente.2 * 20 in
  let pontos :=
    if bool_decide (agente.2 ∈ agentes_especializados.*2) then pontos + 50
    else pontos in
  pontos + tickets_resolvidos agente.2 / 10.

Definition e_disponivel (agente : loc * Agente) : bool :=
  disponivel agente.2 && (carga_trabalho agente.2 <? 5).

Definition e_especializado `{Unicode} (p : PrioridadeTicket) (agente : loc * Agente)
  : bool :=
  bool_decide (nome_minusculo p ∈ especializacoes agente.2).

(** [designar_ticket] *)
Definition designar_ticket `{Unicode} (lt : loc) : M (option loc) :=
  sis ← le_sistema;
  todos ← le_agentes (dict_values (agentes sis));
  let agentes_disponiveis := List.filter e_disponivel todos in
  match agentes_disponiveis with
  | [] => mret None
  | primeiro :: resto =>
      t ← le_ticket lt;
      let agentes_especializados :=
        List.filter (e_especializado (prioridade t)) agentes_disponiveis in
      let agente_selecionado :=
        max_key_from (pontuacao_agente agentes_especializados) primeiro resto in
      let la := agente_selecionado.1 in
      altera_ticket lt (com_agente_designado (Some la));;
      altera_ticket lt (com_status DESIGNADO);;
      altera_agente la (λ a, com_carga_trabalho (carga_trabalho a + 1) a);;
      t ← le_ticket lt;
      (if truthy (tempo_primeira_resposta t) then mret tt
       else
         n ← agora;
         t ← le_ticket lt;
         altera_ticket lt (com_tempo_primeira_resposta (Some (n - criado_em t))));;
      a ← le_agente la;
      mensagem ← nova_mensagem "sistema" "Sistema"
                   ("Ticket designado para " +:+ agente_nome a) true;
      adicionar_mensagem lt mensagem;;
      mret (Some la)
  end.

Definition aviso_sla : string :=
  "⚠️ Atenção: Este ticket está próximo de ultrapassar o SLA!".

Definition ticket_nao_encontrado : string := "Ticket não encontrado.".
Definition remetente_nao_autorizado : string := "Remetente não autorizado.".

(** The sender of a message: the name under which it is recorded, or [None]
    when the sender is neither the ticket's client nor its agent.  The
    conditional expression of the [elif] is [None] when the ticket has no
    agent. *)
Definition identificar_remetente (rid : string) (t : Ticket) : M (option string) :=
  c ← le_cliente (cliente t);
  if decide (rid = cliente_id c) then mret (Some (cliente_nome c))
  else
    match agente_designado t with
    | Some la =>
        a ← le_agente la;
        if decide (rid = agente_id a) then mret (Some (agente_nome a))
        else mret None
    | None => mret None
    end.

(** [processar_mensagem] *)
Definition processar_mensagem `{Unicode} (tid rid cont : string) : M (list string) :=
  sis ← le_sistema;
  match dict_get (tickets sis) tid with
  | None => mret [ticket_nao_encontrado]
  | Some lt =>
      t ← le_ticket lt;
      remetente ← identificar_remetente rid t;
      match remetente with
      | None => mret [remetente_nao_autorizado]
      | Some rnome =>
          mensagem ← nova_mensagem rid rnome cont false;
          adicionar_mensagem lt mensagem;;
          altera_sistema
            (λ x, com_historico_global
                    (deque_append 1000 (historico_global x) mensagem) x);;
          let classificacao := classificar_mensagem cont in
          let respostas := [] in
          respostas ←
            (if default false (dict_get classificacao "problema") then
               r ← get_resposta "problema";
               mret (respostas ++ [r])
             else mret respostas);
          respostas ←
            (if default false (dict_get classificacao "urgencia") then
               let nova_prioridade := extrair_prioridade cont in
               t ← le_ticket lt;
               if decide (nova_prioridade ≠ prioridade t) then
                 altera_ticket lt (com_prioridade nova_prioridade);;
                 mret (respostas ++
                         ["Prioridade do ticket atualizada para "
                            +:+ prioridade_name nova_prioridade])
               else mret respostas
             else mret respostas);
          n ← agora;
          t ← le_ticket lt;
          let tempo_decorrido := n - ultima_atualizacao t in
          if sla_configs (prioridade t) <? tempo_decorrido then
            mret (respostas ++ [aviso_sla])
          else mret respostas
      end
  end.

(** The bookkeeping of a resolution on the agent: the running mean of the
    resolution times, [tickets_resolvidos] being already incremented. *)
Definition atualizar_tempo_medio (la : loc) (tempo_resolucao : Z) : M unit :=
  a ← le_agente la;
  if tickets_resolvidos a =? 1 then
    altera_agente la (com_tempo_medio_resolucao tempo_resolucao)
  else
    let total := tempo_medio_resolucao a * (tickets_resolvidos a - 1) in
    if tickets_resolvidos a =? 0 then levanta ZeroDivisionError
    else
      altera_agente la
        (com_tempo_medio_resolucao
           (divide_and_round (total + tempo_resolucao) (tickets_resolvidos a))).

(** [atualizar_status_ticket] *)
Definition atualizar_status_ticket (tid : string) (novo_status : StatusTicket)
    (comentario : option string) : M bool :=
  sis ← le_sistema;
  match dict_get (tickets sis) tid with
  | None => mret false
  | Some lt =>
      altera_ticket lt (com_status novo_status);;
      (if truthy_str comentario then
         mensagem ← nova_mensagem "sistema" "Sistema"
                      ("Status atualizado para " +:+ status_value novo_status
                         +:+ ": " +:+ default EmptyString comentario) true;
         adicionar_mensagem lt mensagem
       else mret tt);;
      (if decide (novo_status = RESOLVIDO) then
         t ← le_ticket lt;
         match agente_designado t with
         | Some la =>
             altera_agente la (λ a, com_carga_trabalho (carga_trabalho a - 1) a);;
             altera_agente la
               (λ a, com_tickets_resolvidos (tickets_resolvidos a + 1) a);;
             n ← agora;
             t ← le_ticket lt;
             let d := n - criado_em t in
             altera_ticket lt (com_tempo_resolucao (Some d));;
             atualizar_tempo_medio la d
         | None => mret tt
         end
       else mret tt);;
      mret true
  end.

(** [str(nota)] for the notes that pass the range test. *)
Definition str_nota (nota : Z) : string :=
  match nota with
  | 1 => "1" | 2 => "2" | 3 => "3" | 4 => "4" | _ => "5"
  end.

(** [avaliar_satisfacao] *)
Definition avaliar_satisfacao (tid : string) (nota : Z) (comentario : option string)
  : M bool :=
  if negb ((1 <=? nota) && (nota <=? 5)) then mret false
  else
    sis ← le_sistema;
    match dict_get (tickets sis) tid with
    | None => mret false
    | Some lt =>
        altera_ticket lt (com_satisfacao_cliente (Some nota));;
        (if truthy_str comentario then
           mensagem ← nova_mensagem "sistema" "Sistema"
                        ("Avaliação do cliente: " +:+ str_nota nota +:+ "/5 - "
                           +:+ default EmptyString comentario) true;
           adicionar_mensagem lt mensagem
         else mret tt);;
        mret true
    end.

(** [criar_ticket] *)
Definition criar_ticket `{Unicode} (lc : loc) (titulo_ descricao_ : string) : M loc :=
  let prioridade_ := extrair_prioridade descricao_ in
  tid ← uuid4;
  criado ← agora;
  ultima ← agora;
  lt ← novo_ticket
         {| ticket_id := tid; titulo := titulo_; descricao := descricao_;
            prioridade := prioridade_; status := ABERTO; cliente := lc;
            criado_em := criado; agente_designado := None;
            ultima_atualizacao := ultima; mensagens := []; tags := ∅;
            tempo_primeira_resposta := None; tempo_resolucao := None;
            satisfacao_cliente := None |};
  mensagem_sistema ← nova_mensagem "sistema" "Sistema"
                       ("Ticket criado com prioridade "
                          +:+ prioridade_name prioridade_) true;
  adicionar_mensagem lt mensagem_sistema;;
  altera_sistema (λ x, com_tickets (dict_set tid lt (tickets x)) x);;
  altera_cliente lc (λ c, com_tickets_abertos (tickets_abertos c ++ [tid]) c);;
  designar_ticket lt;;
  mret lt.

(** The ticket objects behind a list of references, as they are now. *)
Fixpoint le_tickets (ls : list loc) : M (list Ticket) :=
  match ls with
  | [] => mret []
  | l :: resto =>
      t ← le_ticket l;
      outros ← le_tickets resto;
      mret (t :: outros)
  end.

(** A [float] is kept as the operations on integers that compute it: the
    true division of two integers and the product with an integer.  Its
    digits are not modelled. *)
Inductive Float :=
  | truediv (a b : Z)
  | fmul (x : Float) (k : Z).

(** A number of the report: an [int] or a [float]. *)
Inductive Numero :=
  | NInt (z : Z)
  | NFloat (x : Float).

(** [a / b] on two integers and [td / b] on a [timedelta] and an integer:
    both raise [ZeroDivisionError] when [b] is zero. *)
Definition int_truediv (a b : Z) : M Float :=
  if b =? 0 then levanta ZeroDivisionError else mret (truediv a b).

Definition timedelta_truediv (td b : Z) : M Z :=
  if b =? 0 then levanta ZeroDivisionError else mret (divide_and_round td b).

(** [sorted(iterable, key=key, reverse=True)].  The sort is stable, also in
    reverse: items with equal keys keep the order of the iterable.  An item
    goes before the sorted items that follow it in the iterable unless one
    of them has a greater key. *)
Fixpoint insere_reverso {A : Type} (key : A → Z) (x : A) (l : list A) : list A :=
  match l with
  | [] => [x]
  | y :: l' =>
      if key x <? key y then y :: insere_reverso key x l' else x :: y :: l'
  end.

Definition sorted_reverse {A : Type} (key : A → Z) (l : list A) : list A :=
  foldr (insere_reverso key) [] l.

(** The dictionary that the report returns.  The agents of the ranking are
    the objects themselves. *)
Record Relatorio := {
  rel_total_tickets : Z;
  rel_tickets_resolvidos : Z;
  rel_taxa_resolucao : Numero;
  rel_tempo_medio_resolucao : Z;
  rel_satisfacao_media : Numero;
  rel_agentes_mais_produtivos : list loc
}.

(** The loop of the report.  Its accumulators do not depend on each other:
    first the one that adds up the resolution times, *)
Definition soma_tempo_resolucao (ts : list Ticket) : Z :=
  fold_left
    (λ acc t, if truthy (tempo_resolucao t)
              then acc + default 0 (tempo_resolucao t) else acc)
    ts 0.

(** then the two that add up and count the notes. *)
Definition soma_satisfacao (ts : list Ticket) : Z * Z :=
  fold_left
    (λ acc t, if truthy (satisfacao_cliente t)
              then (acc.1 + default 0 (satisfacao_cliente t), acc.2 + 1)
              else acc)
    ts (0, 0).

(** The ranking of the report: the first three of the registered agents
    sorted by [tickets_resolvidos], the greatest first. *)
Definition agentes_mais_produtivos (ags : list (loc * Agente)) : list (loc * Agente) :=
  take 3 (sorted_reverse (λ la, tickets_resolvidos la.2) ags).

(** [gerar_relatorio_desempenho] *)
Definition gerar_relatorio_desempenho : M Relatorio :=
  sis ← le_sistema;
  ts ← le_tickets (dict_values (tickets sis));
  let total_tickets := Z.of_nat (length (tickets sis)) in
  let tickets_resolvidos :=
    Z.of_nat (length (List.filter (λ t, bool_decide (status t = RESOLVIDO)) ts)) in
  let tempo_medio_resolucao := soma_tempo_resolucao ts in
  let satisfacao_media := (soma_satisfacao ts).1 in
  let total_avaliacoes := (soma_satisfacao ts).2 in
  tempo_medio_resolucao ←
    (if tickets_resolvidos =? 0 then mret tempo_medio_resolucao
     else timedelta_truediv tempo_medio_resolucao tickets_resolvidos);
  satisfacao_media ←
    (if total_avaliacoes =? 0 then mret (NInt satisfacao_media)
     else x ← int_truediv satisfacao_media total_avaliacoes; mret (NFloat x));
  taxa_resolucao ←
    (if total_tickets =? 0 then mret (NInt 0)
     else x ← int_truediv tickets_resolvidos total_tickets;
          mret (NFloat (fmul x 100)));
  ags ← le_agentes (dict_values (agentes sis));
  mret {| rel_total_tickets := total_tickets;
          rel_tickets_resolvidos := tickets_resolvidos;
          rel_taxa_resolucao := taxa_resolucao;
          rel_tempo_medio_resolucao := tempo_medio_resolucao;
          rel_satisfacao_media := satisfacao_media;
          rel_agentes_mais_produtivos := (agentes_mais_produtivos ags).*1 |}.

(** ** Runs of the system

    A run is a sequence of calls made by a client of the classes. *)
Inductive Chamada :=
  | NovoAgente (a : Agente)
  | AdicionarEspecializacao (la : loc) (especializacao : string)
  | AdicionarAgente (la : loc)
  | RegistrarCliente (nome email : string)
  | CriarTicket (lc : loc) (titulo_ descricao_ : string)
  | DesignarTicket (lt : loc)
  | ProcessarMensagem (tid rid cont : string)
  | AtualizarStatusTicket (tid : string) (novo_status : StatusTicket)
      (comentario : option string)
  | AvaliarSatisfacao (tid : string) (nota : Z) (comentario : option string)
  | GerarRelatorioDesempenho.

Inductive Retorno :=
  | RetNone
  | RetObjeto (l : loc)
  | RetAgente (o : option loc)
  | RetRespostas (rs : list string)
  | RetBool (b : bool)
  | RetRelatorio (r : Relatorio).

Definition executa `{Unicode} (c : Chamada) : M Retorno :=
  match c with
  | NovoAgente a => x ← novo_agente a; mret (RetObjeto x)
  | AdicionarEspecializacao la e => adicionar_especializacao la e;; mret RetNone
  | AdicionarAgente la => adicionar_agente la;; mret RetNone
  | RegistrarCliente nome email => x ← registrar_cliente nome email; mret (RetObjeto x)
  | CriarTicket lc ti de => x ← criar_ticket lc ti de; mret (RetObjeto x)
  | DesignarTicket lt => x ← designar_ticket lt; mret (RetAgente x)
  | ProcessarMensagem tid rid cont => x ← processar_mensagem tid rid cont; mret (RetRespostas x)
  | AtualizarStatusTicket tid st com => x ← atualizar_status_ticket tid st com; mret (RetBool x)
  | AvaliarSatisfacao tid nota com => x ← avaliar_satisfacao tid nota com; mret (RetBool x)
  | GerarRelatorioDesempenho => x ← gerar_relatorio_desempenho; mret (RetRelatorio x)
  end.

(** What a call did to the assignment of tickets, read off its return value
    and the states around it: it assigned a ticket to the agent at [la], it
    ran the resolution bookkeeping for the agent at [la] with the resolution
    time [d], or neither. *)
Inductive Evento :=
  | EvDesignado (la : loc)
  | EvResolvido (la : loc) (d : Z)
  | EvOutro.

#[global] Instance Evento_eq_dec : EqDecision Evento.
Proof. solve_decision. Defined.

Definition evento_de (c : Chamada) (s : Estado) (r : Retorno) (s' : Estado) : Evento :=
  match c, r with
  | DesignarTicket _, RetAgente (Some la) => EvDesignado la
  | CriarTicket _ _ _, RetObjeto lt =>
      match obj_tickets (memoria s') !! lt ≫= agente_designado with
      | Some la => EvDesignado la
      | None => EvOutro
      end
  | AtualizarStatusTicket tid RESOLVIDO _, RetBool true =>
      match dict_get (tickets (sistema s)) tid ≫= (obj_tickets (memoria s') !!.) with
      | Some t' =>
          match agente_designado t', tempo_resolucao t' with
          | Some la, Some d => EvResolvido la d
          | _, _ => EvOutro
          end
      | None => EvOutro
      end
  | _, _ => EvOutro
  end.

Definition le_estado : M Estado := λ s, Ok s s.

Fixpoint executa_todas `{Unicode} (cs : list Chamada) : M (list Evento) :=
  match cs with
  | [] => mret []
  | c :: resto =>
      s ← le_estado;
      r ← executa c;
      s' ← le_estado;
      evs ← executa_todas resto;
      mret (evento_de c s r s' :: evs)
  end.

(** The assignments to the agent at [la] and the resolution times booked
    for it, in a list of events. *)
Definition designacoes (la : loc) (evs : list Evento) : Z :=
  Z.of_nat (length (List.filter (λ e, bool_decide (e = EvDesignado la)) evs)).

Definition duracoes (la : loc) (evs : list Evento) : list Z :=
  omap (λ e, match e with
             | EvResolvido la' d => if decide (la' = la) then Some d else None
             | _ => None
             end) evs.

Definition soma (ds : list Z) : Z := foldr Z.add 0 ds.

(** ** Concrete environments and states for the examples *)

Definition ascii_lower_char (c : Ascii.ascii) : Ascii.ascii :=
  let n := Ascii.nat_of_ascii c in
  if (65 <=? n)%nat && (n <=? 90)%nat then Ascii.ascii_of_nat (n + 32) else c.

Fixpoint ascii_lower (s : string) : string :=
  match s with
  | EmptyString => EmptyString
  | String c resto => String (ascii_lower_char c) (ascii_lower resto)
  end.

(** [str.lower] on text whose letters outside ASCII are already lower case. *)
Definition unicode_ascii : Unicode := {| str_lower := ascii_lower |}.

Definition sistema_vazio : SistemaSuporte :=
  {| agentes := []; tickets := []; clientes := []; historico_global := [] |}.

Definition memoria_vazia : Memoria :=
  {| obj_agentes := ∅; obj_tickets := ∅; obj_clientes := ∅ |}.

(** A clock that advances one second per reading, identifiers [u0], [u1],
    ... and a random source that always draws the first item. *)
Definition ambiente_exemplo : Ambiente :=
  {| relogio := λ n, Z.of_nat n * 1000000;
     gerador_uuid := λ n, "u" +:+ pretty n;
     gerador_random := λ _, 0%nat |}.

Definition estado_inicial (amb : Ambiente) : Estado :=
  {| sistema := sistema_vazio; memoria := memoria_vazia; ambiente := amb;
     leituras := 0 |}.

Definition joao : Agente :=
  {| agente_id := "1"; agente_nome := "João"; agente_email := "joao@exemplo.com";
     carga_trabalho := 0; especializacoes := ∅; disponivel := true;
     ultimo_login := 0; tickets_resolvidos := 0; tempo_medio_resolucao := 0 |}.

(** ** Reasoning about the methods

    [wp E m Q s]: the method [m], started in [s], returns a value and a state
    that satisfy [Q], or raises an exception that [E] admits.  With [E]
    empty it says that [m] returns. *)
Definition wp {A : Type} (E : Excecao → Prop) (m : M A)
    (Q : A → Estado → Prop) (s : Estado) : Prop :=
  match m s with
  | Ok a s' => Q a s'
  | Levanta e => E e
  end.

Definition nunca : Excecao → Prop := λ _, False.
Definition qualquer : Excecao → Prop := λ _, True.

(** The state after a run from the empty system, or the empty system when
    the run raises. *)
Definition estado_apos (amb : Ambiente) (cs : list Chamada) : Estado :=
  match @executa_todas unicode_ascii cs (estado_inicial amb) with
  | Ok _ s => s
  | Levanta _ => estado_inicial amb
  end.

(** No agent is registered; Ana opens the ticket [u1], which stays without
    an agent. *)
Definition estado_sem_agentes : Estado :=
  estado_apos ambiente_exemplo
    [RegistrarCliente "Ana" "ana@exemplo.com";
     CriarTicket 0%nat "Erro" "sistema crítico não funciona"].

(** ** Bookkeeping of an agent along a run *)

(** The counters of an agent: workload, resolved tickets, mean resolution
    time. *)
Definition contas (a : Agente) : Z * Z * Z :=
  (carga_trabalho a, tickets_resolvidos a, tempo_medio_resolucao a).

(** The running mean after one more resolution time [d], [n] being the
    number of resolutions that includes it. *)
Definition media_incremental (media : Z) (n : Z) (d : Z) : Z :=
  if n =? 1 then d else divide_and_round (media * (n - 1) + d) n.

(** The counters of the agent at [la] after an event. *)
Definition contas_apos (la : loc) (c : Z * Z * Z) (ev : Evento) : Z * Z * Z :=
  match ev with
  | EvDesignado la' =>
      if decide (la' = la) then (c.1.1 + 1, c.1.2, c.2) else c
  | EvResolvido la' d =>
      if decide (la' = la)
      then (c.1.1 - 1, c.1.2 + 1, media_incremental c.2 (c.1.2 + 1) d)
      else c
  | EvOutro => c
  end.

(** What [designar_ticket] leaves behind: nothing when it returns [None];
    otherwise the chosen agent has one more ticket and the ticket points at
    it. *)
Definition designar_post (lt : loc) (s : Estado) (r : option loc) (s' : Estado)
  : Prop :=
  sistema s' = sistema s
  ∧ obj_clientes (memoria s') = obj_clientes (memoria s)
  ∧ ambiente s' = ambiente s
  ∧ match r with
    | None => s' = s
    | Some la =>
        ∃ a t t',
          obj_agentes (memoria s) !! la = Some a
          ∧ obj_tickets (memoria s) !! lt = Some t
          ∧ obj_agentes (memoria s')
            = <[la := com_carga_trabalho (carga_trabalho a + 1) a]>
                (obj_agentes (memoria s))
          ∧ obj_tickets (memoria s') = <[lt := t']> (obj_tickets (memoria s))
          ∧ agente_designado t' = Some la
          ∧ status t' = DESIGNADO
          ∧ criado_em t' = criado_em t
          ∧ tempo_resolucao t' = tempo_resolucao t
          ∧ tempo_primeira_resposta t'
            = (if truthy (tempo_primeira_resposta t)
               then tempo_primeira_resposta t
               else Some (relogio (ambiente s) (leituras s) - criado_em t))
    end.

(** The counters of the agent at [la], which were those of [a] before the
    call [c], follow the event of the call. *)
Definition contas_post (la : loc) (a : Agente) (c : Chamada) (s : Estado)
    (r : Retorno) (s' : Estado) : Prop :=
  ∃ a',
    obj_agentes (memoria s') !! la = Some a'
    ∧ contas a' = contas_apos la (contas a) (evento_de c s r s').

(** João is registered as the only agent and Ana as a client. *)
Definition estado_atendimento : Estado :=
  estado_apos ambiente_exemplo
    [NovoAgente joao; AdicionarAgente 0%nat;
     RegistrarCliente "Ana" "ana@exemplo.com"].

(** Ana opens the ticket [u1], which goes to João; the ticket is set to
    [RESOLVIDO], and then set to [RESOLVIDO] once more. *)
Definition abre_e_resolve : list Chamada :=
  [CriarTicket 0%nat "Erro" "sistema crítico não funciona";
   AtualizarStatusTicket "u1" RESOLVIDO None].

Definition resolve_de_novo : list Chamada :=
  [AtualizarStatusTicket "u1" RESOLVIDO None].

Definition estado_resolvido : Estado :=
  match @executa_todas unicode_ascii abre_e_resolve estado_atendimento with
  | Ok _ s => s
  | Levanta _ => estado_atendimento
  end.

(** A second agent object with João's id exists but is not registered. *)
Definition outro_joao : Agente :=
  {| agente_id := "1"; agente_nome := "João Substituto";
     agente_email := "joao2@exemplo.com";
     carga_trabalho := 0; especializacoes := ∅; disponivel := true;
     ultimo_login := 0; tickets_resolvidos := 0; tempo_medio_resolucao := 0 |}.

Definition estado_dois_objetos : Estado :=
  estado_apos ambiente_exemplo
    [NovoAgente joao; AdicionarAgente 0%nat; NovoAgente outro_joao].

(** A clock whose first eleven readings are equal, as when a ticket is opened
    and assigned within one tick of the system clock, and that advances one
    second per reading afterwards. *)
Definition ambiente_relogio_parado : Ambiente :=
  {| relogio := λ n, if (n <? 11)%nat then 0 else Z.of_nat n * 1000000;
     gerador_uuid := λ n, "u" +:+ pretty n;
     gerador_random := λ _, 0%nat |}.

Definition estado_resposta_imediata : Estado :=
  estado_apos ambiente_relogio_parado
    [NovoAgente joao; AdicionarAgente 0%nat;
     RegistrarCliente "Ana" "ana@exemplo.com";
     CriarTicket 0%nat "Erro" "sistema crítico não funciona"].

(** Two tickets are opened and resolved by João, then the second one is
    closed. *)
Definition estado_um_fechado : Estado :=
  estado_apos ambiente_exemplo
    [NovoAgente joao; AdicionarAgente 0%nat;
     RegistrarCliente "Ana" "ana@exemplo.com";
     CriarTicket 0%nat "Erro" "sistema crítico não funciona";
     CriarTicket 0%nat "Outro erro" "falha normal";
     AtualizarStatusTicket "u1" RESOLVIDO None;
     AtualizarStatusTicket "u11" RESOLVIDO None;
     AtualizarStatusTicket "u11" FECHADO None].

(** The mean that the specification of the report describes: the mean of
    [tempo_resolucao] over the tickets whose status is [RESOLVIDO], rounded
    as a [timedelta] division, and zero when there is none. *)
Definition media_dos_resolvidos (ts : list Ticket) : Z :=
  let resolvidos := List.filter (λ t, bool_decide (status t = RESOLVIDO)) ts in
  match resolvidos with
  | [] => 0
  | _ => divide_and_round
           (soma (map (λ t, default 0 (tempo_resolucao t)) resolvidos))
           (Z.of_nat (length resolvidos))
  end.

(** The sender [rid] may write on the ticket [t]: it is the ticket's client,
    or else the ticket's agent; [rnome] is the name of the one it is. *)
Definition autorizado (s : Estado) (t : Ticket) (rid rnome : string) : Prop :=
  ∃ c,
    obj_clientes (memoria s) !! cliente t = Some c
    ∧ ((rid = cliente_id c ∧ rnome = cliente_nome c)
       ∨ (rid ≠ cliente_id c
          ∧ ∃ la a,
              agente_designado t = Some la
              ∧ obj_agentes (memoria s) !! la = Some a
              ∧ rid = agente_id a ∧ rnome = agente_nome a)).

(** The flags of [classificar_mensagem] that [processar_mensagem] reads. *)
Definition e_problema `{Unicode} (cont : string) : bool :=
  default false (dict_get (classificar_mensagem cont) "problema").

Definition e_urgencia `{Unicode} (cont : string) : bool :=
  default false (dict_get (classificar_mensagem cont) "urgencia").

(** A clock that advances one second per reading and jumps two hours ahead
    at the fourteenth reading. *)
Definition ambiente_relogio_salto : Ambiente :=
  {| relogio := λ n, if (n <? 14)%nat then Z.of_nat n * 1000000
                     else Z.of_nat n * 1000000 + timedelta_hours 2;
     gerador_uuid := λ n, "u" +:+ pretty n;
     gerador_random := λ _, 0%nat |}.

(** João is registered, Ana has opened the ticket [u1] and João has it. *)
Definition estado_aberto (amb : Ambiente) : Estado :=
  estado_apos amb
    [NovoAgente joao; AdicionarAgente 0%nat;
     RegistrarCliente "Ana" "ana@exemplo.com";
     CriarTicket 0%nat "Erro" "sistema crítico não funciona"].

(** The candidates of an assignment: the registered agents that are
    available and have fewer than five tickets, in the order of the
    registry. *)
Definition candidatos (s : Estado) : list (loc * Agente) :=
  omap (λ l, match obj_agentes (memoria s) !! l with
             | Some a => if e_disponivel (l, a) then Some (l, a) else None
             | None => None
             end)
       (dict_values (agentes (sistema s))).

(** The score of an agent for a ticket of priority [p], as the
    specification words it. *)
Definition score_spec `{Unicode} (p : PrioridadeTicket) (a : Agente) : Z :=
  100 - carga_trabalho a * 20
  + (if bool_decide (nome_minusculo p ∈ especializacoes a) then 50 else 0)
  + tickets_resolvidos a / 10.

Definition maria : Agente :=
  {| agente_id := "2"; agente_nome := "Maria"; agente_email := "maria@exemplo.com";
     carga_trabalho := 0; especializacoes := {[ "critica" ]}; disponivel := true;
     ultimo_login := 0; tickets_resolvidos := 0; tempo_medio_resolucao := 0 |}.

Definition pedro : Agente :=
  {| agente_id := "3"; agente_nome := "Pedro"; agente_email := "pedro@exemplo.com";
     carga_trabalho := 0; especializacoes := ∅; disponivel := true;
     ultimo_login := 0; tickets_resolvidos := 0; tempo_medio_resolucao := 0 |}.

(** Ana's critical ticket was opened when no agent was registered; then João
    and Maria, who is specialized in critical tickets, were registered. *)
Definition estado_joao_maria : Estado :=
  estado_apos ambiente_exemplo
    [RegistrarCliente "Ana" "ana@exemplo.com";
     CriarTicket 0%nat "Erro" "sistema crítico não funciona";
     NovoAgente joao; AdicionarAgente 0%nat;
     NovoAgente maria; AdicionarAgente 1%nat].

(** The same with João and Pedro, who score the same. *)
Definition estado_joao_pedro : Estado :=
  estado_apos ambiente_exemplo
    [RegistrarCliente "Ana" "ana@exemplo.com";
     CriarTicket 0%nat "Erro" "sistema crítico não funciona";
     NovoAgente joao; AdicionarAgente 0%nat;
     NovoAgente pedro; AdicionarAgente 1%nat].

(** A ticket without an agent has no resolution time. *)
Definition sem_agente_sem_resolucao (s : Estado) : Prop :=
  ∀ l t,
    obj_tickets (memoria s) !! l = Some t →
    agente_designado t = None → tempo_resolucao t = None.

(** ** Definitions for the further properties *)

(** The registry of agents refers to objects of the store. *)
Definition agentes_validos (s : Estado) : Prop :=
  ∀ l, l ∈ dict_values (agentes (sistema s)) →
       is_Some (obj_agentes (memoria s) !! l).

(** The sender [rid] is neither the client of the ticket nor its agent. *)
Definition nao_autorizado (s : Estado) (t : Ticket) (rid : string) : Prop :=
  ∃ c,
    obj_clientes (memoria s) !! cliente t = Some c
    ∧ rid ≠ cliente_id c
    ∧ match agente_designado t with
      | None => True
      | Some la => ∃ a, obj_agentes (memoria s) !! la = Some a ∧ rid ≠ agente_id a
      end.

(** The message that a truthy comment adds to a ticket. *)
Definition mensagem_sistema_em (s : Estado) (cont : string) : Mensagem :=
  {| mensagem_id := gerador_uuid (ambiente s) (leituras s);
     remetente_id := "sistema"; remetente_nome := "Sistema";
     conteudo := cont;
     timestamp := relogio (ambiente s) (S (leituras s));
     is_sistema := true |}.

(** The registry of tickets refers to objects of the store. *)
Definition tickets_validos (s : Estado) : Prop :=
  ∀ l, l ∈ dict_values (tickets (sistema s)) →
       is_Some (obj_tickets (memoria s) !! l).

(** The registered ticket objects, in the order of the registry. *)
Definition objetos_tickets (s : Estado) : list Ticket :=
  omap (λ l, obj_tickets (memoria s) !! l) (dict_values (tickets (sistema s))).

(** No keyword of the priority table occurs in the lowered text. *)
Definition sem_keywords `{Unicode} (texto : string) : Prop :=
  ∀ kw p, (kw, p) ∈ keywords → str_in kw (str_lower texto) = false.

(** The global history holds at most 1000 messages, none of them a system
    message. *)
Definition historico_limitado (s : Estado) : Prop :=
  (length (historico_global (sistema s)) ≤ 1000)%nat
  ∧ Forall (λ m, is_sistema m = false) (historico_global (sistema s)).

(** The ticket [t'] is the ticket [t] later on: same id, title, description,
    client and creation time, and the messages of [t] followed by the
    messages added since. *)
Definition estavel (t t' : Ticket) : Prop :=
  ticket_id t' = ticket_id t
  ∧ titulo t' = titulo t
  ∧ descricao t' = descricao t
  ∧ cliente t' = cliente t
  ∧ criado_em t' = criado_em t
  ∧ mensagens t `prefix_of` mensagens t'.

Definition tickets_estaveis (s s' : Estado) : Prop :=
  ∀ l t,
    obj_tickets (memoria s) !! l = Some t →
    ∃ t', obj_tickets (memoria s') !! l = Some t' ∧ estavel t t'.

(** What an assignment does to the ticket at [lt], in full. *)
Definition designar_efeito (lt : loc) (s : Estado) (r : option loc) (s' : Estado)
  : Prop :=
  match r with
  | None => s' = s
  | Some la =>
      ∃ t t',
        obj_tickets (memoria s) !! lt = Some t
        ∧ obj_tickets (memoria s') = <[lt := t']> (obj_tickets (memoria s))
        ∧ estavel t t'
        ∧ prioridade t' = prioridade t
        ∧ agente_designado t' = Some la
        ∧ status t' = DESIGNADO
        ∧ sistema s' = sistema s
        ∧ obj_clientes (memoria s') = obj_clientes (memoria s)
  end.

(** The message that [criar_ticket] puts first on a ticket. *)
Definition mensagem_criacao `{Unicode} (s : Estado) (descricao_ : string) : Mensagem :=
  {| mensagem_id := gerador_uuid (ambiente s) (S (S (S (leituras s))));
     remetente_id := "sistema"; remetente_nome := "Sistema";
     conteudo := "Ticket criado com prioridade "
                   +:+ prioridade_name (extrair_prioridade descricao_);
     timestamp := relogio (ambiente s) (S (S (S (S (leituras s)))));
     is_sistema := true |}.

(** The client object [c'] continues [c]: the same id, name, email and
    history, and the ticket ids that [c] lists are the first ones that [c']
    lists. *)
Definition cliente_estavel (c c' : Cliente) : Prop :=
  cliente_id c' = cliente_id c
  ∧ cliente_nome c' = cliente_nome c
  ∧ cliente_email c' = cliente_email c
  ∧ historico_interacoes c' = historico_interacoes c
  ∧ tickets_abertos c `prefix_of` tickets_abertos c'.

Definition clientes_estaveis (s s' : Estado) : Prop :=
  ∀ l c, obj_clientes (memoria s) !! l = Some c →
         ∃ c', obj_clientes (memoria s') !! l = Some c' ∧ cliente_estavel c c'.

(** The registered agents with their objects, in the order of the
    registry. *)
Definition agentes_registrados (s : Estado) : list (loc * Agente) :=
  omap (λ l, (l,.) <$> obj_agentes (memoria s) !! l)
       (dict_values (agentes (sistema s))).

(** The items of [l] go from the greatest key to the least. *)
Definition decrescente {A : Type} (key : A → Z) (l : list A) : Prop :=
  ∀ i j x y, (i < j)%nat → l !! i = Some x → l !! j = Some y → key y ≤ key x.

(** The mean of a list of durations, rounded as a [timedelta] division, and
    zero for the empty list. *)
Definition media_duracoes (ds : list Z) : Z :=
  match ds with
  | [] => 0
  | _ => divide_and_round (soma ds) (Z.of_nat (length ds))
  end.



(** João resolves two tickets of Ana, the first after 19 seconds and the
    second after 10. *)
Definition estado_dois_resolvidos : Estado :=
  estado_apos ambiente_exemplo
    [NovoAgente joao; AdicionarAgente 0%nat;
     RegistrarCliente "Ana" "ana@exemplo.com";
     CriarTicket 0%nat "Erro" "sistema crítico não funciona";
     CriarTicket 0%nat "Outro erro" "falha normal";
     AtualizarStatusTicket "u1" RESOLVIDO None;
     AtualizarStatusTicket "u11" RESOLVIDO None].


(** Ana's first ticket is opened and resolved while no agent is registered;
    then João is registered and resolves her second ticket. *)
Definition estado_resolvido_sem_agente : Estado :=
  estado_apos ambiente_exemplo
    [RegistrarCliente "Ana" "ana@exemplo.com";
     CriarTicket 0%nat "Erro" "sistema crítico não funciona";
     AtualizarStatusTicket "u1" RESOLVIDO None;
     NovoAgente joao; AdicionarAgente 0%nat;
     CriarTicket 0%nat "Outro erro" "falha normal";
     AtualizarStatusTicket "u7" RESOLVIDO None].

(** The call [c], made in [s], runs the resolution bookkeeping of the ticket
    object at [lt]: it is a call of [atualizar_status_ticket] with
    [RESOLVIDO] and an id registered for the object, and the ticket has an
    agent.  The value is the time of the call: the reading of the clock that
    the bookkeeping makes, which follows the three readings made for the
    message of the comment when there is one. *)
Definition resolucao_de (lt : loc) (c : Chamada) (s : Estado) : option Z :=
  match c with
  | AtualizarStatusTicket tid RESOLVIDO comentario =>
      if decide (dict_get (tickets (sistema s)) tid = Some lt) then
        t ← obj_tickets (memoria s) !! lt;
        _ ← agente_designado t;
        Some (relogio (ambiente s)
                (leituras s + (if truthy_str comentario then 3 else 0))%nat)
      else None
  | _ => None
  end.

(** The times of the calls of a run that run the resolution bookkeeping of
    the ticket object at [lt], the earliest first. *)
Fixpoint resolucoes `{Unicode} (lt : loc) (cs : list Chamada) (s : Estado)
  : list Z :=
  match cs with
  | [] => []
  | c :: resto =>
      match executa c s with
      | Ok _ s' => option_list (resolucao_de lt c s) ++ resolucoes lt resto s'
      | Levanta _ => []
      end
  end.

(** The last [n] items of a list. *)
Definition ultimos {A : Type} (n : nat) (l : list A) : list A :=
  drop (length l - n) l.

(** The name under which the sender [rid] is recorded on the ticket [t], if
    it may write on it. *)
Definition nome_remetente (s : Estado) (t : Ticket) (rid : string) : option string :=
  match identificar_remetente rid t s with
  | Ok remetente _ => remetente
  | Levanta _ => None
  end.

(** The message that the call [c], made in [s], puts on a ticket for its
    sender: a call of [processar_mensagem] with a registered id and a sender
    that may write, the message having the identifier and the time read
    first in the call. *)
Definition mensagem_aceita (c : Chamada) (s : Estado) : option Mensagem :=
  match c with
  | ProcessarMensagem tid rid cont =>
      lt ← dict_get (tickets (sistema s)) tid;
      t ← obj_tickets (memoria s) !! lt;
      rnome ← nome_remetente s t rid;
      Some {| mensagem_id := gerador_uuid (ambiente s) (leituras s);
              remetente_id := rid; remetente_nome := rnome; conteudo := cont;
              timestamp := relogio (ambiente s) (S (leituras s));
              is_sistema := false |}
  | _ => None
  end.

(** The messages accepted along a run, the oldest first. *)
Fixpoint mensagens_aceitas `{Unicode} (cs : list Chamada) (s : Estado)
  : list Mensagem :=
  match cs with
  | [] => []
  | c :: resto =>
      match executa c s with
      | Ok _ s' => option_list (mensagem_aceita c s) ++ mensagens_aceitas resto s'
      | Levanta _ => []
      end
  end.

(** * Properties *)

Section Calculo.
Context {A B : Type} (E : Excecao → Prop).

Lemma wp_ret (a : A) (Q : A → Estado → Prop) s :
  Q a s → wp E (mret a) Q s.
Proof. done. Qed.

Lemma wp_bind (m : M A) (f : A → M B) (Q : B → Estado → Prop) s :
  wp E m (λ a s', wp E (f a) Q s') s → wp E (m ≫= f) Q s.
Proof.
  unfold wp, mbind, M_bind. by destruct (m s).
Qed.

Lemma wp_mono (m : M A) (Q Q' : A → Estado → Prop) s :
  wp E m Q s → (∀ a s', Q a s' → Q' a s') → wp E m Q' s.
Proof.
  unfold wp. destruct (m s); auto.
Qed.

Lemma wp_ok (m : M A) (Q : A → Estado → Prop) s a s' :
  wp E m Q s → m s = Ok a s' → Q a s'.
Proof.
  unfold wp. intros H Hm. by rewrite Hm in H.
Qed.

Lemma wp_of_ok (m : M A) (Q : A → Estado → Prop) s a s' :
  m s = Ok a s' → Q a s' → wp E m Q s.
Proof.
  unfold wp. by intros ->.
Qed.
End Calculo.

Lemma wp_nunca {A : Type} (m : M A) (Q : A → Estado → Prop) s :
  wp nunca m Q s → ∃ a s', m s = Ok a s' ∧ Q a s'.
Proof.
  unfold wp, nunca. destruct (m s); [eauto | done].
Qed.

Lemma wp_qualquer {A : Type} (m : M A) (Q : A → Estado → Prop) s :
  (∀ a s', m s = Ok a s' → Q a s') → wp qualquer m Q s.
Proof.
  unfold wp, qualquer. destruct (m s); auto.
Qed.

(** Rules for the primitive steps. *)
Section Primitivas.
Context (E : Excecao → Prop).

Lemma wp_le_sistema (Q : SistemaSuporte → Estado → Prop) s :
  Q (sistema s) s → wp E le_sistema Q s.
Proof. done. Qed.

Lemma wp_le_estado (Q : Estado → Estado → Prop) s :
  Q s s → wp E le_estado Q s.
Proof. done. Qed.

Lemma wp_altera_sistema f (Q : unit → Estado → Prop) s :
  Q tt (com_sistema (f (sistema s)) s) → wp E (altera_sistema f) Q s.
Proof. done. Qed.

Lemma wp_agora (Q : Z → Estado → Prop) s :
  Q (relogio (ambiente s) (leituras s)) (com_leituras (S (leituras s)) s) →
  wp E agora Q s.
Proof. done. Qed.

Lemma wp_uuid4 (Q : string → Estado → Prop) s :
  Q (gerador_uuid (ambiente s) (leituras s)) (com_leituras (S (leituras s)) s) →
  wp E uuid4 Q s.
Proof. done. Qed.

Lemma wp_levanta {A} e (Q : A → Estado → Prop) s :
  E e → wp E (levanta e) Q s.
Proof. done. Qed.

Lemma wp_le_agente l (Q : Agente → Estado → Prop) s :
  match obj_agentes (memoria s) !! l with
  | Some a => Q a s
  | None => E ReferenciaInvalida
  end → wp E (le_agente l) Q s.
Proof. unfold wp, le_agente. by destruct (_ !! _). Qed.

Lemma wp_le_ticket l (Q : Ticket → Estado → Prop) s :
  match obj_tickets (memoria s) !! l with
  | Some t => Q t s
  | None => E ReferenciaInvalida
  end → wp E (le_ticket l) Q s.
Proof. unfold wp, le_ticket. by destruct (_ !! _). Qed.

Lemma wp_le_cliente l (Q : Cliente → Estado → Prop) s :
  match obj_clientes (memoria s) !! l with
  | Some c => Q c s
  | None => E ReferenciaInvalida
  end → wp E (le_cliente l) Q s.
Proof. unfold wp, le_cliente. by destruct (_ !! _). Qed.

Lemma wp_altera_agente l f (Q : unit → Estado → Prop) s :
  match obj_agentes (memoria s) !! l with
  | Some a =>
      Q tt (com_memoria
              (com_obj_agentes (<[l := f a]> (obj_agentes (memoria s))) (memoria s)) s)
  | None => E ReferenciaInvalida
  end → wp E (altera_agente l f) Q s.
Proof. unfold wp, altera_agente. by destruct (_ !! _). Qed.

Lemma wp_altera_ticket l f (Q : unit → Estado → Prop) s :
  match obj_tickets (memoria s) !! l with
  | Some t =>
      Q tt (com_memoria
              (com_obj_tickets (<[l := f t]> (obj_tickets (memoria s))) (memoria s)) s)
  | None => E ReferenciaInvalida
  end → wp E (altera_ticket l f) Q s.
Proof. unfold wp, altera_ticket. by destruct (_ !! _). Qed.

Lemma wp_altera_cliente l f (Q : unit → Estado → Prop) s :
  match obj_clientes (memoria s) !! l with
  | Some c =>
      Q tt (com_memoria
              (com_obj_clientes (<[l := f c]> (obj_clientes (memoria s))) (memoria s)) s)
  | None => E ReferenciaInvalida
  end → wp E (altera_cliente l f) Q s.
Proof. unfold wp, altera_cliente. by destruct (_ !! _). Qed.
Lemma wp_random_choice seq (Q : string → Estado → Prop) s :
  Q (nth (gerador_random (ambiente s) (leituras s) mod length seq)%nat seq EmptyString)
    (com_leituras (S (leituras s)) s) →
  wp E (random_choice seq) Q s.
Proof. done. Qed.

Lemma wp_novo_agente a (Q : loc → Estado → Prop) s :
  (let l := fresh (dom (obj_agentes (memoria s))) in
   Q l (com_memoria
          (com_obj_agentes (<[l := a]> (obj_agentes (memoria s))) (memoria s)) s)) →
  wp E (novo_agente a) Q s.
Proof. done. Qed.

Lemma wp_novo_ticket t (Q : loc → Estado → Prop) s :
  (let l := fresh (dom (obj_tickets (memoria s))) in
   Q l (com_memoria
          (com_obj_tickets (<[l := t]> (obj_tickets (memoria s))) (memoria s)) s)) →
  wp E (novo_ticket t) Q s.
Proof. done. Qed.

Lemma wp_novo_cliente c (Q : loc → Estado → Prop) s :
  (let l := fresh (dom (obj_clientes (memoria s))) in
   Q l (com_memoria
          (com_obj_clientes (<[l := c]> (obj_clientes (memoria s))) (memoria s)) s)) →
  wp E (novo_cliente c) Q s.
Proof. done. Qed.
End Primitivas.

(** The type [problema] has no canned responses: the choice is among the
    fallback alone. *)
Lemma wp_get_resposta_problema E (Q : string → Estado → Prop) s :
  Q "Desculpe, não entendi." (com_leituras (S (leituras s)) s) →
  wp E (get_resposta "problema") Q s.
Proof.
  unfold wp, get_resposta, random_choice. cbn [dict_get respostas_padrao].
  cbn. by rewrite Nat.mod_1_r.
Qed.

(** Projections of a state, an object or a registry that was just written. *)
Ltac estado_simpl :=
  cbn [sistema memoria ambiente leituras com_sistema com_memoria com_leituras
       obj_agentes obj_tickets obj_clientes
       com_obj_agentes com_obj_tickets com_obj_clientes
       agentes tickets clientes historico_global
       com_agentes com_tickets com_clientes com_historico_global].

Ltac estado_simpl_in H :=
  cbn [sistema memoria ambiente leituras com_sistema com_memoria com_leituras
       obj_agentes obj_tickets obj_clientes
       com_obj_agentes com_obj_tickets com_obj_clientes
       agentes tickets clientes historico_global
       com_agentes com_tickets com_clientes com_historico_global] in H.

Ltac campos_simpl :=
  cbn [ticket_id titulo descricao prioridade status cliente criado_em
       agente_designado ultima_atualizacao mensagens tags
       tempo_primeira_resposta tempo_resolucao satisfacao_cliente
       com_prioridade com_status com_agente_designado com_ultima_atualizacao
       com_mensagens com_tempo_primeira_resposta com_tempo_resolucao
       com_satisfacao_cliente
       agente_id agente_nome agente_email carga_trabalho especializacoes
       disponivel ultimo_login tickets_resolvidos tempo_medio_resolucao
       com_carga_trabalho com_especializacoes com_tickets_resolvidos
       com_tempo_medio_resolucao
       cliente_id cliente_nome cliente_email tickets_abertos
       historico_interacoes com_tickets_abertos] in *.

(** The object read or written by a step: from the write before it, from a
    hypothesis, or by cases. *)
Ltac wp_lookup :=
  estado_simpl;
  rewrite ?lookup_insert_eq;
  first
    [ match goal with
      | H : ?o = Some _ |- match ?o with _ => _ end => rewrite H
      | H : ?o = None |- match ?o with _ => _ end => rewrite H
      end
    | lazymatch goal with
      | |- match ?h !! ?l with _ => _ end =>
          destruct (h !! l) eqn:?; [| try exact I]
      | |- _ => idtac
      end ].

(** A test of a method: decided by a hypothesis, or by cases. *)
Ltac wp_caso x :=
  first
    [ match goal with
      | H : x = _ |- _ => rewrite H
      end
    | destruct x eqn:? ].

(** One step of a method. *)
Ltac wp_passo :=
  lazymatch goal with
  | |- wp _ (mbind _ _) _ _ => apply wp_bind
  | |- wp _ (mret _) _ _ => apply wp_ret
  | |- wp _ (if ?b then _ else _) _ _ => wp_caso b
  | |- wp _ (match ?x with _ => _ end) _ _ => wp_caso x
  | |- wp _ (le_ticket _) _ _ => apply wp_le_ticket; wp_lookup
  | |- wp _ (le_agente _) _ _ => apply wp_le_agente; wp_lookup
  | |- wp _ (le_cliente _) _ _ => apply wp_le_cliente; wp_lookup
  | |- wp _ (altera_ticket _ _) _ _ => apply wp_altera_ticket; wp_lookup
  | |- wp _ (altera_agente _ _) _ _ => apply wp_altera_agente; wp_lookup
  | |- wp _ (altera_cliente _ _) _ _ => apply wp_altera_cliente; wp_lookup
  | |- wp _ le_sistema _ _ => apply wp_le_sistema
  | |- wp _ le_estado _ _ => apply wp_le_estado
  | |- wp _ (altera_sistema _) _ _ => apply wp_altera_sistema
  | |- wp _ agora _ _ => apply wp_agora
  | |- wp _ uuid4 _ _ => apply wp_uuid4
  | |- wp _ (levanta _) _ _ => apply wp_levanta
  | |- wp _ (random_choice _) _ _ => apply wp_random_choice
  | |- wp _ (novo_agente _) _ _ => apply wp_novo_agente; intros ?
  | |- wp _ (novo_ticket _) _ _ => apply wp_novo_ticket; intros ?
  | |- wp _ (novo_cliente _) _ _ => apply wp_novo_cliente; intros ?
  | |- wp _ (get_resposta "problema") _ _ => apply wp_get_resposta_problema
  | |- wp _ (get_resposta _) _ _ => unfold get_resposta at 1
  | |- wp _ (identificar_remetente _ _) _ _ => unfold identificar_remetente at 1
  | |- wp _ (nova_mensagem _ _ _ _) _ _ => unfold nova_mensagem at 1
  | |- wp _ (adicionar_mensagem _ _) _ _ => unfold adicionar_mensagem at 1
  | |- wp _ (atualizar_tempo_medio _ _) _ _ => unfold atualizar_tempo_medio at 1
  end.

Ltac wp_exec := repeat wp_passo.

(** ** Status changes *)

(** C10.  A call of [atualizar_status_ticket] with [RESOLVIDO] on a registered
    ticket that has no agent returns [True] and sets the status to
    [RESOLVIDO]; it leaves the ticket's [tempo_resolucao] as it was (so a null
    one stays null) and leaves every agent object as it was, hence every
    [carga_trabalho], [tickets_resolvidos] and [tempo_medio_resolucao]. *)
Theorem resolver_sem_agente s tid comentario lt t :
  dict_get (tickets (sistema s)) tid = Some lt →
  obj_tickets (memoria s) !! lt = Some t →
  agente_designado t = None →
  ∃ s' t',
    atualizar_status_ticket tid RESOLVIDO comentario s = Ok true s'
    ∧ obj_tickets (memoria s') !! lt = Some t'
    ∧ status t' = RESOLVIDO
    ∧ agente_designado t' = None
    ∧ tempo_resolucao t' = tempo_resolucao t
    ∧ (tempo_resolucao t = None → tempo_resolucao t' = None)
    ∧ obj_agentes (memoria s') = obj_agentes (memoria s).
Proof.
  intros Hreg Hobj Hag.
  cut (wp nunca (atualizar_status_ticket tid RESOLVIDO comentario)
         (λ b s', b = true ∧ ∃ t',
            obj_tickets (memoria s') !! lt = Some t'
            ∧ status t' = RESOLVIDO ∧ agente_designado t' = None
            ∧ tempo_resolucao t' = tempo_resolucao t
            ∧ obj_agentes (memoria s') = obj_agentes (memoria s)) s).
  { intros (b & s' & Hrun & -> & t' & ? & ? & ? & Htr & ?)%wp_nunca.
    exists s', t'. rewrite Htr. by repeat split. }
  unfold atualizar_status_ticket.
  wp_exec; campos_simpl; simplify_eq.
  all: split; [done |]; estado_simpl; rewrite lookup_insert_eq;
    eexists; split; [done |]; campos_simpl; done.
Qed.

Lemma resolver_sem_agente_witness :
  ∃ s' t',
    atualizar_status_ticket "u1" RESOLVIDO (Some "sem agente") estado_sem_agentes
      = Ok true s'
    ∧ obj_tickets (memoria s') !! 0%nat = Some t'
    ∧ status t' = RESOLVIDO
    ∧ tempo_resolucao t' = None
    ∧ obj_agentes (memoria s') = ∅.
Proof.
  edestruct (resolver_sem_agente estado_sem_agentes "u1" (Some "sem agente") 0%nat)
    as (s' & t' & Hrun & Hobj & Hst & _ & Htr & _ & Hag);
    [vm_compute; reflexivity ..|].
  exists s', t'. repeat split; [exact Hrun | exact Hobj | exact Hst | exact Htr | exact Hag].
Defined.

(** ** Reading the registered agents *)

Lemma le_agentes_estado ls s todos s' :
  le_agentes ls s = Ok todos s' → s' = s.
Proof.
  revert todos s'. induction ls as [| l ls IH]; intros todos s' H.
  - by inversion H.
  - cbn in H. unfold mbind, M_bind, le_agente in H.
    destruct (obj_agentes (memoria s) !! l); [| done].
    destruct (le_agentes ls s) as [outros s1 |] eqn:Hls; [| done].
    inversion H; subst. eauto.
Qed.

Lemma le_agentes_objetos ls s todos s' :
  le_agentes ls s = Ok todos s' →
  todos.*1 = ls ∧ ∀ p, p ∈ todos → obj_agentes (memoria s) !! p.1 = Some p.2.
Proof.
  revert todos s'. induction ls as [| l ls IH]; intros todos s' H.
  - inversion H. split; [done |]. intros p Hp. by apply elem_of_nil in Hp.
  - cbn in H. unfold mbind, M_bind, le_agente in H.
    destruct (obj_agentes (memoria s) !! l) as [a |] eqn:Hl; [| done].
    destruct (le_agentes ls s) as [outros s1 |] eqn:Hls; [| done].
    inversion H; subst. destruct (IH _ _ eq_refl) as [Hfst Hobj].
    split; [by rewrite fmap_cons, Hfst |].
    intros p [-> | Hp]%elem_of_cons; [done | by apply Hobj].
Qed.

Lemma le_agentes_total ls s :
  (∀ l, l ∈ ls → is_Some (obj_agentes (memoria s) !! l)) →
  ∃ todos, le_agentes ls s = Ok todos s.
Proof.
  induction ls as [| l ls IH]; intros Hval.
  - by exists [].
  - destruct (Hval l) as [a Ha]; [by left |].
    destruct IH as [outros Hls]; [intros; apply Hval; by right |].
    exists ((l, a) :: outros). cbn. unfold mbind, M_bind, le_agente.
    by rewrite Ha, Hls.
Qed.

Lemma wp_le_agentes E ls (Q : list (loc * Agente) → Estado → Prop) s :
  match le_agentes ls s with
  | Ok todos _ => Q todos s
  | Levanta e => E e
  end → wp E (le_agentes ls) Q s.
Proof.
  unfold wp. destruct (le_agentes ls s) as [todos s' |] eqn:H; [| done].
  by rewrite (le_agentes_estado _ _ _ _ H).
Qed.

(** ** Assignment *)

Lemma wp_designar_ticket `{Unicode} lt s :
  wp qualquer (designar_ticket lt) (designar_post lt s) s.
Proof.
  unfold designar_ticket.
  wp_passo. wp_passo. wp_passo. apply wp_le_agentes.
  destruct (le_agentes _ s) as [todos s1 |] eqn:Htodos; [| done].
  wp_passo; [by wp_passo |].
  wp_exec; unfold designar_post; estado_simpl; campos_simpl;
    (do 3 (split; [done |]));
    do 3 eexists; (split; [eassumption |]); (split; [eassumption |]).
  all: rewrite ?insert_insert_eq; split; [reflexivity |];
    split; [reflexivity |]; campos_simpl.
  all: repeat split; try done.
  all: match goal with Hb : truthy _ = _ |- _ => by rewrite Hb end.
Qed.

(** ** One call and the counters of an agent *)

Ltac contas_fim :=
  simplify_eq; unfold contas; cbn [contas_apos]; campos_simpl;
  rewrite ?decide_True, ?decide_False by done; done.

Lemma le_tickets_estado ls s ts s' :
  le_tickets ls s = Ok ts s' → s' = s.
Proof.
  revert ts s'. induction ls as [| l ls IH]; intros ts s' H.
  - by inversion H.
  - cbn in H. unfold mbind, M_bind, le_ticket in H.
    destruct (obj_tickets (memoria s) !! l); [| done].
    destruct (le_tickets ls s) as [outros s1 |] eqn:Hls; [| done].
    inversion H; subst. eauto.
Qed.

Lemma wp_le_tickets E ls (Q : list Ticket → Estado → Prop) s :
  match le_tickets ls s with
  | Ok ts _ => Q ts s
  | Levanta e => E e
  end → wp E (le_tickets ls) Q s.
Proof.
  unfold wp. destruct (le_tickets ls s) as [ts s' |] eqn:H; [| done].
  by rewrite (le_tickets_estado _ _ _ _ H).
Qed.

Lemma gerar_relatorio_desempenho_estado s r s' :
  gerar_relatorio_desempenho s = Ok r s' → s' = s.
Proof.
  unfold gerar_relatorio_desempenho, int_truediv, timedelta_truediv, levanta,
    mbind, M_bind, mret, M_ret, le_sistema.
  destruct (le_tickets _ s) as [ts s1 |] eqn:Hts; [| done].
  apply le_tickets_estado in Hts as ->.
  repeat match goal with
         | |- context [if ?b then _ else _] => destruct b
         end; try done.
  all: destruct (le_agentes _ s) as [ags s1 |] eqn:Hags; [| done].
  all: apply le_agentes_estado in Hags as ->.
  all: by intros [= _ <-].
Qed.

Lemma wp_gerar_relatorio_desempenho E (Q : Relatorio → Estado → Prop) s :
  match gerar_relatorio_desempenho s with
  | Ok r _ => Q r s
  | Levanta e => E e
  end → wp E gerar_relatorio_desempenho Q s.
Proof.
  unfold wp. destruct (gerar_relatorio_desempenho s) as [r s' |] eqn:H; [| done].
  by rewrite (gerar_relatorio_desempenho_estado _ _ _ H).
Qed.

Lemma contas_mesmo_objeto la a c s r s' :
  obj_agentes (memoria s') !! la = Some a →
  evento_de c s r s' = EvOutro →
  contas_post la a c s r s'.
Proof.
  intros Hla Hev. exists a. by rewrite Hev.
Qed.

Lemma contas_novo_agente `{Unicode} la a a0 s :
  obj_agentes (memoria s) !! la = Some a →
  wp qualquer (executa (NovoAgente a0)) (contas_post la a (NovoAgente a0) s) s.
Proof.
  intros Hla. unfold executa. wp_exec.
  apply contas_mesmo_objeto; [| done]. estado_simpl.
  rewrite lookup_insert_ne; [done |].
  intros Heq. pose proof (is_fresh (dom (obj_agentes (memoria s)))) as Hfresh.
  apply Hfresh. fold l. rewrite Heq. apply elem_of_dom. eauto.
Qed.

Lemma contas_adicionar_especializacao `{Unicode} la a l e s :
  obj_agentes (memoria s) !! la = Some a →
  wp qualquer (executa (AdicionarEspecializacao l e))
    (contas_post la a (AdicionarEspecializacao l e) s) s.
Proof.
  intros Hla. unfold executa, adicionar_especializacao. wp_exec.
  unfold contas_post. estado_simpl. cbn [evento_de contas_apos].
  destruct (decide (l = la)) as [-> | Hne].
  - rewrite lookup_insert_eq. eexists; split; [done |]. by simplify_eq.
  - rewrite lookup_insert_ne; [| done]. eauto.
Qed.

Lemma contas_adicionar_agente `{Unicode} la a l s :
  obj_agentes (memoria s) !! la = Some a →
  wp qualquer (executa (AdicionarAgente l)) (contas_post la a (AdicionarAgente l) s) s.
Proof.
  intros Hla. unfold executa, adicionar_agente. wp_exec.
  by apply contas_mesmo_objeto.
Qed.

Lemma contas_registrar_cliente `{Unicode} la a nome email s :
  obj_agentes (memoria s) !! la = Some a →
  wp qualquer (executa (RegistrarCliente nome email))
    (contas_post la a (RegistrarCliente nome email) s) s.
Proof.
  intros Hla. unfold executa, registrar_cliente. wp_exec.
  by apply contas_mesmo_objeto.
Qed.

Lemma contas_processar_mensagem `{Unicode} la a tid rid cont s :
  obj_agentes (memoria s) !! la = Some a →
  wp qualquer (executa (ProcessarMensagem tid rid cont))
    (contas_post la a (ProcessarMensagem tid rid cont) s) s.
Proof.
  intros Hla. unfold executa, processar_mensagem. wp_exec.
  all: by apply contas_mesmo_objeto.
Qed.

Lemma contas_avaliar_satisfacao `{Unicode} la a tid nota com s :
  obj_agentes (memoria s) !! la = Some a →
  wp qualquer (executa (AvaliarSatisfacao tid nota com))
    (contas_post la a (AvaliarSatisfacao tid nota com) s) s.
Proof.
  intros Hla. unfold executa, avaliar_satisfacao. wp_exec.
  all: by apply contas_mesmo_objeto.
Qed.

Lemma contas_gerar_relatorio `{Unicode} la a s :
  obj_agentes (memoria s) !! la = Some a →
  wp qualquer (executa GerarRelatorioDesempenho)
    (contas_post la a GerarRelatorioDesempenho s) s.
Proof.
  intros Hla. unfold executa. wp_passo.
  apply wp_gerar_relatorio_desempenho.
  destruct (gerar_relatorio_desempenho s); [| done].
  wp_exec. by apply contas_mesmo_objeto.
Qed.

Lemma contas_designar_ticket `{Unicode} la a lt s :
  obj_agentes (memoria s) !! la = Some a →
  wp qualquer (executa (DesignarTicket lt)) (contas_post la a (DesignarTicket lt) s) s.
Proof.
  intros Hla. unfold executa. wp_passo.
  eapply wp_mono; [apply wp_designar_ticket |].
  intros r s' (_ & _ & _ & Hr). wp_passo.
  unfold contas_post. cbn [evento_de contas_apos].
  destruct r as [la' |].
  - destruct Hr as (a0 & t & t' & Hla' & _ & -> & _).
    destruct (decide (la' = la)) as [-> | Hne].
    + rewrite lookup_insert_eq. eexists; split; [done |]. contas_fim.
    + rewrite lookup_insert_ne; [| done]. eexists; split; [done |]. contas_fim.
  - subst s'. eauto.
Qed.

Lemma contas_criar_ticket `{Unicode} la a lc ti de s :
  obj_agentes (memoria s) !! la = Some a →
  wp qualquer (executa (CriarTicket lc ti de)) (contas_post la a (CriarTicket lc ti de) s) s.
Proof.
  intros Hla. unfold executa, criar_ticket. wp_exec.
  eapply wp_mono; [apply wp_designar_ticket |].
  intros r s' (_ & _ & _ & Hr). wp_exec.
  unfold contas_post. cbn [evento_de contas_apos].
  revert Hr. estado_simpl. rewrite !insert_insert_eq. intros Hr.
  destruct r as [la' |].
  - destruct Hr as (a0 & t & t' & Hla' & _ & -> & -> & Hag & _).
    rewrite lookup_insert_eq. cbn [mbind option_bind]. rewrite Hag.
    cbn [contas_apos].
    destruct (decide (la' = la)) as [-> | Hne].
    + rewrite lookup_insert_eq. eexists; split; [done |]. contas_fim.
    + rewrite lookup_insert_ne; [| done]. eexists; split; [done |]. contas_fim.
  - subst s'. estado_simpl. rewrite lookup_insert_eq. cbn. eauto.
Qed.

Lemma contas_atualizar_status `{Unicode} la a tid st com s :
  obj_agentes (memoria s) !! la = Some a →
  wp qualquer (executa (AtualizarStatusTicket tid st com))
    (contas_post la a (AtualizarStatusTicket tid st com) s) s.
Proof.
  intros Hla. unfold executa, atualizar_status_ticket. wp_exec.
  all: try exact I.
  all: unfold contas_post; cbn [evento_de]; estado_simpl; campos_simpl.
  all: try match goal with Hst : _ = RESOLVIDO |- _ => subst end.
  all: repeat match goal with
         | Hd : dict_get _ _ = _ |- _ => rewrite Hd; clear Hd
         | Hd : decide _ = _ |- _ => clear Hd
         end;
       cbn [mbind option_bind]; rewrite ?lookup_insert_eq; campos_simpl.
  all: try match goal with
         | Hag : agente_designado _ = _ |- _ => rewrite Hag
         end.
  all: try (destruct st; try done; eexists; (split; [eassumption |]); contas_fim).
  all: try (eexists; split; [eassumption |]; contas_fim).
  all: cbn [contas_apos];
       match goal with
       | |- context [decide (?l0 = ?la)] =>
           destruct (decide (l0 = la)) as [-> | Hne];
           [rewrite !lookup_insert_eq | rewrite !lookup_insert_ne by done];
           (eexists; split; [done |])
       end.
  all: simplify_eq; unfold contas, media_incremental; campos_simpl; try done.
  all: cbn [fst snd]; match goal with Hb : (_ =? 1) = _ |- _ => by rewrite Hb end.
Qed.

Lemma passo_contas `{Unicode} c s r s' la a :
  executa c s = Ok r s' →
  obj_agentes (memoria s) !! la = Some a →
  contas_post la a c s r s'.
Proof.
  intros Hrun Hla. eapply (wp_ok qualquer); [| exact Hrun].
  destruct c.
  - by apply contas_novo_agente.
  - by apply contas_adicionar_especializacao.
  - by apply contas_adicionar_agente.
  - by apply contas_registrar_cliente.
  - by apply contas_criar_ticket.
  - by apply contas_designar_ticket.
  - by apply contas_processar_mensagem.
  - by apply contas_atualizar_status.
  - by apply contas_avaliar_satisfacao.
  - by apply contas_gerar_relatorio.
Qed.

(** ** Runs and the counters of an agent *)

Lemma executa_todas_cons `{Unicode} c cs s evs s' :
  executa_todas (c :: cs) s = Ok evs s' →
  ∃ r s1 evs1,
    executa c s = Ok r s1
    ∧ executa_todas cs s1 = Ok evs1 s'
    ∧ evs = evento_de c s r s1 :: evs1.
Proof.
  intros Hrun. cbn [executa_todas] in Hrun.
  unfold mbind, M_bind, le_estado in Hrun.
  destruct (executa c s) as [r s1 |] eqn:Hc; [| done].
  destruct (executa_todas cs s1) as [evs1 s2 |] eqn:Hcs; [| done].
  inversion Hrun; subst. by exists r, s1, evs1.
Qed.

Lemma execucao_contas `{Unicode} cs s evs s' la a :
  executa_todas cs s = Ok evs s' →
  obj_agentes (memoria s) !! la = Some a →
  ∃ a',
    obj_agentes (memoria s') !! la = Some a'
    ∧ contas a' = fold_left (contas_apos la) evs (contas a).
Proof.
  revert s evs a. induction cs as [| c cs IH]; intros s evs a Hrun Hla.
  - inversion Hrun; subst. by exists a.
  - apply executa_todas_cons in Hrun as (r & s1 & evs1 & Hc & Hcs & ->).
    destruct (passo_contas _ _ _ _ _ _ Hc Hla) as (a1 & Hla1 & Hcontas).
    destruct (IH _ _ _ Hcs Hla1) as (a' & Hla' & Hfold).
    exists a'. split; [done |]. cbn [fold_left]. by rewrite Hfold, Hcontas.
Qed.

Lemma carga_fold la evs c :
  (fold_left (contas_apos la) evs c).1.1
  = c.1.1 + designacoes la evs - Z.of_nat (length (duracoes la evs)).
Proof.
  revert c. induction evs as [| ev evs IH]; intros c.
  - unfold designacoes. cbn. lia.
  - cbn [fold_left]. rewrite IH. unfold designacoes, duracoes.
    destruct ev as [la' | la' d |]; cbn [contas_apos List.filter omap list_omap].
    + destruct (decide (la' = la)) as [-> | Hne].
      * rewrite bool_decide_eq_true_2 by done. cbn [length fst]. lia.
      * rewrite bool_decide_eq_false_2 by congruence. done.
    + rewrite bool_decide_eq_false_2 by done.
      destruct (decide (la' = la)); cbn [length fst]; lia.
    + rewrite bool_decide_eq_false_2 by done. done.
Qed.

(** ** The running mean *)

Lemma duracoes_cons la ev evs :
  duracoes la (ev :: evs)
  = match ev with
    | EvResolvido la' d =>
        if decide (la' = la) then d :: duracoes la evs else duracoes la evs
    | _ => duracoes la evs
    end.
Proof.
  unfold duracoes. destruct ev as [la' | la' d |]; cbn; [done | | done].
  by destruct (decide (la' = la)).
Qed.

Lemma divide_and_round_erro a b :
  0 < b → 2 * Z.abs (b * divide_and_round a b - a) ≤ b.
Proof.
  intros Hb. unfold divide_and_round.
  pose proof (Z.div_mod a b ltac:(lia)) as Hdm.
  pose proof (Z.mod_pos_bound a b Hb) as Hmod.
  destruct (0 <? b) eqn:Hpos; [| apply Z.ltb_ge in Hpos; lia].
  destruct (b <? 2 * (a mod b)) eqn:Hgt; cbn [orb].
  { apply Z.ltb_lt in Hgt. lia. }
  apply Z.ltb_ge in Hgt.
  destruct (2 * (a mod b) =? b) eqn:Heq; cbn [andb].
  - apply Z.eqb_eq in Heq. destruct (_ =? 1); lia.
  - apply Z.eqb_neq in Heq. lia.
Qed.

Lemma media_fold la evs c k total :
  c.1.2 = k → 0 ≤ k → (k = 0 → total = 0) →
  (1 ≤ k → 4 * Z.abs (k * c.2 - total) ≤ k * (k + 1) - 2) →
  let c' := fold_left (contas_apos la) evs c in
  let n := k + Z.of_nat (length (duracoes la evs)) in
  c'.1.2 = n
  ∧ (1 ≤ n → 4 * Z.abs (n * c'.2 - (total + soma (duracoes la evs))) ≤ n * (n + 1) - 2).
Proof.
  revert c k total.
  induction evs as [| ev evs IH]; intros c k total Hk Hpos Hzero Hinv.
  - cbn. rewrite !Z.add_0_r. split; [done |]. done.
  - cbn [fold_left].
    rewrite duracoes_cons.
    destruct ev as [la' | la' d |]; cbn [contas_apos].
    + assert ((if decide (la' = la) then (c.1.1 + 1, c.1.2, c.2) else c).1.2 = k
              ∧ (if decide (la' = la) then (c.1.1 + 1, c.1.2, c.2) else c).2 = c.2)
        as [H1 H2] by (by destruct (decide (la' = la))).
      apply IH; [done | done | done |]. by rewrite H2.
    + destruct (decide (la' = la)) as [-> | Hne]; [| by apply IH].
      cbn [length].
      replace (soma (d :: duracoes la evs)) with (d + soma (duracoes la evs)) by done.
      specialize (IH (c.1.1 - 1, c.1.2 + 1, media_incremental c.2 (c.1.2 + 1) d)
                    (k + 1) (total + d)).
      cbn [fst snd] in IH.
      replace (k + Z.of_nat (S (length (duracoes la evs))))
        with (k + 1 + Z.of_nat (length (duracoes la evs))) by lia.
      replace (total + (d + soma (duracoes la evs)))
        with (total + d + soma (duracoes la evs)) by lia.
      apply IH; [lia | lia | lia |].
      intros _. unfold media_incremental. rewrite Hk.
      destruct (k + 1 =? 1) eqn:Hone.
      * apply Z.eqb_eq in Hone. assert (k = 0) as Hk0 by lia.
        rewrite (Hzero Hk0), Hk0. lia.
      * apply Z.eqb_neq in Hone. assert (1 ≤ k) as Hk1 by lia.
        specialize (Hinv Hk1).
        pose proof (divide_and_round_erro (c.2 * (k + 1 - 1) + d) (k + 1) ltac:(lia)).
        replace (k + 1 - 1) with k in * by lia. lia.
    + by apply IH.
Qed.

(** ** Workload *)

(** C3, as the code has it.  Along any run, the workload of an agent goes up
    by one at each call that assigns a ticket to the agent
    ([designar_ticket], directly or from [criar_ticket]) and down by one at
    each call of [atualizar_status_ticket] with [RESOLVIDO] on a registered
    ticket that points at the agent, a call on a ticket that is already
    [RESOLVIDO] included; no other call changes it. *)
Theorem carga_trabalho_por_chamada `{Unicode} cs s evs s' la a :
  executa_todas cs s = Ok evs s' →
  obj_agentes (memoria s) !! la = Some a →
  ∃ a',
    obj_agentes (memoria s') !! la = Some a'
    ∧ carga_trabalho a'
      = carga_trabalho a + designacoes la evs - Z.of_nat (length (duracoes la evs)).
Proof.
  intros Hrun Hla.
  destruct (execucao_contas _ _ _ _ _ _ Hrun Hla) as (a' & Hla' & Hcontas).
  exists a'. split; [done |].
  change (carga_trabalho a') with (contas a').1.1.
  by rewrite Hcontas, carga_fold.
Qed.

Lemma carga_trabalho_por_chamada_witness :
  ∃ evs s' a',
    @executa_todas unicode_ascii (abre_e_resolve ++ resolve_de_novo) estado_atendimento
      = Ok evs s'
    ∧ obj_agentes (memoria s') !! 0%nat = Some a'
    ∧ carga_trabalho a'
      = carga_trabalho joao + designacoes 0%nat evs
        - Z.of_nat (length (duracoes 0%nat evs)).
Proof.
  edestruct (@carga_trabalho_por_chamada unicode_ascii
               (abre_e_resolve ++ resolve_de_novo) estado_atendimento)
    with (la := 0%nat) (a := joao) as (a' & Hla & Hcarga); [vm_compute; reflexivity | vm_compute; reflexivity |].
  eexists _, _, a'. split; [vm_compute; reflexivity |].
  split; [exact Hla | exact Hcarga].
Defined.

(** C3 as stated fails: one ticket is assigned once to João and its status is
    set to [RESOLVIDO] twice; the workload, 0 at the start, is decremented at
    both calls and ends at -1. *)
Lemma carga_trabalho_uma_vez_counterexample :
  ∃ evs s' a',
    @executa_todas unicode_ascii (abre_e_resolve ++ resolve_de_novo) estado_atendimento
      = Ok evs s'
    ∧ evs = [EvDesignado 0%nat; EvResolvido 0%nat 9000000; EvResolvido 0%nat 10000000]
    ∧ tickets (sistema s') = [("u1", 0%nat)]
    ∧ obj_agentes (memoria estado_atendimento) !! 0%nat = Some joao
    ∧ obj_agentes (memoria s') !! 0%nat = Some a'
    ∧ carga_trabalho a' = -1
    ∧ carga_trabalho a' ≠ carga_trabalho joao + 1 - 1.
Proof.
  eexists _, _, _. split; [vm_compute; reflexivity |].
  split; [reflexivity |]. split; [reflexivity |].
  split; [vm_compute; reflexivity |]. split; [vm_compute; reflexivity |].
  split; [reflexivity | discriminate].
Qed.

(** ** Mean resolution time of an agent *)

(** C8.  Along any run that starts with the agent at [la] having no resolved
    ticket, let [d1 .. dn] be the resolution times booked for the agent, in
    order.  Then the agent's [tickets_resolvidos] is [n] and its
    [tempo_medio_resolucao] differs from the mean of [d1 .. dn] by the
    rounding of the divisions only: each of the divisions by 2, ..., n rounds
    to the nearest microsecond, so
    4 * |n * tempo_medio_resolucao - (d1 + ... + dn)| <= n * (n + 1) - 2. *)
Theorem media_resolucao_incremental `{Unicode} cs s evs s' la a :
  executa_todas cs s = Ok evs s' →
  obj_agentes (memoria s) !! la = Some a →
  tickets_resolvidos a = 0 →
  ∃ a',
    obj_agentes (memoria s') !! la = Some a'
    ∧ tickets_resolvidos a' = Z.of_nat (length (duracoes la evs))
    ∧ (1 ≤ Z.of_nat (length (duracoes la evs)) →
       4 * Z.abs (Z.of_nat (length (duracoes la evs)) * tempo_medio_resolucao a'
                  - soma (duracoes la evs))
       ≤ Z.of_nat (length (duracoes la evs))
         * (Z.of_nat (length (duracoes la evs)) + 1) - 2).
Proof.
  intros Hrun Hla Hzero.
  destruct (execucao_contas _ _ _ _ _ _ Hrun Hla) as (a' & Hla' & Hcontas).
  exists a'. split; [done |].
  change (tickets_resolvidos a') with (contas a').1.2.
  change (tempo_medio_resolucao a') with (contas a').2.
  rewrite Hcontas.
  destruct (media_fold la evs (contas a) 0 0) as [Hn Hmedia];
    [done | done | done | lia |].
  rewrite Z.add_0_l in Hn, Hmedia. by rewrite Z.add_0_l in Hmedia.
Qed.

Lemma media_resolucao_incremental_witness :
  ∃ evs s' a',
    @executa_todas unicode_ascii (abre_e_resolve ++ resolve_de_novo) estado_atendimento
      = Ok evs s'
    ∧ obj_agentes (memoria s') !! 0%nat = Some a'
    ∧ duracoes 0%nat evs = [9000000; 10000000]
    ∧ tickets_resolvidos a' = 2
    ∧ 4 * Z.abs (2 * tempo_medio_resolucao a' - 19000000) ≤ 2 * (2 + 1) - 2.
Proof.
  edestruct (@media_resolucao_incremental unicode_ascii
               (abre_e_resolve ++ resolve_de_novo) estado_atendimento)
    with (la := 0%nat) (a := joao) as (a' & Hla & Hn & Hmedia);
    [vm_compute; reflexivity | vm_compute; reflexivity | reflexivity |].
  eexists _, _, a'. split; [vm_compute; reflexivity |].
  split; [exact Hla |]. split; [reflexivity |]. split; [exact Hn |].
  apply Hmedia. discriminate.
Defined.

(** Three resolutions of 10, 20 and 30 minutes give a mean of 20 minutes. *)
Lemma media_10_20_30 :
  fold_left (contas_apos 0%nat)
    [EvResolvido 0%nat (timedelta_minutes 10);
     EvResolvido 0%nat (timedelta_minutes 20);
     EvResolvido 0%nat (timedelta_minutes 30)] (3, 0, 0)
  = (0, 3, timedelta_minutes 20).
Proof. reflexivity. Qed.

(** The running mean is not always the mean rounded once: resolution times
    of 0, 1 and 1 microseconds leave a running mean of 0, and their mean,
    2/3, rounds to 1. *)
Lemma media_incremental_arredonda :
  fold_left (contas_apos 0%nat)
    [EvResolvido 0%nat 0; EvResolvido 0%nat 1; EvResolvido 0%nat 1] (3, 0, 0)
  = (0, 3, 0)
  ∧ divide_and_round (0 + 1 + 1) 3 = 1.
Proof. split; reflexivity. Qed.

(** ** Resolution time of a ticket *)

(** A call of [atualizar_status_ticket] with [RESOLVIDO] on a registered
    ticket that has an agent returns [True] and sets [tempo_resolucao] to
    the time of the call minus [criado_em], whatever the status and the
    [tempo_resolucao] before the call, unless the agent's
    [tickets_resolvidos] is -1, where the division of the running mean
    raises. *)
Lemma resolver_com_agente_retorna s tid comentario lt t la a :
  dict_get (tickets (sistema s)) tid = Some lt →
  obj_tickets (memoria s) !! lt = Some t →
  agente_designado t = Some la →
  obj_agentes (memoria s) !! la = Some a →
  tickets_resolvidos a ≠ -1 →
  ∃ s' t',
    atualizar_status_ticket tid RESOLVIDO comentario s = Ok true s'
    ∧ obj_tickets (memoria s') !! lt = Some t'
    ∧ status t' = RESOLVIDO
    ∧ tempo_resolucao t'
      = Some (relogio (ambiente s)
                (leituras s + (if truthy_str comentario then 3 else 0))%nat
              - criado_em t).
Proof.
  intros Hreg Hobj Hag Hla Hres.
  cut (wp nunca (atualizar_status_ticket tid RESOLVIDO comentario)
         (λ b s', b = true ∧ ∃ t',
            obj_tickets (memoria s') !! lt = Some t'
            ∧ status t' = RESOLVIDO
            ∧ tempo_resolucao t'
              = Some (relogio (ambiente s)
                        (leituras s + (if truthy_str comentario then 3 else 0))%nat
                      - criado_em t)) s).
  { intros (b & s' & Hrun & -> & t' & ? & ? & ?)%wp_nunca. by exists s', t'. }
  unfold atualizar_status_ticket.
  wp_exec; campos_simpl; simplify_eq.
  all: try match goal with
         | Hz : (_ =? 0) = true |- _ => apply Z.eqb_eq in Hz; lia
         end.
  all: split; [done |]; estado_simpl; rewrite lookup_insert_eq;
    eexists; split; [done |]; campos_simpl; split; [done |].
  all: do 3 f_equal; lia.
Qed.

(** The ticket at [lt] after a call that wrote at most the ticket at one
    location, when the call is not a resolution of [lt]. *)
Ltac resolucao_fim lt :=
  let tx := fresh "tx" in
  let Htx := fresh "Htx" in
  intros tx Htx; estado_simpl; rewrite ?insert_insert_eq;
  lazymatch goal with
  | |- context [<[?l0 := _]> _ !! lt] =>
      destruct (decide (lt = l0)) as [-> | ?];
      [ rewrite lookup_insert_eq;
        match goal with
        | Ht : obj_tickets _ !! l0 = Some ?t0 |- _ =>
            assert (tx = t0) as -> by congruence
        end;
        eexists; (split; [reflexivity |]); campos_simpl
      | rewrite lookup_insert_ne by done; exists tx; (split; [exact Htx |]) ]
  | |- _ => exists tx; (split; [exact Htx |])
  end.

Lemma tempo_resolucao_passo `{Unicode} c s r s' lt :
  executa c s = Ok r s' →
  ∀ t, obj_tickets (memoria s) !! lt = Some t →
  ∃ t',
    obj_tickets (memoria s') !! lt = Some t'
    ∧ criado_em t' = criado_em t
    ∧ tempo_resolucao t'
      = match resolucao_de lt c s with
        | Some n => Some (n - criado_em t)
        | None => tempo_resolucao t
        end.
Proof.
  intros Hrun.
  eapply (wp_ok qualquer _
            (λ _ s', ∀ t, obj_tickets (memoria s) !! lt = Some t →
               ∃ t',
                 obj_tickets (memoria s') !! lt = Some t'
                 ∧ criado_em t' = criado_em t
                 ∧ tempo_resolucao t'
                   = match resolucao_de lt c s with
                     | Some n => Some (n - criado_em t)
                     | None => tempo_resolucao t
                     end)); [| exact Hrun].
  clear Hrun. destruct c; unfold executa.
  - wp_exec. intros t Ht. by exists t.
  - unfold adicionar_especializacao. wp_exec. intros t Ht. by exists t.
  - unfold adicionar_agente. wp_exec. intros t Ht. by exists t.
  - unfold registrar_cliente. wp_exec. intros t Ht. by exists t.
  - unfold criar_ticket. wp_exec.
    eapply wp_mono; [apply wp_designar_ticket |].
    intros r0 s0 (_ & _ & _ & Hr). wp_exec.
    assert (obj_tickets (memoria s) !! l = None) as Hfresh
      by (apply not_elem_of_dom, is_fresh).
    intros t Ht. assert (lt ≠ l) as Hne by congruence.
    cbn [resolucao_de]. revert Hr. estado_simpl.
    destruct r0 as [la |].
    + intros (a & t0 & t' & _ & _ & _ & -> & _). 
      rewrite !lookup_insert_ne by done. by exists t.
    + intros ->. estado_simpl. rewrite !lookup_insert_ne by done. by exists t.
  - wp_passo. eapply wp_mono; [apply wp_designar_ticket |].
    intros r0 s0 (_ & _ & _ & Hr). wp_exec. intros t Ht. cbn [resolucao_de].
    destruct r0 as [la |]; [| subst s0; by exists t].
    destruct Hr as (a & t0 & t' & _ & Ht0 & _ & -> & _ & _ & Hcr & Htr & _).
    destruct (decide (lt = lt0)) as [-> | Hne].
    + rewrite lookup_insert_eq. simplify_eq. by exists t'.
    + rewrite lookup_insert_ne by done. by exists t.
  - unfold processar_mensagem. wp_exec; try exact I.
    all: cbn [resolucao_de]; resolucao_fim lt; done.
  - destruct (dict_get (tickets (sistema s)) tid) as [l |] eqn:Hreg.
    2: { unfold atualizar_status_ticket. wp_exec. intros t Ht. exists t.
         split; [done |]. split; [done |].
         destruct novo_status; cbn [resolucao_de]; rewrite ?Hreg; done. }
    destruct (decide (lt = l)) as [-> | Hne].
    2: { unfold atualizar_status_ticket. wp_exec; try exact I.
         all: intros tx Htx; estado_simpl; rewrite ?insert_insert_eq,
                                             lookup_insert_ne by done.
         all: exists tx; split; [done |]; split; [done |].
         all: destruct novo_status; cbn [resolucao_de]; rewrite ?Hreg; try done.
         all: rewrite decide_False; [done | congruence]. }
    unfold atualizar_status_ticket. wp_exec; try exact I.
    all: intros tx Htx; assert (tx = t) as -> by congruence.
    all: estado_simpl; rewrite ?insert_insert_eq, lookup_insert_eq.
    all: eexists; (split; [reflexivity |]); campos_simpl; (split; [done |]).
    all: destruct novo_status; try congruence; cbn [resolucao_de];
      rewrite ?Hreg, ?decide_True by done.
    all: try done.
    all: rewrite Heqo; cbn [mbind option_bind];
      match goal with
      | Hag : agente_designado _ = _, Hcom : truthy_str _ = _ |- _ =>
          rewrite Hag, Hcom
      end; cbn [mbind option_bind]; try done.
    all: do 3 f_equal; lia.
  - unfold avaliar_satisfacao. wp_exec; try exact I.
    all: cbn [resolucao_de]; resolucao_fim lt; done.
  - wp_passo. apply wp_gerar_relatorio_desempenho.
    destruct (gerar_relatorio_desempenho s); [| done]. wp_exec.
    intros t Ht. by exists t.
Qed.

(** C2, as the code has it.  Along any run, the resolution time of a ticket
    is written at each call of [atualizar_status_ticket] with [RESOLVIDO]
    on an id registered for the ticket while the ticket has an agent, a
    call on a ticket that is already [RESOLVIDO] included, and at no other
    call: after the run it is the time of the last such call minus
    [criado_em], which no call changes, and it is what it was before the
    run when there was no such call. *)
Theorem tempo_resolucao_a_cada_chamada `{Unicode} cs s evs s' lt t :
  executa_todas cs s = Ok evs s' →
  obj_tickets (memoria s) !! lt = Some t →
  ∃ t',
    obj_tickets (memoria s') !! lt = Some t'
    ∧ criado_em t' = criado_em t
    ∧ tempo_resolucao t'
      = match last (resolucoes lt cs s) with
        | Some n => Some (n - criado_em t)
        | None => tempo_resolucao t
        end.
Proof.
  revert s evs t. induction cs as [| c cs IH]; intros s evs t Hrun Ht.
  - inversion Hrun; subst. by exists t.
  - apply executa_todas_cons in Hrun as (r & s1 & evs1 & Hc & Hcs & _).
    destruct (tempo_resolucao_passo _ _ _ _ lt Hc t Ht) as (t1 & Ht1 & Hcr1 & Htr1).
    destruct (IH _ _ t1 Hcs Ht1) as (t' & Ht' & Hcr & Htr).
    exists t'. split; [done |]. split; [congruence |].
    rewrite Htr, Htr1, Hcr1. cbn [resolucoes]. rewrite Hc.
    rewrite last_app.
    destruct (last (resolucoes lt cs s1)) as [n |]; [done |].
    by destruct (resolucao_de lt c s).
Qed.

Lemma tempo_resolucao_a_cada_chamada_witness :
  ∃ evs s' t',
    @executa_todas unicode_ascii
      [ProcessarMensagem "u1" "u0" "preciso de ajuda";
       AtualizarStatusTicket "u1" RESOLVIDO None;
       AvaliarSatisfacao "u1" 5 None;
       AtualizarStatusTicket "u1" FECHADO None;
       AtualizarStatusTicket "u1" RESOLVIDO (Some "de novo")]
      (estado_aberto ambiente_exemplo) = Ok evs s'
    ∧ obj_tickets (memoria s') !! 0%nat = Some t'
    ∧ tempo_resolucao t' = Some 17000000.
Proof.
  edestruct (@tempo_resolucao_a_cada_chamada unicode_ascii
               [ProcessarMensagem "u1" "u0" "preciso de ajuda";
                AtualizarStatusTicket "u1" RESOLVIDO None;
                AvaliarSatisfacao "u1" 5 None;
                AtualizarStatusTicket "u1" FECHADO None;
                AtualizarStatusTicket "u1" RESOLVIDO (Some "de novo")]
               (estado_aberto ambiente_exemplo))
    with (lt := 0%nat) as (t' & Ht' & _ & Htr);
    [vm_compute; reflexivity | vm_compute; reflexivity |].
  eexists _, _, t'. split; [vm_compute; reflexivity |].
  split; [exact Ht' |]. rewrite Htr. vm_compute. reflexivity.
Defined.

(** C2 as stated fails: the ticket [u1] is [RESOLVIDO] with a resolution time
    of 9 seconds; a second call with [RESOLVIDO], one second later, runs the
    bookkeeping again and the resolution time becomes 10 seconds. *)
Lemma tempo_resolucao_uma_vez_counterexample :
  ∃ t s' t',
    tickets (sistema estado_resolvido) = [("u1", 0%nat)]
    ∧ obj_tickets (memoria estado_resolvido) !! 0%nat = Some t
    ∧ status t = RESOLVIDO
    ∧ tempo_resolucao t = Some 9000000
    ∧ atualizar_status_ticket "u1" RESOLVIDO None estado_resolvido = Ok true s'
    ∧ obj_tickets (memoria s') !! 0%nat = Some t'
    ∧ tempo_resolucao t' = Some 10000000
    ∧ tempo_resolucao t' ≠ tempo_resolucao t.
Proof.
  eexists _, _, _.
  split; [vm_compute; reflexivity |]. split; [vm_compute; reflexivity |].
  split; [reflexivity |]. split; [reflexivity |].
  split; [vm_compute; reflexivity |]. split; [vm_compute; reflexivity |].
  split; [reflexivity | discriminate].
Qed.

(** ** Registration of agents *)

Lemma dict_get_set_eq {V : Type} k (v : V) d :
  dict_get (dict_set k v d) k = Some v.
Proof.
  induction d as [| [k' v'] d IH]; cbn.
  - by rewrite decide_True.
  - destruct (decide (k' = k)) as [-> | Hne]; cbn.
    + by rewrite decide_True.
    + by rewrite decide_False.
Qed.

Lemma dict_get_set_ne {V : Type} k k0 (v : V) d :
  k0 ≠ k → dict_get (dict_set k v d) k0 = dict_get d k0.
Proof.
  intros Hne. induction d as [| [k' v'] d IH]; cbn.
  - by rewrite decide_False.
  - destruct (decide (k' = k)) as [-> | Hk]; cbn.
    + by rewrite !decide_False.
    + by rewrite IH.
Qed.

Lemma dict_set_presente {V : Type} k (v : V) d :
  is_Some (dict_get d k) → (dict_set k v d).*1 = d.*1.
Proof.
  induction d as [| [k' v'] d IH]; cbn; intros Hk.
  - by destruct Hk.
  - destruct (decide (k' = k)) as [-> | Hne]; cbn; [done |].
    by rewrite IH.
Qed.

Lemma dict_set_ausente {V : Type} k (v : V) d :
  dict_get d k = None → dict_set k v d = d ++ [(k, v)].
Proof.
  induction d as [| [k' v'] d IH]; cbn; intros Hk; [done |].
  destruct (decide (k' = k)); [done |]. by rewrite IH.
Qed.

(** C4, as the code has it.  [adicionar_agente] always returns: it stores the
    agent under its id and signals nothing.  When the id is already
    registered the entry is replaced by the new agent, in its place in the
    order of the dictionary; when it is not, the entry is added at the end.
    The other entries and all objects stay as they were. *)
Theorem adicionar_agente_substitui s la a :
  obj_agentes (memoria s) !! la = Some a →
  ∃ s',
    adicionar_agente la s = Ok tt s'
    ∧ dict_get (agentes (sistema s')) (agente_id a) = Some la
    ∧ (∀ k, k ≠ agente_id a →
         dict_get (agentes (sistema s')) k = dict_get (agentes (sistema s)) k)
    ∧ (is_Some (dict_get (agentes (sistema s)) (agente_id a)) →
         (agentes (sistema s')).*1 = (agentes (sistema s)).*1)
    ∧ (dict_get (agentes (sistema s)) (agente_id a) = None →
         agentes (sistema s') = agentes (sistema s) ++ [(agente_id a, la)])
    ∧ memoria s' = memoria s.
Proof.
  intros Hla. unfold adicionar_agente, mbind, M_bind, le_agente, altera_sistema.
  rewrite Hla. eexists. split; [reflexivity |]. estado_simpl.
  split; [apply dict_get_set_eq |].
  split; [intros k Hk; by apply dict_get_set_ne |].
  split; [apply dict_set_presente |].
  split; [apply dict_set_ausente | done].
Qed.

Lemma adicionar_agente_substitui_witness :
  ∃ s',
    adicionar_agente 1%nat estado_dois_objetos = Ok tt s'
    ∧ dict_get (agentes (sistema s')) "1" = Some 1%nat
    ∧ (agentes (sistema s')).*1 = (agentes (sistema estado_dois_objetos)).*1.
Proof.
  edestruct (adicionar_agente_substitui estado_dois_objetos 1%nat outro_joao)
    as (s' & Hrun & Hget & _ & Hkeys & _ & _); [vm_compute; reflexivity |].
  exists s'. split; [exact Hrun |]. split; [exact Hget |].
  apply Hkeys. vm_compute. eauto.
Defined.

(** C4 as stated fails: João is registered under the id 1; registering a
    second agent object whose id is 1 returns normally and the registry now
    holds the second object under that id. *)
Lemma adicionar_agente_duplicado_counterexample :
  ∃ s',
    agentes (sistema estado_dois_objetos) = [("1", 0%nat)]
    ∧ obj_agentes (memoria estado_dois_objetos) !! 0%nat = Some joao
    ∧ obj_agentes (memoria estado_dois_objetos) !! 1%nat = Some outro_joao
    ∧ adicionar_agente 1%nat estado_dois_objetos = Ok tt s'
    ∧ agentes (sistema s') = [("1", 1%nat)].
Proof.
  eexists. split; [vm_compute; reflexivity |]. split; [vm_compute; reflexivity |].
  split; [vm_compute; reflexivity |]. split; [vm_compute; reflexivity |].
  reflexivity.
Qed.

(** ** First response time *)

(** C7 fails on the code.  The ticket [u1] was opened and assigned to João
    within one tick of the clock, so its [tempo_primeira_resposta] is a zero
    duration.  The guard [if not ticket.tempo_primeira_resposta] takes the
    zero duration for an absent one: a second [designar_ticket] sets the
    field again, to 11 seconds. *)
Theorem primeira_resposta_zero_reatribuida :
  ∃ t s' t',
    obj_tickets (memoria estado_resposta_imediata) !! 0%nat = Some t
    ∧ agente_designado t = Some 0%nat
    ∧ tempo_primeira_resposta t = Some 0
    ∧ @designar_ticket unicode_ascii 0%nat estado_resposta_imediata = Ok (Some 0%nat) s'
    ∧ obj_tickets (memoria s') !! 0%nat = Some t'
    ∧ tempo_primeira_resposta t' = Some 11000000.
Proof.
  eexists _, _, _. split; [vm_compute; reflexivity |].
  split; [reflexivity |]. split; [reflexivity |].
  split; [vm_compute; reflexivity |]. split; [vm_compute; reflexivity |].
  reflexivity.
Qed.

(** ** The report *)

(** C9 fails on the code.  João resolved two tickets, in 19 and in 10
    seconds, and the second one was closed afterwards.  One ticket is
    [RESOLVIDO] and its resolution time is 19 seconds, but the report adds
    the resolution time of the closed ticket to the sum and divides by the
    number of tickets that are [RESOLVIDO]: it gives 29 seconds. *)
Theorem relatorio_tempo_medio_com_fechado :
  ∃ ts r s',
    le_tickets (dict_values (tickets (sistema estado_um_fechado))) estado_um_fechado
      = Ok ts estado_um_fechado
    ∧ map (λ t, (status t, tempo_resolucao t)) ts
      = [(RESOLVIDO, Some 19000000); (FECHADO, Some 10000000)]
    ∧ gerar_relatorio_desempenho estado_um_fechado = Ok r s'
    ∧ rel_tickets_resolvidos r = 1
    ∧ rel_tempo_medio_resolucao r = 29000000
    ∧ media_dos_resolvidos ts = 19000000.
Proof.
  eexists _, _, _. split; [vm_compute; reflexivity |].
  split; [reflexivity |]. split; [vm_compute; reflexivity |].
  split; [reflexivity |]. split; reflexivity.
Qed.

(** ** Messages *)

(** C6.  [processar_mensagem] on an id that is not in the registry returns
    the one-element list [["Ticket não encontrado."]] and leaves the whole
    state as it was; no call on a registered ticket returns that list, so
    the caller can tell the signal from the responses to a message. *)
Theorem ticket_nao_encontrado_sinal `{Unicode} s tid rid cont :
  dict_get (tickets (sistema s)) tid = None →
  processar_mensagem tid rid cont s = Ok [ticket_nao_encontrado] s
  ∧ ∀ s0 tid0 rid0 cont0 r s0',
      is_Some (dict_get (tickets (sistema s0)) tid0) →
      processar_mensagem tid0 rid0 cont0 s0 = Ok r s0' →
      r ≠ [ticket_nao_encontrado]
        ∧ (r = [remetente_nao_autorizado] ∨ remetente_nao_autorizado ∉ r).
Proof.
  intros Hnone. split.
  { unfold processar_mensagem, mbind, M_bind, le_sistema. by rewrite Hnone. }
  intros s0 tid0 rid0 cont0 r s0' [lt Hlt] Hrun.
  eapply (wp_ok qualquer _ (λ r _, r ≠ [ticket_nao_encontrado]
            ∧ (r = [remetente_nao_autorizado] ∨ remetente_nao_autorizado ∉ r)));
    [| exact Hrun].
  unfold processar_mensagem. wp_exec; try exact I.
  all: cbn [app]; (split; [discriminate |]).
  all: try (left; reflexivity).
  all: right; rewrite ?elem_of_cons, elem_of_nil; intros Hin;
    repeat destruct Hin as [Hin | Hin]; try done; try discriminate.
Qed.

Lemma ticket_nao_encontrado_sinal_witness :
  @processar_mensagem unicode_ascii "u99" "u0" "erro" estado_atendimento
  = Ok [ticket_nao_encontrado] estado_atendimento.
Proof.
  apply (@ticket_nao_encontrado_sinal unicode_ascii estado_atendimento "u99" "u0" "erro").
  vm_compute. reflexivity.
Defined.

(** What [processar_mensagem] does on a registered ticket for an authorized
    sender. *)
Lemma wp_processar_mensagem `{Unicode} s tid rid rnome cont lt t :
  dict_get (tickets (sistema s)) tid = Some lt →
  obj_tickets (memoria s) !! lt = Some t →
  autorizado s t rid rnome →
  wp nunca (processar_mensagem tid rid cont)
         (λ r s', ∃ t',
            obj_tickets (memoria s') !! lt = Some t'
            ∧ mensagens t'
              = mensagens t
                ++ [{| mensagem_id := gerador_uuid (ambiente s) (leituras s);
                       remetente_id := rid; remetente_nome := rnome;
                       conteudo := cont;
                       timestamp := relogio (ambiente s) (leituras s + 1)%nat;
                       is_sistema := false |}]
            ∧ ultima_atualizacao t' = relogio (ambiente s) (leituras s + 2)%nat
            ∧ prioridade t'
              = (if e_urgencia cont then extrair_prioridade cont else prioridade t)
            ∧ (aviso_sla ∈ r ↔
               sla_configs (prioridade t')
               < relogio (ambiente s)
                   (leituras s + 3 + (if e_problema cont then 1 else 0))%nat
                 - ultima_atualizacao t')) s.
Proof.
  intros Hreg Hobj (c & Hc & Haut).
  unfold processar_mensagem. fold (e_problema cont). fold (e_urgencia cont).
  destruct Haut as [[-> ->] | (Hne & la & a & Hag & Hla & -> & ->)].
  all: wp_exec; campos_simpl; simplify_eq; try congruence.
  all: estado_simpl; rewrite ?lookup_insert_eq; eexists; (split; [reflexivity |]);
    campos_simpl.
  all: replace (leituras s + 1)%nat with (S (leituras s)) by lia;
    replace (leituras s + 2)%nat with (S (S (leituras s))) by lia;
    try replace (leituras s + 3 + 1)%nat with (S (S (S (S (leituras s))))) by lia;
    try replace (leituras s + 3 + 0)%nat with (S (S (S (leituras s)))) by lia.
  all: split; [reflexivity |]; split; [reflexivity |].
  all: split;
    [first [ reflexivity
           | match goal with
             | Hn : ¬ _ ≠ _ |- _ => symmetry; exact (dec_stable Hn)
             end ] |].
  all: cbn [app];
    match goal with
    | Hs : (_ <? _) = true |- _ => apply Z.ltb_lt in Hs
    | Hs : (_ <? _) = false |- _ => apply Z.ltb_ge in Hs
    end.
  all: rewrite ?elem_of_cons, elem_of_nil; split;
    [ intros Hin;
      first [ assumption
            | repeat destruct Hin as [Hin | Hin];
              first [ done | unfold aviso_sla in Hin; cbn in Hin; discriminate ] ]
    | intros Hlt;
      first [ lia | repeat (first [left; reflexivity | right]) ] ].
Qed.


(** C1.  For a registered ticket and an authorized sender,
    [processar_mensagem] returns; the message is the last one of the ticket,
    [ultima_atualizacao] is the time of the append, the priority is the one
    read from the message when the message is urgent, and the responses
    contain the SLA warning exactly when the clock, read once more at the
    end, minus the ticket's [ultima_atualizacao] exceeds the budget of the
    ticket's priority (1, 4, 12 or 24 hours). *)
Theorem processar_mensagem_sla `{Unicode} s tid rid rnome cont lt t :
  dict_get (tickets (sistema s)) tid = Some lt →
  obj_tickets (memoria s) !! lt = Some t →
  autorizado s t rid rnome →
  ∃ r s' t',
    processar_mensagem tid rid cont s = Ok r s'
    ∧ obj_tickets (memoria s') !! lt = Some t'
    ∧ mensagens t'
      = mensagens t
        ++ [{| mensagem_id := gerador_uuid (ambiente s) (leituras s);
               remetente_id := rid; remetente_nome := rnome; conteudo := cont;
               timestamp := relogio (ambiente s) (leituras s + 1)%nat;
               is_sistema := false |}]
    ∧ ultima_atualizacao t' = relogio (ambiente s) (leituras s + 2)%nat
    ∧ prioridade t'
      = (if e_urgencia cont then extrair_prioridade cont else prioridade t)
    ∧ (aviso_sla ∈ r ↔
       sla_configs (prioridade t')
       < relogio (ambiente s)
           (leituras s + 3 + (if e_problema cont then 1 else 0))%nat
         - ultima_atualizacao t').
Proof.
  intros Hreg Hobj Haut.
  destruct (wp_nunca _ _ _ (wp_processar_mensagem s tid rid rnome cont lt t
                              Hreg Hobj Haut))
    as (r & s' & Hrun & t' & Hobj' & Hmsgs & Hult & Hprio & Hsla).
  exists r, s', t'. split; [exact Hrun |]. split; [exact Hobj' |].
  split; [exact Hmsgs |]. split; [exact Hult |]. split; [exact Hprio | exact Hsla].
Qed.

Lemma processar_mensagem_sla_witness :
  ∃ r s',
    @processar_mensagem unicode_ascii "u1" "u0" "sistema urgente"
      (estado_aberto ambiente_relogio_salto) = Ok r s'
    ∧ aviso_sla ∈ r.
Proof.
  edestruct (@processar_mensagem_sla unicode_ascii
               (estado_aberto ambiente_relogio_salto) "u1" "u0" "Ana"
               "sistema urgente" 0%nat)
    as (r & s' & t' & Hrun & _ & _ & Hult & Hprio & Hsla);
    [vm_compute; reflexivity | vm_compute; reflexivity | |].
  { eexists. split; [vm_compute; reflexivity |]. left. split; reflexivity. }
  exists r, s'. split; [exact Hrun |].
  apply Hsla. rewrite Hprio, Hult. vm_compute. reflexivity.
Defined.

(** X18.  The time compared with the budget runs from the append of the
    message itself, not from the update before it: with a clock that advances
    by at most half an hour between two readings, no message raises the
    warning, however old the ticket's [ultima_atualizacao] was. *)
Lemma processar_mensagem_sem_aviso `{Unicode} s tid rid rnome cont lt t r s' :
  dict_get (tickets (sistema s)) tid = Some lt →
  obj_tickets (memoria s) !! lt = Some t →
  autorizado s t rid rnome →
  (∀ n, relogio (ambiente s) (S n) - relogio (ambiente s) n ≤ timedelta_minutes 30) →
  processar_mensagem tid rid cont s = Ok r s' →
  aviso_sla ∉ r.
Proof.
  intros Hreg Hobj Haut Hclock Hrun.
  destruct (wp_ok _ _ _ _ _ _
              (wp_processar_mensagem s tid rid rnome cont lt t Hreg Hobj Haut) Hrun)
    as (t' & _ & _ & Hult & _ & Hsla).
  rewrite Hsla, Hult.
  assert (3600000000 ≤ sla_configs (prioridade t')) as Hmin
    by (destruct (prioridade t'); vm_compute; discriminate).
  pose proof (Hclock (S (S (leituras s)))) as H1.
  pose proof (Hclock (S (S (S (leituras s))))) as H2.
  change (timedelta_minutes 30) with 1800000000 in H1, H2.
  replace (leituras s + 2)%nat with (S (S (leituras s))) by lia.
  destruct (e_problema cont).
  - replace (leituras s + 3 + 1)%nat with (S (S (S (S (leituras s))))) by lia. lia.
  - replace (leituras s + 3 + 0)%nat with (S (S (S (leituras s)))) by lia. lia.
Qed.

(** ** The choice of an agent *)

Lemma max_key_from_primeiro {A : Type} (key : A → Z) x r :
  ∃ pre pos,
    x :: r = pre ++ max_key_from key x r :: pos
    ∧ (∀ c, c ∈ pre → key c < key (max_key_from key x r))
    ∧ (∀ c, c ∈ pos → key c ≤ key (max_key_from key x r)).
Proof.
  revert x. induction r as [| y r IH]; intros x.
  - exists [], []. split; [done |]. split; intros c Hc; by apply elem_of_nil in Hc.
  - cbn [max_key_from]. destruct (key x <? key y) eqn:Hlt.
    + apply Z.ltb_lt in Hlt.
      destruct (IH y) as (pre & pos & Heq & Hpre & Hpos).
      exists (x :: pre), pos. split; [by rewrite Heq |]. split; [| done].
      intros c [-> | Hc]%elem_of_cons; [| by apply Hpre].
      assert (y ∈ pre ++ max_key_from key y r :: pos) as Hy
        by (rewrite <- Heq; by left).
      apply elem_of_app in Hy as [Hy | Hy].
      * specialize (Hpre _ Hy). lia.
      * apply elem_of_cons in Hy as [<- | Hy]; [done |].
        specialize (Hpos _ Hy). lia.
    + apply Z.ltb_ge in Hlt.
      destruct (IH x) as (pre & pos & Heq & Hpre & Hpos).
      destruct pre as [| x' pre]; cbn in Heq.
      * assert (x = max_key_from key x r) as Hx by congruence.
        assert (r = pos) as Hr by congruence.
        exists [], (y :: pos). split; [cbn; congruence |].
        split; [intros c Hc; by apply elem_of_nil in Hc |].
        intros c [-> | Hc]%elem_of_cons; [rewrite <- Hx; lia | by apply Hpos].
      * assert (x' = x) as -> by congruence.
        assert (r = pre ++ max_key_from key x r :: pos) as Hr by congruence.
        exists (x :: y :: pre), pos. split; [cbn; congruence |]. split; [| done].
        assert (key x < key (max_key_from key x r)) as Hx
          by (apply Hpre; by left).
        intros c Hc. apply elem_of_cons in Hc as [-> | Hc]; [done |].
        apply elem_of_cons in Hc as [-> | Hc]; [lia |].
        apply Hpre. by right.
Qed.

Lemma pontuacao_agente_spec `{Unicode} p disponiveis ag :
  ag ∈ disponiveis →
  pontuacao_agente (List.filter (e_especializado p) disponiveis) ag
  = score_spec p ag.2.
Proof.
  intros Hag. unfold pontuacao_agente, score_spec.
  assert (bool_decide (ag.2 ∈ (List.filter (e_especializado p) disponiveis).*2)
          = bool_decide (nome_minusculo p ∈ especializacoes ag.2)) as ->.
  { apply bool_decide_ext. rewrite list_elem_of_fmap. split.
    - intros (b & Hb & Hin). apply list_elem_of_In, filter_In in Hin as [_ Hesp].
      unfold e_especializado in Hesp. apply bool_decide_eq_true in Hesp.
      by rewrite Hb.
    - intros Hesp. exists ag. split; [done |].
      apply list_elem_of_In, filter_In. split; [by apply list_elem_of_In |].
      by apply bool_decide_eq_true. }
  destruct (bool_decide _); lia.
Qed.

Lemma candidatos_le_agentes s todos s' :
  le_agentes (dict_values (agentes (sistema s))) s = Ok todos s' →
  List.filter e_disponivel todos = candidatos s.
Proof.
  unfold candidatos. generalize (dict_values (agentes (sistema s))) as ls.
  intros ls. revert todos s'. induction ls as [| l ls IH]; intros todos s' Hle.
  - by inversion Hle.
  - cbn [le_agentes] in Hle. unfold mbind, M_bind, le_agente in Hle.
    cbn [omap list_omap].
    destruct (obj_agentes (memoria s) !! l) as [a |]; [| done].
    destruct (le_agentes ls s) as [outros s1 |] eqn:Hls; [| done].
    inversion Hle; subst. cbn [List.filter].
    rewrite (IH _ _ eq_refl). by destruct (e_disponivel (l, a)).
Qed.

(** C5.  When some registered agent is available with fewer than five
    tickets, [designar_ticket] returns a candidate whose score
    100 - workload * 20 + (50 if specialized) + resolved // 10 is the greatest,
    the first such in the order of the registry: every candidate before it
    scores strictly less, every candidate after it scores at most as much.
    The ticket then points at that agent and is [DESIGNADO], and the agent's
    workload is one more than before. *)
Theorem designar_ticket_seleciona `{Unicode} s lt t :
  obj_tickets (memoria s) !! lt = Some t →
  (∀ l, l ∈ dict_values (agentes (sistema s)) →
        is_Some (obj_agentes (memoria s) !! l)) →
  candidatos s ≠ [] →
  ∃ la a pre pos s' t' a',
    designar_ticket lt s = Ok (Some la) s'
    ∧ candidatos s = pre ++ (la, a) :: pos
    ∧ obj_agentes (memoria s) !! la = Some a
    ∧ (∀ c, c ∈ pre → score_spec (prioridade t) c.2 < score_spec (prioridade t) a)
    ∧ (∀ c, c ∈ pos → score_spec (prioridade t) c.2 ≤ score_spec (prioridade t) a)
    ∧ obj_tickets (memoria s') !! lt = Some t'
    ∧ agente_designado t' = Some la
    ∧ status t' = DESIGNADO
    ∧ obj_agentes (memoria s') !! la = Some a'
    ∧ carga_trabalho a' = carga_trabalho a + 1.
Proof.
  intros Hobj Hval Hne.
  destruct (le_agentes_total _ s Hval) as [todos Htodos].
  pose proof (candidatos_le_agentes _ _ _ Htodos) as Hcand.
  destruct (le_agentes_objetos _ _ _ _ Htodos) as [_ Hobjs].
  destruct (List.filter e_disponivel todos) as [| p l] eqn:Hfil;
    [by rewrite <- Hcand in Hne |].
  destruct (max_key_from_primeiro
              (pontuacao_agente (List.filter (e_especializado (prioridade t)) (p :: l)))
              p l) as (pre & pos & Heq & Hpre & Hpos).
  remember (max_key_from
              (pontuacao_agente (List.filter (e_especializado (prioridade t)) (p :: l)))
              p l) as sel eqn:Hmax.
  assert (sel ∈ p :: l) as Hin
    by (rewrite Heq; apply elem_of_app; right; by left).
  assert (obj_agentes (memoria s) !! sel.1 = Some sel.2) as Hsel.
  { apply Hobjs. rewrite <- Hfil in Hin.
    by apply list_elem_of_In, filter_In, proj1, list_elem_of_In in Hin. }
  cut (wp nunca (designar_ticket lt)
         (λ r s', r = Some sel.1
            ∧ ∃ t' a',
                obj_tickets (memoria s') !! lt = Some t'
                ∧ agente_designado t' = Some sel.1
                ∧ status t' = DESIGNADO
                ∧ obj_agentes (memoria s') !! sel.1 = Some a'
                ∧ carga_trabalho a' = carga_trabalho sel.2 + 1) s).
  { intros (r & s' & Hrun & -> & t' & a' & Ht' & Hag & Hst & Ha' & Hcarga)%wp_nunca.
    exists sel.1, sel.2, pre, pos, s', t', a'.
    split; [done |]. split; [by rewrite <- Hcand, Heq, <- surjective_pairing |].
    split; [done |]. split.
    { intros c Hc. specialize (Hpre c Hc).
      rewrite !pontuacao_agente_spec in Hpre; [done | done |].
      rewrite Heq. apply elem_of_app. by left. }
    split; [| done].
    intros c Hc. specialize (Hpos c Hc).
    rewrite !pontuacao_agente_spec in Hpos; [done | done |].
    rewrite Heq. apply elem_of_app. right. by right. }
  clear Heq Hpre Hpos Hin Hcand.
  unfold designar_ticket.
  wp_passo. wp_passo. wp_passo. apply wp_le_agentes. rewrite Htodos.
  wp_passo. wp_passo. wp_passo.
  rewrite <- Hmax.
  wp_exec; campos_simpl.
  all: split; [reflexivity |]; estado_simpl; rewrite !lookup_insert_eq;
    eexists _, _; (split; [reflexivity |]); campos_simpl; done.
Qed.

Lemma designar_ticket_seleciona_witness :
  ∃ s' t' a',
    @designar_ticket unicode_ascii 0%nat estado_joao_maria = Ok (Some 1%nat) s'
    ∧ obj_tickets (memoria s') !! 0%nat = Some t'
    ∧ agente_designado t' = Some 1%nat
    ∧ status t' = DESIGNADO
    ∧ obj_agentes (memoria s') !! 1%nat = Some a'
    ∧ carga_trabalho a' = 1.
Proof.
  edestruct (@designar_ticket_seleciona unicode_ascii estado_joao_maria 0%nat)
    as (la & a & pre & pos & s' & t' & a' & Hrun & _ & Ha & _ & _
        & Ht' & Hag & Hst & Ha' & Hcarga);
    [vm_compute; reflexivity | | vm_compute; discriminate |].
  { intros l Hl. vm_compute in Hl.
    apply elem_of_cons in Hl as [-> | Hl]; [vm_compute; eauto |].
    apply elem_of_cons in Hl as [-> | Hl]; [vm_compute; eauto |].
    by apply elem_of_nil in Hl. }
  assert (la = 1%nat) as ->.
  { pose proof Hrun as Hrun'. vm_compute in Hrun'. congruence. }
  vm_compute in Ha. injection Ha as <-.
  exists s', t', a'.
  split; [exact Hrun |]. split; [exact Ht' |]. split; [exact Hag |].
  split; [exact Hst |]. split; [exact Ha' | exact Hcarga].
Defined.

(** Ties go to the agent that comes first in the registry. *)
Lemma designar_ticket_empate :
  ∃ s', @designar_ticket unicode_ascii 0%nat estado_joao_pedro = Ok (Some 0%nat) s'.
Proof.
  eexists. vm_compute. reflexivity.
Qed.

(** X16.  A first response time that is not zero is kept by every later
    assignment. *)
Lemma primeira_resposta_mantida `{Unicode} lt s r s' t d :
  designar_ticket lt s = Ok r s' →
  obj_tickets (memoria s) !! lt = Some t →
  tempo_primeira_resposta t = Some d →
  d ≠ 0 →
  ∃ t',
    obj_tickets (memoria s') !! lt = Some t'
    ∧ tempo_primeira_resposta t' = Some d.
Proof.
  intros Hrun Hobj Htpr Hd.
  pose proof (wp_ok _ _ _ _ _ _ (wp_designar_ticket lt s) Hrun) as (_ & _ & _ & Hr).
  destruct r as [la |].
  - destruct Hr as (a & t0 & t' & _ & Hobj0 & _ & -> & _ & _ & _ & _ & Hpr).
    simplify_eq. exists t'. split; [apply lookup_insert_eq |].
    rewrite Hpr, Htpr. cbn. by rewrite (proj2 (Z.eqb_neq d 0) Hd).
  - subst s'. by exists t.
Qed.

(** ** Tickets without agent along a run *)

Ltac sem_agente_fim lt :=
  let Hinv := fresh "Hinv" in
  let lx := fresh "lx" in
  let tx := fresh "tx" in
  let Hlx := fresh "Hlx" in
  let Hnone := fresh "Hnone" in
  let Hne := fresh "Hne" in
  unfold sem_agente_sem_resolucao; intros Hinv lx tx Hlx Hnone; revert Hlx;
  estado_simpl;
  destruct (decide (lx = lt)) as [-> | Hne];
  [ rewrite ?lookup_insert_eq | rewrite ?lookup_insert_ne by done ];
  intros Hlx; simplify_eq; campos_simpl; try done; eauto.

Lemma sem_agente_passo `{Unicode} c s r s' :
  executa c s = Ok r s' →
  sem_agente_sem_resolucao s → sem_agente_sem_resolucao s'.
Proof.
  intros Hrun. eapply (wp_ok qualquer _ (λ _ s', _ → sem_agente_sem_resolucao s'));
    [| exact Hrun].
  clear Hrun. destruct c; unfold executa.
  - wp_exec. done.
  - unfold adicionar_especializacao. wp_exec. done.
  - unfold adicionar_agente. wp_exec. done.
  - unfold registrar_cliente. wp_exec. done.
  - unfold criar_ticket. wp_exec.
    eapply wp_mono; [apply wp_designar_ticket |].
    intros r0 s0 (_ & _ & _ & Hr). wp_exec.
    revert Hr. estado_simpl. rewrite !insert_insert_eq. intros Hr Hinv.
    unfold sem_agente_sem_resolucao in *.
    assert (obj_tickets (memoria s) !! l = None) as Hfresh.
    { apply not_elem_of_dom. apply is_fresh. }
    destruct r0 as [la |].
    + destruct Hr as (a & t & t' & _ & _ & _ & -> & Hag & _).
      rewrite insert_insert_eq. intros l0 t0 Hl0 Hnone.
      destruct (decide (l0 = l)) as [-> | Hne].
      * rewrite lookup_insert_eq in Hl0. congruence.
      * rewrite lookup_insert_ne in Hl0 by done. eauto.
    + subst s0. intros l0 t0. estado_simpl. intros Hl0 Hnone.
      destruct (decide (l0 = l)) as [-> | Hne].
      * rewrite lookup_insert_eq in Hl0. by simplify_eq.
      * rewrite lookup_insert_ne in Hl0 by done. eauto.
  - wp_passo. eapply wp_mono; [apply wp_designar_ticket |].
    intros r0 s0 (_ & _ & _ & Hr). wp_exec. intros Hinv.
    unfold sem_agente_sem_resolucao in *.
    destruct r0 as [la |]; [| by subst s0].
    destruct Hr as (a & t & t' & _ & _ & _ & -> & Hag & _).
    intros l0 t0 Hl0 Hnone.
    destruct (decide (l0 = lt)) as [-> | Hne].
    + rewrite lookup_insert_eq in Hl0. congruence.
    + rewrite lookup_insert_ne in Hl0 by done. eauto.
  - unfold processar_mensagem. wp_exec; try exact I; try done.
    all: match goal with
         | Ht : obj_tickets _ !! ?lt = Some _ |- _ => sem_agente_fim lt
         end.
  - unfold atualizar_status_ticket. wp_exec; try exact I; try done.
    all: match goal with
         | Ht : obj_tickets _ !! ?lt = Some _ |- _ => sem_agente_fim lt
         end.
    all: congruence.
  - unfold avaliar_satisfacao. wp_exec; try exact I; try done.
    all: match goal with
         | Ht : obj_tickets _ !! ?lt = Some _ |- _ => sem_agente_fim lt
         end.
  - wp_passo. apply wp_gerar_relatorio_desempenho.
    destruct (gerar_relatorio_desempenho s); [| done]. wp_exec. done.
Qed.

Lemma sem_agente_execucao `{Unicode} cs s evs s' :
  executa_todas cs s = Ok evs s' →
  sem_agente_sem_resolucao s → sem_agente_sem_resolucao s'.
Proof.
  revert s evs. induction cs as [| c cs IH]; intros s evs Hrun Hinv.
  - by inversion Hrun; subst.
  - apply executa_todas_cons in Hrun as (r & s1 & evs1 & Hc & Hcs & _).
    eapply IH; [exact Hcs |]. by eapply sem_agente_passo.
Qed.

(** X17.  In every state that a run reaches from the empty system, a ticket
    without an agent has no resolution time. *)
Lemma sem_agente_alcancavel `{Unicode} amb cs evs s :
  executa_todas cs (estado_inicial amb) = Ok evs s →
  sem_agente_sem_resolucao s.
Proof.
  intros Hrun. eapply sem_agente_execucao; [exact Hrun |].
  intros l t Hl. cbn in Hl. by rewrite lookup_empty in Hl.
Qed.

(** * Further properties of the methods *)

Lemma wp_nunca_igual {A : Type} (m : M A) s a0 s0 :
  wp nunca m (λ a s', a = a0 ∧ s' = s0) s → m s = Ok a0 s0.
Proof.
  intros (a & s' & Hrun & -> & ->)%wp_nunca. exact Hrun.
Qed.

(** ** Refusals that leave the state alone *)

(** X1.  A message from a sender that is neither the client of the ticket
    nor its agent is refused with the one-element list
    [["Remetente não autorizado."]]; nothing is appended and the whole state,
    clock readings included, stays as it was. *)
Theorem remetente_nao_autorizado_sinal `{Unicode} s tid rid cont lt t :
  dict_get (tickets (sistema s)) tid = Some lt →
  obj_tickets (memoria s) !! lt = Some t →
  nao_autorizado s t rid →
  processar_mensagem tid rid cont s = Ok [remetente_nao_autorizado] s.
Proof.
  intros Hreg Hobj (c & Hc & Hne & Hag).
  apply wp_nunca_igual. unfold processar_mensagem.
  destruct (agente_designado t) as [la |] eqn:Hla.
  - destruct Hag as (a & Ha & Hnea). wp_exec; try done; congruence.
  - wp_exec; try done; congruence.
Qed.

Lemma remetente_nao_autorizado_sinal_witness :
  @processar_mensagem unicode_ascii "u1" "u99" "erro urgente"
    (estado_aberto ambiente_exemplo)
  = Ok [remetente_nao_autorizado] (estado_aberto ambiente_exemplo).
Proof.
  eapply (@remetente_nao_autorizado_sinal unicode_ascii
            (estado_aberto ambiente_exemplo) "u1" "u99" "erro urgente" 0%nat);
    [vm_compute; reflexivity | vm_compute; reflexivity |].
  eexists. split; [vm_compute; reflexivity |]. split; [discriminate |].
  cbn. eexists. split; [vm_compute; reflexivity | discriminate].
Defined.

(** X2.  [avaliar_satisfacao] returns [False] and changes nothing when the
    note is outside 1..5, whether or not the ticket exists, and when the id
    is not registered; with a note in 1..5 on a registered ticket it never
    returns [False]. *)
Theorem avaliar_satisfacao_recusa s tid nota comentario :
  (nota < 1 ∨ 5 < nota ∨ dict_get (tickets (sistema s)) tid = None) →
  avaliar_satisfacao tid nota comentario s = Ok false s
  ∧ ∀ s0 tid0 nota0 com0 b s0',
      1 ≤ nota0 ≤ 5 →
      is_Some (dict_get (tickets (sistema s0)) tid0) →
      avaliar_satisfacao tid0 nota0 com0 s0 = Ok b s0' →
      b = true.
Proof.
  intros Hbad. split.
  - unfold avaliar_satisfacao.
    destruct ((1 <=? nota) && (nota <=? 5)) eqn:Hrange; cbn [negb]; [| done].
    destruct Hbad as [Hlo | [Hhi | Hnone]]; [lia | lia |].
    unfold mbind, M_bind, le_sistema. by rewrite Hnone.
  - intros s0 tid0 nota0 com0 b s0' Hrange [lt Hlt] Hrun.
    eapply (wp_ok qualquer _ (λ b _, b = true)); [| exact Hrun].
    unfold avaliar_satisfacao.
    replace ((1 <=? nota0) && (nota0 <=? 5)) with true by lia. cbn [negb].
    wp_exec; try exact I; done.
Qed.

Lemma avaliar_satisfacao_recusa_witness :
  avaliar_satisfacao "u1" 6 (Some "ótimo") (estado_aberto ambiente_exemplo)
  = Ok false (estado_aberto ambiente_exemplo).
Proof.
  apply (avaliar_satisfacao_recusa (estado_aberto ambiente_exemplo) "u1" 6
           (Some "ótimo")).
  right. left. done.
Defined.

(** X3.  With a note in 1..5 on a registered ticket, [avaliar_satisfacao]
    returns [True] and stores the note, replacing a note given before; a
    system message is appended only for a comment that is not empty; the
    status, the agent, the times of the ticket, the registries and every
    agent object stay as they were. *)
Theorem avaliar_satisfacao_registra s tid nota comentario lt t :
  1 ≤ nota ≤ 5 →
  dict_get (tickets (sistema s)) tid = Some lt →
  obj_tickets (memoria s) !! lt = Some t →
  ∃ s' t',
    avaliar_satisfacao tid nota comentario s = Ok true s'
    ∧ obj_tickets (memoria s') !! lt = Some t'
    ∧ satisfacao_cliente t' = Some nota
    ∧ mensagens t'
      = mensagens t
        ++ (if truthy_str comentario
            then [mensagem_sistema_em s
                    ("Avaliação do cliente: " +:+ str_nota nota +:+ "/5 - "
                       +:+ default EmptyString comentario)]
            else [])
    ∧ status t' = status t
    ∧ agente_designado t' = agente_designado t
    ∧ tempo_resolucao t' = tempo_resolucao t
    ∧ tempo_primeira_resposta t' = tempo_primeira_resposta t
    ∧ sistema s' = sistema s
    ∧ obj_agentes (memoria s') = obj_agentes (memoria s).
Proof.
  intros Hrange Hreg Hobj.
  cut (wp nunca (avaliar_satisfacao tid nota comentario)
         (λ b s', b = true ∧ ∃ t',
            obj_tickets (memoria s') !! lt = Some t'
            ∧ satisfacao_cliente t' = Some nota
            ∧ mensagens t'
              = mensagens t
                ++ (if truthy_str comentario
                    then [mensagem_sistema_em s
                            ("Avaliação do cliente: " +:+ str_nota nota +:+ "/5 - "
                               +:+ default EmptyString comentario)]
                    else [])
            ∧ status t' = status t
            ∧ agente_designado t' = agente_designado t
            ∧ tempo_resolucao t' = tempo_resolucao t
            ∧ tempo_primeira_resposta t' = tempo_primeira_resposta t
            ∧ sistema s' = sistema s
            ∧ obj_agentes (memoria s') = obj_agentes (memoria s)) s).
  { intros (b & s' & Hrun & -> & t' & Hrest)%wp_nunca. by exists s', t'. }
  unfold avaliar_satisfacao.
  replace ((1 <=? nota) && (nota <=? 5)) with true by lia. cbn [negb].
  wp_exec; campos_simpl.
  all: split; [done |]; estado_simpl; rewrite lookup_insert_eq;
    eexists; split; [done |]; campos_simpl.
  all: match goal with Hc : truthy_str _ = _ |- _ => rewrite ?Hc end.
  all: rewrite ?app_nil_r; by repeat split.
Qed.

Lemma avaliar_satisfacao_registra_witness :
  ∃ s' t',
    avaliar_satisfacao "u1" 3 (Some "") (estado_aberto ambiente_exemplo) = Ok true s'
    ∧ obj_tickets (memoria s') !! 0%nat = Some t'
    ∧ satisfacao_cliente t' = Some 3
    ∧ length (mensagens t') = 2%nat.
Proof.
  edestruct (avaliar_satisfacao_registra (estado_aberto ambiente_exemplo) "u1" 3
               (Some "") 0%nat)
    as (s' & t' & Hrun & Hobj & Hsat & Hmsgs & _);
    [lia | vm_compute; reflexivity | vm_compute; reflexivity |].
  exists s', t'. split; [exact Hrun |]. split; [exact Hobj |].
  split; [exact Hsat |]. rewrite Hmsgs. reflexivity.
Defined.

(** X4.  [atualizar_status_ticket] returns [False] exactly when the id is not
    registered, and then changes nothing: no status is written, no message
    is created and the clock is not read. *)
Theorem atualizar_status_ausente s tid novo_status comentario :
  dict_get (tickets (sistema s)) tid = None →
  atualizar_status_ticket tid novo_status comentario s = Ok false s
  ∧ ∀ s0 tid0 st0 com0 b s0',
      is_Some (dict_get (tickets (sistema s0)) tid0) →
      atualizar_status_ticket tid0 st0 com0 s0 = Ok b s0' →
      b = true.
Proof.
  intros Hnone. split.
  - unfold atualizar_status_ticket, mbind, M_bind, le_sistema. by rewrite Hnone.
  - intros s0 tid0 st0 com0 b s0' [lt Hlt] Hrun.
    eapply (wp_ok qualquer _ (λ b _, b = true)); [| exact Hrun].
    unfold atualizar_status_ticket. wp_exec; try exact I; done.
Qed.

Lemma atualizar_status_ausente_witness :
  atualizar_status_ticket "u99" RESOLVIDO (Some "fim") (estado_aberto ambiente_exemplo)
  = Ok false (estado_aberto ambiente_exemplo).
Proof.
  apply (atualizar_status_ausente (estado_aberto ambiente_exemplo) "u99" RESOLVIDO
           (Some "fim")).
  vm_compute. reflexivity.
Defined.

(** X5.  A status other than [RESOLVIDO] is written without bookkeeping: the
    call returns [True], the ticket gets the status and, for a comment that
    is not empty, one system message; the agent of the ticket, its
    resolution and first response times and every agent object stay as they
    were.  Setting [FECHADO] or [ABERTO] on an assigned ticket does not give
    the agent its slot back. *)
Theorem atualizar_status_sem_resolver s tid novo_status comentario lt t :
  novo_status ≠ RESOLVIDO →
  dict_get (tickets (sistema s)) tid = Some lt →
  obj_tickets (memoria s) !! lt = Some t →
  ∃ s' t',
    atualizar_status_ticket tid novo_status comentario s = Ok true s'
    ∧ obj_tickets (memoria s') !! lt = Some t'
    ∧ status t' = novo_status
    ∧ mensagens t'
      = mensagens t
        ++ (if truthy_str comentario
            then [mensagem_sistema_em s
                    ("Status atualizado para " +:+ status_value novo_status
                       +:+ ": " +:+ default EmptyString comentario)]
            else [])
    ∧ agente_designado t' = agente_designado t
    ∧ tempo_resolucao t' = tempo_resolucao t
    ∧ tempo_primeira_resposta t' = tempo_primeira_resposta t
    ∧ sistema s' = sistema s
    ∧ obj_agentes (memoria s') = obj_agentes (memoria s).
Proof.
  intros Hst Hreg Hobj.
  cut (wp nunca (atualizar_status_ticket tid novo_status comentario)
         (λ b s', b = true ∧ ∃ t',
            obj_tickets (memoria s') !! lt = Some t'
            ∧ status t' = novo_status
            ∧ mensagens t'
              = mensagens t
                ++ (if truthy_str comentario
                    then [mensagem_sistema_em s
                            ("Status atualizado para " +:+ status_value novo_status
                               +:+ ": " +:+ default EmptyString comentario)]
                    else [])
            ∧ agente_designado t' = agente_designado t
            ∧ tempo_resolucao t' = tempo_resolucao t
            ∧ tempo_primeira_resposta t' = tempo_primeira_resposta t
            ∧ sistema s' = sistema s
            ∧ obj_agentes (memoria s') = obj_agentes (memoria s)) s).
  { intros (b & s' & Hrun & -> & t' & Hrest)%wp_nunca. by exists s', t'. }
  unfold atualizar_status_ticket.
  wp_exec; campos_simpl; try congruence.
  all: split; [done |]; estado_simpl; rewrite lookup_insert_eq;
    eexists; split; [done |]; campos_simpl.
  all: rewrite ?app_nil_r; by repeat split.
Qed.

Lemma atualizar_status_sem_resolver_witness :
  ∃ s' t' a,
    atualizar_status_ticket "u1" FECHADO None (estado_aberto ambiente_exemplo)
      = Ok true s'
    ∧ obj_tickets (memoria s') !! 0%nat = Some t'
    ∧ status t' = FECHADO
    ∧ agente_designado t' = Some 0%nat
    ∧ obj_agentes (memoria s') !! 0%nat = Some a
    ∧ carga_trabalho a = 1.
Proof.
  edestruct (atualizar_status_sem_resolver (estado_aberto ambiente_exemplo) "u1"
               FECHADO None 0%nat)
    as (s' & t' & Hrun & Hobj & Hst & _ & Hag & _ & _ & _ & Hags);
    [discriminate | vm_compute; reflexivity | vm_compute; reflexivity |].
  eexists s', t', _. split; [exact Hrun |]. split; [exact Hobj |].
  split; [exact Hst |]. split; [exact Hag |].
  rewrite Hags. split; [vm_compute; reflexivity | reflexivity].
Defined.

(** ** Assignment at the edges *)

(** X6.  When no registered agent is available with fewer than five tickets,
    [designar_ticket] returns [None] and changes nothing: the ticket keeps
    its status and its agent, no message is added and the clock is not read.
    The ticket is not even looked at. *)
Theorem designar_ticket_sem_candidatos `{Unicode} s lt :
  agentes_validos s →
  candidatos s = [] →
  designar_ticket lt s = Ok None s.
Proof.
  intros Hval Hcand.
  destruct (le_agentes_total _ s Hval) as [todos Htodos].
  pose proof (candidatos_le_agentes _ _ _ Htodos) as Hfil.
  rewrite Hcand in Hfil.
  apply wp_nunca_igual. unfold designar_ticket.
  wp_passo. wp_passo. wp_passo. apply wp_le_agentes. rewrite Htodos.
  rewrite Hfil. by wp_passo.
Qed.

Lemma designar_ticket_sem_candidatos_witness :
  @designar_ticket unicode_ascii 0%nat estado_sem_agentes = Ok None estado_sem_agentes.
Proof.
  apply (@designar_ticket_sem_candidatos unicode_ascii estado_sem_agentes 0%nat).
  - intros l Hl. vm_compute in Hl. by apply elem_of_nil in Hl.
  - vm_compute. reflexivity.
Defined.

(** X7.  An agent that [designar_ticket] returns was registered, available
    and had fewer than five tickets when the call started; after the call it
    has one more, hence at most five. *)
Theorem designar_ticket_respeita_limite `{Unicode} s lt la s' :
  designar_ticket lt s = Ok (Some la) s' →
  ∃ a a',
    la ∈ dict_values (agentes (sistema s))
    ∧ obj_agentes (memoria s) !! la = Some a
    ∧ disponivel a = true
    ∧ carga_trabalho a < 5
    ∧ obj_agentes (memoria s') !! la = Some a'
    ∧ carga_trabalho a' = carga_trabalho a + 1
    ∧ carga_trabalho a' ≤ 5.
Proof.
  intros Hrun.
  cut (wp qualquer (designar_ticket lt)
         (λ r s', ∀ la, r = Some la →
            ∃ a a',
              la ∈ dict_values (agentes (sistema s))
              ∧ obj_agentes (memoria s) !! la = Some a
              ∧ e_disponivel (la, a) = true
              ∧ obj_agentes (memoria s') !! la = Some a'
              ∧ carga_trabalho a' = carga_trabalho a + 1) s).
  { intros Hwp.
    destruct (wp_ok _ _ _ _ _ _ Hwp Hrun la eq_refl)
      as (a & a' & Hin & Ha & Hdisp & Ha' & Hcarga).
    unfold e_disponivel in Hdisp. cbn [snd] in Hdisp.
    apply andb_true_iff in Hdisp as [Hd Hc]. apply Z.ltb_lt in Hc.
    exists a, a'. repeat split; try done. lia. }
  clear Hrun. unfold designar_ticket.
  wp_passo. wp_passo. wp_passo. apply wp_le_agentes.
  destruct (le_agentes _ s) as [todos s1 |] eqn:Htodos; [| done].
  destruct (le_agentes_objetos _ _ _ _ Htodos) as [Hfst Hobjs].
  wp_passo; [by wp_passo |].
  wp_passo. wp_passo.
  match goal with
  | |- context [max_key_from ?k ?p ?l] =>
      destruct (max_key_from_primeiro k p l) as (pre & pos & Heq & _ & _);
      remember (max_key_from k p l) as sel eqn:Hsel
  end.
  assert (sel ∈ List.filter e_disponivel todos) as Hin
    by (rewrite Heql, Heq; apply elem_of_app; right; by left).
  apply list_elem_of_In, filter_In in Hin as [Hin Hdisp].
  apply list_elem_of_In in Hin.
  pose proof (Hobjs _ Hin) as Hlook.
  assert (sel.1 ∈ dict_values (agentes (sistema s))) as Hreg
    by (rewrite <- Hfst; apply list_elem_of_fmap; by exists sel).
  clear Hsel Heq Heql.
  wp_exec; campos_simpl.
  all: intros la0 [= <-]; exists sel.2; eexists;
    (split; [exact Hreg |]); (split; [exact Hlook |]);
    (split; [by rewrite <- surjective_pairing |]);
    estado_simpl; rewrite lookup_insert_eq; split; [reflexivity |];
    campos_simpl; done.
Qed.

Lemma designar_ticket_respeita_limite_witness :
  ∃ a a',
    obj_agentes (memoria estado_resposta_imediata) !! 0%nat = Some a
    ∧ carga_trabalho a < 5
    ∧ carga_trabalho a' = carga_trabalho a + 1
    ∧ carga_trabalho a' ≤ 5.
Proof.
  edestruct (@designar_ticket_respeita_limite unicode_ascii
               estado_resposta_imediata 0%nat 0%nat)
    as (a & a' & _ & Ha & _ & Hlt & _ & Hcarga & Hle);
    [vm_compute; reflexivity |].
  exists a, a'. split; [exact Ha |]. split; [exact Hlt |].
  split; [exact Hcarga | exact Hle].
Defined.

(** ** Classification of text *)

(** X8.  The keyword table lists the priorities from the highest to the
    lowest, so [from_keywords] returns the highest priority among the
    keywords that occur in the lowered text: no keyword that occurs has a
    higher priority than the result, and a result other than [BAIXA] is the
    priority of a keyword that occurs. *)
Theorem from_keywords_maior `{Unicode} texto :
  (∀ kw p, (kw, p) ∈ keywords → str_in kw (str_lower texto) = true →
           prioridade_value p ≤ prioridade_value (from_keywords texto))
  ∧ (from_keywords texto = BAIXA
     ∨ ∃ kw, (kw, from_keywords texto) ∈ keywords
             ∧ str_in kw (str_lower texto) = true).
Proof.
  unfold from_keywords, keywords. cbn [from_keywords_loop].
  repeat match goal with
         | |- context [if str_in ?k ?x then _ else _] =>
             destruct (str_in k x) eqn:?
         end.
  all: split;
    [ intros kw p Hin Hm;
      repeat (apply elem_of_cons in Hin as [[= -> ->] | Hin];
              [first [ cbn; lia | congruence ] |]);
      by apply elem_of_nil in Hin
    | first [ by left
            | right; eexists; split; [| eassumption];
              repeat first [ by left | right ] ] ].
Qed.

(** X9.  The urgency flag and the priority come from two different keyword
    lists: [imediato] raises the flag but is not in the priority table.  A
    message whose lowered text contains [imediato] and no keyword of the
    priority table is urgent and its priority reads [BAIXA]; accepted on a
    ticket, it leaves the ticket with the priority [BAIXA], whatever the
    priority was. *)
Theorem mensagem_imediata_rebaixa `{Unicode} s tid rid rnome cont lt t :
  dict_get (tickets (sistema s)) tid = Some lt →
  obj_tickets (memoria s) !! lt = Some t →
  autorizado s t rid rnome →
  str_in "imediato" (str_lower cont) = true →
  sem_keywords cont →
  ∃ r s' t',
    processar_mensagem tid rid cont s = Ok r s'
    ∧ obj_tickets (memoria s') !! lt = Some t'
    ∧ e_urgencia cont = true
    ∧ prioridade t' = BAIXA.
Proof.
  intros Hreg Hobj Haut Him Hsem.
  assert (e_urgencia cont = true) as Hurg.
  { unfold e_urgencia, classificar_mensagem. cbn.
    rewrite Him. by rewrite !orb_true_r. }
  assert (extrair_prioridade cont = BAIXA) as Hprio.
  { unfold extrair_prioridade, from_keywords, keywords. cbn [from_keywords_loop].
    rewrite !Hsem; [done | ..]; unfold keywords;
      repeat first [ by left | right ]. }
  destruct (wp_nunca _ _ _ (wp_processar_mensagem s tid rid rnome cont lt t
                              Hreg Hobj Haut))
    as (r & s' & Hrun & t' & Hobj' & _ & _ & Hp & _).
  exists r, s', t'. split; [exact Hrun |]. split; [exact Hobj' |].
  split; [exact Hurg |]. by rewrite Hp, Hurg.
Qed.

Lemma mensagem_imediata_rebaixa_witness :
  ∃ t r s' t',
    obj_tickets (memoria (estado_aberto ambiente_exemplo)) !! 0%nat = Some t
    ∧ prioridade t = CRITICA
    ∧ @processar_mensagem unicode_ascii "u1" "u0" "preciso disso imediato"
        (estado_aberto ambiente_exemplo) = Ok r s'
    ∧ obj_tickets (memoria s') !! 0%nat = Some t'
    ∧ prioridade t' = BAIXA.
Proof.
  edestruct (@mensagem_imediata_rebaixa unicode_ascii
               (estado_aberto ambiente_exemplo) "u1" "u0" "Ana"
               "preciso disso imediato" 0%nat)
    as (r & s' & t' & Hrun & Hobj & _ & Hprio);
    [vm_compute; reflexivity | vm_compute; reflexivity | | vm_compute; reflexivity
     | |].
  { eexists. split; [vm_compute; reflexivity |]. left. split; reflexivity. }
  { intros kw p Hin. unfold keywords in Hin.
    repeat (apply elem_of_cons in Hin as [[= -> ->] | Hin];
            [vm_compute; reflexivity |]).
    by apply elem_of_nil in Hin. }
  eexists _, r, s', t'. split; [vm_compute; reflexivity |].
  split; [reflexivity |]. split; [exact Hrun |]. split; [exact Hobj | exact Hprio].
Defined.

(** ** Canned responses *)

Lemma nth_mod_elem (l : list string) (k : nat) :
  l ≠ [] → nth (k mod length l)%nat l EmptyString ∈ l.
Proof.
  intros Hne. apply list_elem_of_In, nth_In.
  apply Nat.mod_upper_bound. by destruct l.
Qed.

(** X10.  [get_resposta] always returns: for a known type one of the
    responses of that type, for any other type the fallback
    ["Desculpe, não entendi."]; it reads the random source once and changes
    nothing else. *)
Theorem get_resposta_da_lista tipo s :
  ∃ r,
    get_resposta tipo s = Ok r (com_leituras (S (leituras s)) s)
    ∧ match dict_get respostas_padrao tipo with
      | Some respostas => r ∈ respostas
      | None => r = "Desculpe, não entendi."
      end.
Proof.
  unfold get_resposta, random_choice. eexists. split; [reflexivity |].
  unfold respostas_padrao. cbn [dict_get].
  repeat match goal with
         | |- context [decide (?a = tipo)] => destruct (decide (a = tipo))
         end; cbn [default].
  1-3: by apply nth_mod_elem.
  cbn [length]. by rewrite Nat.mod_1_r.
Qed.

(** ** The report, once more *)

Lemma le_tickets_objetos ls s :
  (∀ l, l ∈ ls → is_Some (obj_tickets (memoria s) !! l)) →
  le_tickets ls s = Ok (omap (λ l, obj_tickets (memoria s) !! l) ls) s
  ∧ length (omap (λ l, obj_tickets (memoria s) !! l) ls) = length ls.
Proof.
  induction ls as [| l ls IH]; intros Hval; [done |].
  destruct (Hval l) as [t Ht]; [by left |].
  destruct IH as [Hls Hlen]; [intros; apply Hval; by right |].
  cbn [le_tickets omap list_omap]. unfold mbind, M_bind, le_ticket.
  fold (omap (λ l, obj_tickets (memoria s) !! l) ls).
  rewrite Ht, Hls. cbn. by rewrite Hlen.
Qed.

Lemma soma_tempo_resolucao_fold ts acc :
  (∀ t, t ∈ ts → status t ≠ RESOLVIDO → truthy (tempo_resolucao t) = false) →
  fold_left
    (λ acc t, if truthy (tempo_resolucao t)
              then acc + default 0 (tempo_resolucao t) else acc) ts acc
  = acc + soma (map (λ t, default 0 (tempo_resolucao t))
                  (List.filter (λ t, bool_decide (status t = RESOLVIDO)) ts)).
Proof.
  revert acc. induction ts as [| t ts IH]; intros acc Hcons.
  - cbn. lia.
  - cbn [fold_left List.filter]. rewrite IH by (intros; apply Hcons; [by right | done]).
    destruct (bool_decide (status t = RESOLVIDO)) eqn:Hst.
    + cbn [map]. 
      set (resto := map _ (List.filter _ ts)).
      replace (soma (default 0 (tempo_resolucao t) :: resto))
        with (default 0 (tempo_resolucao t) + soma resto) by done.
      destruct (tempo_resolucao t) as [d |]; cbn.
      * destruct (d =? 0) eqn:Hd; cbn; [apply Z.eqb_eq in Hd |]; lia.
      * lia.
    + apply bool_decide_eq_false in Hst.
      rewrite (Hcons t); [done | by left | done].
Qed.

Lemma tickets_validos_decide s :
  bool_decide (Forall (λ l, is_Some (obj_tickets (memoria s) !! l))
                 (dict_values (tickets (sistema s)))) = true →
  tickets_validos s.
Proof.
  intros Hd%bool_decide_eq_true. intros l Hl.
  by apply (proj1 (Forall_forall _ _) Hd).
Qed.

Lemma sem_tempo_fora_decide (ts : list Ticket) :
  forallb (λ t, bool_decide (status t = RESOLVIDO)
                || negb (truthy (tempo_resolucao t))) ts = true →
  ∀ t, t ∈ ts → status t ≠ RESOLVIDO → truthy (tempo_resolucao t) = false.
Proof.
  intros Hall t Ht Hst. apply list_elem_of_In in Ht.
  apply (proj1 (forallb_forall _ _) Hall), orb_true_iff in Ht as [Hr | Hf].
  - by apply bool_decide_eq_true in Hr.
  - by apply negb_true_iff in Hf.
Qed.

(** ** The global history *)

Lemma deque_append_length {A : Type} (n : nat) (d : list A) (x : A) :
  length (deque_append n d x) = (n `min` S (length d))%nat.
Proof.
  unfold deque_append. rewrite length_drop, length_app. cbn [length]. lia.
Qed.

Lemma deque_append_Forall {A : Type} (P : A → Prop) (n : nat) (d : list A) (x : A) :
  Forall P d → P x → Forall P (deque_append n d x).
Proof.
  intros Hd Hx. unfold deque_append. apply Forall_drop, Forall_app. by split; [| constructor].
Qed.

Lemma historico_limitado_passo `{Unicode} c s r s' :
  executa c s = Ok r s' →
  historico_limitado s → historico_limitado s'.
Proof.
  intros Hrun. eapply (wp_ok qualquer _ (λ _ s', _ → historico_limitado s'));
    [| exact Hrun].
  clear Hrun. destruct c; unfold executa.
  - wp_exec. done.
  - unfold adicionar_especializacao. wp_exec. done.
  - unfold adicionar_agente. wp_exec. done.
  - unfold registrar_cliente. wp_exec. done.
  - unfold criar_ticket. wp_exec.
    eapply wp_mono; [apply wp_designar_ticket |].
    intros r0 s0 (Hsis & _). wp_exec. unfold historico_limitado. by rewrite Hsis.
  - wp_passo. eapply wp_mono; [apply wp_designar_ticket |].
    intros r0 s0 (Hsis & _). wp_exec. unfold historico_limitado. by rewrite Hsis.
  - unfold processar_mensagem. wp_exec; try exact I; try done.
    all: unfold historico_limitado; estado_simpl; intros [Hlen Hall];
      (split; [rewrite deque_append_length; lia
              | by apply deque_append_Forall]).
  - unfold atualizar_status_ticket. wp_exec; try exact I; done.
  - unfold avaliar_satisfacao. wp_exec; try exact I; done.
  - wp_passo. apply wp_gerar_relatorio_desempenho.
    destruct (gerar_relatorio_desempenho s); [| done]. wp_exec. done.
Qed.

Lemma ultimos_todos {A : Type} (n : nat) (l : list A) :
  (length l ≤ n)%nat → ultimos n l = l.
Proof.
  intros Hlen. unfold ultimos. by replace (length l - n)%nat with 0%nat by lia.
Qed.

Lemma ultimos_app {A : Type} (n : nat) (l r : list A) :
  ultimos n (ultimos n l ++ r) = ultimos n (l ++ r).
Proof.
  unfold ultimos. rewrite !length_app, length_drop.
  destruct (decide (length l ≤ n)%nat) as [Hle | Hgt].
  - replace (length l - n)%nat with 0%nat by lia.
    rewrite drop_0. f_equal. lia.
  - replace (length l - (length l - n) + length r - n)%nat with (length r) by lia.
    replace (length l + length r - n)%nat
      with ((length l - n) + length r)%nat by lia.
    rewrite <- drop_drop. f_equal.
    rewrite drop_app_le by lia. done.
Qed.

Lemma deque_append_ultimos {A : Type} (n : nat) (d : list A) (x : A) :
  deque_append n d x = ultimos n (d ++ [x]).
Proof. done. Qed.

Lemma historico_passo `{Unicode} c s r s' :
  executa c s = Ok r s' →
  historico_global (sistema s')
  = match mensagem_aceita c s with
    | Some m => deque_append 1000 (historico_global (sistema s)) m
    | None => historico_global (sistema s)
    end.
Proof.
  intros Hrun.
  eapply (wp_ok qualquer _
            (λ _ s', historico_global (sistema s')
                     = match mensagem_aceita c s with
                       | Some m => deque_append 1000 (historico_global (sistema s)) m
                       | None => historico_global (sistema s)
                       end)); [| exact Hrun].
  clear Hrun. destruct c; unfold executa; cbn [mensagem_aceita].
  - wp_exec. done.
  - unfold adicionar_especializacao. wp_exec. done.
  - unfold adicionar_agente. wp_exec. done.
  - unfold registrar_cliente. wp_exec. done.
  - unfold criar_ticket. wp_exec.
    eapply wp_mono; [apply wp_designar_ticket |].
    intros r0 s0 (Hsis & _). wp_exec. by rewrite Hsis.
  - wp_passo. eapply wp_mono; [apply wp_designar_ticket |].
    intros r0 s0 (Hsis & _). wp_exec. by rewrite Hsis.
  - unfold processar_mensagem. wp_exec; try exact I.
    all: estado_simpl.
    all: unfold nome_remetente, identificar_remetente, le_cliente, le_agente,
           mbind, M_bind, mret, M_ret, option_bind.
    all: repeat (cbv beta iota;
                 match goal with
                 | Hx : dict_get _ _ = _ |- _ => rewrite Hx
                 | Hx : _ !! _ = _ |- _ => rewrite Hx
                 | Hx : decide _ = _ |- _ => rewrite Hx
                 | Hx : agente_designado _ = _ |- _ => rewrite Hx
                 end).
    all: done.
  - unfold atualizar_status_ticket. wp_exec; try exact I; done.
  - unfold avaliar_satisfacao. wp_exec; try exact I; done.
  - wp_passo. apply wp_gerar_relatorio_desempenho.
    destruct (gerar_relatorio_desempenho s); [| done]. wp_exec. done.
Qed.

Lemma historico_execucao `{Unicode} cs s evs s' :
  executa_todas cs s = Ok evs s' →
  ultimos 1000 (historico_global (sistema s'))
  = ultimos 1000 (historico_global (sistema s) ++ mensagens_aceitas cs s)
  ∧ (historico_limitado s → historico_limitado s').
Proof.
  revert s evs. induction cs as [| c cs IH]; intros s evs Hrun.
  - inversion Hrun; subst. cbn [mensagens_aceitas]. by rewrite app_nil_r.
  - apply executa_todas_cons in Hrun as (r & s1 & evs1 & Hc & Hcs & _).
    destruct (IH _ _ Hcs) as [Heq Hlim]. split.
    + rewrite Heq. cbn [mensagens_aceitas]. rewrite Hc.
      rewrite (historico_passo _ _ _ _ Hc).
      destruct (mensagem_aceita c s) as [m |]; cbn [option_list]; [| done].
      rewrite deque_append_ultimos, ultimos_app, <- !app_assoc. done.
    + intros Hs. apply Hlim. by eapply historico_limitado_passo.
Qed.

(** X13.  Along any run, the global history is the last 1000 of the
    messages that were there at the start followed by the messages that the
    calls of [processar_mensagem] accepted, in the order of the calls: each
    accepted message is recorded, the oldest entry goes when the history is
    full, and no other call writes there.  The history stays within its
    1000 entries and holds no system message. *)
Theorem historico_global_limitado `{Unicode} cs s evs s' :
  executa_todas cs s = Ok evs s' →
  historico_limitado s →
  historico_global (sistema s')
  = ultimos 1000 (historico_global (sistema s) ++ mensagens_aceitas cs s)
  ∧ historico_limitado s'.
Proof.
  intros Hrun Hs. destruct (historico_execucao _ _ _ _ Hrun) as [Heq Hlim].
  split; [| by apply Hlim].
  rewrite <- Heq. symmetry. apply ultimos_todos.
  by destruct (Hlim Hs).
Qed.

Lemma historico_global_limitado_witness :
  ∃ evs s',
    @executa_todas unicode_ascii
      [ProcessarMensagem "u1" "u0" "preciso de ajuda";
       ProcessarMensagem "u1" "zz" "intruso";
       AtualizarStatusTicket "u1" EM_ANDAMENTO (Some "a caminho");
       ProcessarMensagem "u1" "1" "vou ver"]
      (estado_aberto ambiente_exemplo) = Ok evs s'
    ∧ conteudo <$> historico_global (sistema s') = ["preciso de ajuda"; "vou ver"].
Proof.
  eexists _, _. split; [vm_compute; reflexivity |].
  edestruct (@historico_global_limitado unicode_ascii
               [ProcessarMensagem "u1" "u0" "preciso de ajuda";
                ProcessarMensagem "u1" "zz" "intruso";
                AtualizarStatusTicket "u1" EM_ANDAMENTO (Some "a caminho");
                ProcessarMensagem "u1" "1" "vou ver"]
               (estado_aberto ambiente_exemplo)) as [Heq _];
    [vm_compute; reflexivity | |].
  { split; [vm_compute; lia | vm_compute; constructor]. }
  rewrite Heq. vm_compute. reflexivity.
Defined.

(** ** Tickets along a run *)

Lemma estavel_refl t : estavel t t.
Proof. by repeat split. Qed.

Lemma estavel_trans t1 t2 t3 : estavel t1 t2 → estavel t2 t3 → estavel t1 t3.
Proof.
  intros (? & ? & ? & ? & ? & Hp1) (? & ? & ? & ? & ? & Hp2).
  repeat split; try congruence. by etrans.
Qed.

Lemma tickets_estaveis_refl s : tickets_estaveis s s.
Proof. intros l t Hl. exists t. split; [done | apply estavel_refl]. Qed.

Lemma tickets_estaveis_mesmos s s' :
  obj_tickets (memoria s') = obj_tickets (memoria s) → tickets_estaveis s s'.
Proof.
  intros Heq l t Hl. exists t. rewrite Heq. split; [done | apply estavel_refl].
Qed.

Lemma tickets_estaveis_trans s1 s2 s3 :
  tickets_estaveis s1 s2 → tickets_estaveis s2 s3 → tickets_estaveis s1 s3.
Proof.
  intros H12 H23 l t Hl. destruct (H12 l t Hl) as (t2 & Hl2 & He2).
  destruct (H23 l t2 Hl2) as (t3 & Hl3 & He3).
  exists t3. split; [done |]. by eapply estavel_trans.
Qed.

Ltac estavel_fim lt :=
  let lx := fresh "lx" in
  let tx := fresh "tx" in
  let Hlx := fresh "Hlx" in
  let Hne := fresh "Hne" in
  intros lx tx Hlx; estado_simpl;
  destruct (decide (lx = lt)) as [-> | Hne];
  [ rewrite ?lookup_insert_eq; eexists; (split; [reflexivity |]);
    match goal with
    | Ht : obj_tickets _ !! lt = Some ?t0 |- _ =>
        assert (tx = t0) as -> by congruence
    end;
    unfold estavel; campos_simpl;
    repeat split; rewrite <- ?app_assoc;
    first [ reflexivity | by apply prefix_app_r ]
  | rewrite ?lookup_insert_ne by done; eexists; split; [eassumption |];
    apply estavel_refl ].

Lemma estaveis_designar_ticket `{Unicode} lt s :
  wp qualquer (designar_ticket lt) (λ _ s', tickets_estaveis s s') s.
Proof.
  unfold designar_ticket.
  wp_passo. wp_passo. wp_passo. apply wp_le_agentes.
  destruct (le_agentes _ s) as [todos s1 |] eqn:Htodos; [| done].
  wp_passo; [wp_passo; (apply tickets_estaveis_mesmos; reflexivity) |].
  wp_exec; campos_simpl.
  all: estavel_fim lt.
Qed.

Lemma tickets_estaveis_passo `{Unicode} c s r s' :
  executa c s = Ok r s' → tickets_estaveis s s'.
Proof.
  intros Hrun. eapply (wp_ok qualquer _ (λ _ s', tickets_estaveis s s'));
    [| exact Hrun].
  clear Hrun. destruct c; unfold executa.
  - wp_exec. (apply tickets_estaveis_mesmos; reflexivity).
  - unfold adicionar_especializacao. wp_exec. (apply tickets_estaveis_mesmos; reflexivity).
  - unfold adicionar_agente. wp_exec. (apply tickets_estaveis_mesmos; reflexivity).
  - unfold registrar_cliente. wp_exec. (apply tickets_estaveis_mesmos; reflexivity).
  - unfold criar_ticket. wp_exec.
    eapply wp_mono; [apply estaveis_designar_ticket |].
    intros r0 s0 Hest. wp_exec.
    eapply tickets_estaveis_trans; [| exact Hest].
    assert (obj_tickets (memoria s) !! l = None) as Hfresh
      by (apply not_elem_of_dom, is_fresh).
    intros lx tx Hlx. estado_simpl.
    assert (lx ≠ l) as Hne by congruence.
    rewrite !lookup_insert_ne by done. exists tx. split; [done | apply estavel_refl].
  - wp_passo. eapply wp_mono; [apply estaveis_designar_ticket |].
    intros r0 s0 Hest. by wp_exec.
  - unfold processar_mensagem. wp_exec; try exact I; try (apply tickets_estaveis_mesmos; reflexivity).
    all: match goal with
         | Ht : obj_tickets _ !! ?lt = Some _ |- _ => estavel_fim lt
         end.
  - unfold atualizar_status_ticket. wp_exec; try exact I;
      try (apply tickets_estaveis_mesmos; reflexivity).
    all: match goal with
         | Ht : obj_tickets _ !! ?lt = Some _ |- _ => estavel_fim lt
         end.
  - unfold avaliar_satisfacao. wp_exec; try exact I; try (apply tickets_estaveis_mesmos; reflexivity).
    all: match goal with
         | Ht : obj_tickets _ !! ?lt = Some _ |- _ => estavel_fim lt
         end.
  - wp_passo. apply wp_gerar_relatorio_desempenho.
    destruct (gerar_relatorio_desempenho s); [| done]. wp_exec.
    (apply tickets_estaveis_mesmos; reflexivity).
Qed.

(** X14.  A ticket object is never removed and its messages are never
    removed or reordered: after any run, a ticket that existed before still
    exists with the same id, title, description, client and creation time,
    and its earlier messages are the first ones of its messages. *)
Theorem mensagens_so_crescem `{Unicode} cs s evs s' l t :
  executa_todas cs s = Ok evs s' →
  obj_tickets (memoria s) !! l = Some t →
  ∃ t',
    obj_tickets (memoria s') !! l = Some t'
    ∧ ticket_id t' = ticket_id t
    ∧ titulo t' = titulo t
    ∧ descricao t' = descricao t
    ∧ cliente t' = cliente t
    ∧ criado_em t' = criado_em t
    ∧ mensagens t `prefix_of` mensagens t'.
Proof.
  intros Hrun. revert l t.
  change (tickets_estaveis s s').
  revert s evs Hrun. induction cs as [| c cs IH]; intros s evs Hrun.
  - inversion Hrun; subst. (apply tickets_estaveis_mesmos; reflexivity).
  - apply executa_todas_cons in Hrun as (r & s1 & evs1 & Hc & Hcs & _).
    eapply tickets_estaveis_trans; [by eapply tickets_estaveis_passo |].
    by eapply IH.
Qed.

Lemma mensagens_so_crescem_witness :
  ∃ t t',
    obj_tickets (memoria (estado_aberto ambiente_exemplo)) !! 0%nat = Some t
    ∧ obj_tickets (memoria estado_resolvido) !! 0%nat = Some t'
    ∧ mensagens t `prefix_of` mensagens t'.
Proof.
  edestruct (@mensagens_so_crescem unicode_ascii
               [AtualizarStatusTicket "u1" RESOLVIDO None]
               (estado_aberto ambiente_exemplo))
    with (s' := estado_resolvido) (l := 0%nat)
    as (t' & Hobj & _ & _ & _ & _ & _ & Hpre);
    [vm_compute; reflexivity | vm_compute; reflexivity |].
  eexists _, t'. split; [vm_compute; reflexivity |]. split; [exact Hobj | exact Hpre].
Defined.


(** ** Opening a ticket *)

Lemma wp_designar_efeito `{Unicode} lt s :
  wp qualquer (designar_ticket lt) (designar_efeito lt s) s.
Proof.
  unfold designar_ticket.
  wp_passo. wp_passo. wp_passo. apply wp_le_agentes.
  destruct (le_agentes _ s) as [todos s1 |] eqn:Htodos; [| done].
  wp_passo; [by wp_passo |].
  wp_exec; campos_simpl; unfold designar_efeito; estado_simpl.
  all: do 2 eexists; (split; [eassumption |]).
  all: rewrite ?insert_insert_eq; (split; [reflexivity |]).
  all: unfold estavel; campos_simpl; repeat split; try done.
  all: rewrite <- ?app_assoc; by apply prefix_app_r.
Qed.

Lemma designar_ticket_retorna `{Unicode} s lt t :
  agentes_validos s →
  obj_tickets (memoria s) !! lt = Some t →
  wp nunca (designar_ticket lt) (λ r _, r = None ↔ candidatos s = []) s.
Proof.
  intros Hval Hobj.
  destruct (le_agentes_total _ s Hval) as [todos Htodos].
  pose proof (candidatos_le_agentes _ _ _ Htodos) as Hcand.
  destruct (le_agentes_objetos _ _ _ _ Htodos) as [_ Hobjs].
  unfold designar_ticket.
  wp_passo. wp_passo. wp_passo. apply wp_le_agentes. rewrite Htodos.
  rewrite <- Hcand.
  destruct (List.filter e_disponivel todos) as [| p l] eqn:Hfil; [by wp_passo |].
  wp_passo. wp_passo.
  match goal with
  | |- context [max_key_from ?k ?p ?l] =>
      destruct (max_key_from_primeiro k p l) as (pre & pos & Heq & _ & _);
      remember (max_key_from k p l) as sel eqn:Hsel
  end.
  assert (sel ∈ List.filter e_disponivel todos) as Hin
    by (rewrite Hfil, Heq; apply elem_of_app; right; by left).
  apply list_elem_of_In, filter_In, proj1, list_elem_of_In in Hin.
  pose proof (Hobjs _ Hin) as Hlook.
  clear Hsel Heq Hfil Hcand.
  wp_exec; campos_simpl.
  all: split; intros; discriminate.
Qed.

(** X15.  [criar_ticket] for an existing client always returns a new ticket
    object, registered under its new id and added to the client's open
    tickets; the ticket has the given title and description, the priority
    read from the description, and the creation message as its first
    message.  It is [ABERTO] without agent when there is no candidate, and
    [DESIGNADO] with an agent otherwise. *)
Theorem criar_ticket_registra `{Unicode} s lc titulo_ descricao_ c :
  obj_clientes (memoria s) !! lc = Some c →
  agentes_validos s →
  ∃ lt s' t',
    criar_ticket lc titulo_ descricao_ s = Ok lt s'
    ∧ obj_tickets (memoria s) !! lt = None
    ∧ obj_tickets (memoria s') !! lt = Some t'
    ∧ ticket_id t' = gerador_uuid (ambiente s) (leituras s)
    ∧ dict_get (tickets (sistema s')) (ticket_id t') = Some lt
    ∧ titulo t' = titulo_
    ∧ descricao t' = descricao_
    ∧ cliente t' = lc
    ∧ prioridade t' = extrair_prioridade descricao_
    ∧ [mensagem_criacao s descricao_] `prefix_of` mensagens t'
    ∧ obj_clientes (memoria s') !! lc
      = Some (com_tickets_abertos (tickets_abertos c ++ [ticket_id t']) c)
    ∧ (candidatos s = [] → status t' = ABERTO ∧ agente_designado t' = None)
    ∧ (candidatos s ≠ [] → status t' = DESIGNADO ∧ is_Some (agente_designado t')).
Proof.
  intros Hc Hval.
  cut (wp nunca (criar_ticket lc titulo_ descricao_)
         (λ lt s', ∃ t',
            obj_tickets (memoria s) !! lt = None
            ∧ obj_tickets (memoria s') !! lt = Some t'
            ∧ ticket_id t' = gerador_uuid (ambiente s) (leituras s)
            ∧ dict_get (tickets (sistema s')) (ticket_id t') = Some lt
            ∧ titulo t' = titulo_
            ∧ descricao t' = descricao_
            ∧ cliente t' = lc
            ∧ prioridade t' = extrair_prioridade descricao_
            ∧ [mensagem_criacao s descricao_] `prefix_of` mensagens t'
            ∧ obj_clientes (memoria s') !! lc
              = Some (com_tickets_abertos (tickets_abertos c ++ [ticket_id t']) c)
            ∧ (candidatos s = [] → status t' = ABERTO ∧ agente_designado t' = None)
            ∧ (candidatos s ≠ [] →
               status t' = DESIGNADO ∧ is_Some (agente_designado t'))) s).
  { intros (lt & s' & Hrun & t' & Hrest)%wp_nunca. by exists lt, s', t'. }
  unfold criar_ticket. wp_exec.
  assert (obj_tickets (memoria s) !! l = None) as Hfresh
    by (apply not_elem_of_dom, is_fresh).
  match goal with
  | |- wp nunca (designar_ticket l) _ ?s1 =>
      destruct (wp_nunca _ _ _ (designar_ticket_retorna s1 l _ Hval
                                  ltac:(estado_simpl; apply lookup_insert_eq)))
        as (r & s2 & Hrun & Hiff);
      pose proof (wp_ok _ _ _ _ _ _ (wp_designar_efeito l s1) Hrun) as Hef;
      eapply wp_of_ok; [exact Hrun |]
  end.
  wp_exec. clear Hrun.
  assert ((r = None ↔ candidatos s = [])) as Hcand by exact Hiff. clear Hiff.
  unfold designar_efeito in Hef. revert Hef. estado_simpl. campos_simpl.
  rewrite !insert_insert_eq. cbn [app].
  destruct r as [la |].
  - intros (t & t' & Ht & Hts & Hest & Hprio & Hag & Hst & Hsis & Hcl).
    rewrite lookup_insert_eq in Ht. injection Ht as <-.
    destruct Hest as (Hid & Hti & Hde & Hclt & _ & Hpre). campos_simpl.
    exists t'. rewrite Hts, Hsis, Hcl, Hid. estado_simpl.
    rewrite !lookup_insert_eq, dict_get_set_eq.
    repeat split; try done.
    all: match goal with
         | Hn : candidatos _ = [] |- _ => apply Hcand in Hn; discriminate
         | |- is_Some _ => by rewrite Hag
         end.
  - intros ->. estado_simpl. rewrite !lookup_insert_eq.
    eexists. split; [exact Hfresh |]. split; [reflexivity |]. campos_simpl.
    rewrite dict_get_set_eq.
    repeat split; try done.
    all: match goal with
         | Hn : candidatos _ ≠ [] |- _ => by destruct Hn; apply Hcand
         end.
Qed.

Lemma agentes_validos_decide s :
  bool_decide (Forall (λ l, is_Some (obj_agentes (memoria s) !! l))
                 (dict_values (agentes (sistema s)))) = true →
  agentes_validos s.
Proof.
  intros Hd%bool_decide_eq_true. intros l Hl.
  by apply (proj1 (Forall_forall _ _) Hd).
Qed.

Lemma criar_ticket_registra_witness :
  ∃ lt s' t',
    @criar_ticket unicode_ascii 0%nat "Lento" "rotina de backup importante"
      estado_atendimento = Ok lt s'
    ∧ obj_tickets (memoria s') !! lt = Some t'
    ∧ prioridade t' = ALTA
    ∧ status t' = DESIGNADO.
Proof.
  edestruct (@criar_ticket_registra unicode_ascii estado_atendimento 0%nat
               "Lento" "rotina de backup importante")
    as (lt & s' & t' & Hrun & _ & Hobj & _ & _ & _ & _ & _ & Hprio & _ & _ & _ & Hcand);
    [vm_compute; reflexivity
    | apply agentes_validos_decide; vm_compute; reflexivity |].
  exists lt, s', t'. split; [exact Hrun |]. split; [exact Hobj |].
  split; [rewrite Hprio; vm_compute; reflexivity |].
  apply Hcand. vm_compute. discriminate.
Defined.

(** ** Witnesses of the earlier lemmas *)

Lemma primeira_resposta_mantida_witness :
  ∃ r s' t' d,
    @designar_ticket unicode_ascii 0%nat estado_resolvido = Ok r s'
    ∧ obj_tickets (memoria s') !! 0%nat = Some t'
    ∧ tempo_primeira_resposta t' = Some d
    ∧ d ≠ 0.
Proof.
  edestruct (@primeira_resposta_mantida unicode_ascii 0%nat estado_resolvido)
    as (t' & Ht' & Htpr);
    [vm_compute; reflexivity | vm_compute; reflexivity
    | vm_compute; reflexivity | vm_compute; discriminate |].
  eexists _, _, t', _.
  split; [| split; [exact Ht' | split; [exact Htpr | vm_compute; discriminate]]].
  vm_compute. reflexivity.
Defined.

Lemma sem_agente_alcancavel_witness :
  ∃ evs s,
    @executa_todas unicode_ascii
      [RegistrarCliente "Ana" "ana@exemplo.com";
       CriarTicket 0%nat "Erro" "sistema crítico não funciona";
       AtualizarStatusTicket "u1" RESOLVIDO None]
      (estado_inicial ambiente_exemplo) = Ok evs s
    ∧ sem_agente_sem_resolucao s.
Proof.
  eexists _, _. split; [vm_compute; reflexivity |].
  eapply (@sem_agente_alcancavel unicode_ascii ambiente_exemplo
            [RegistrarCliente "Ana" "ana@exemplo.com";
             CriarTicket 0%nat "Erro" "sistema crítico não funciona";
             AtualizarStatusTicket "u1" RESOLVIDO None]).
  vm_compute. reflexivity.
Defined.

Lemma processar_mensagem_sem_aviso_witness :
  ∃ r s',
    @processar_mensagem unicode_ascii "u1" "u0" "sistema urgente"
      (estado_aberto ambiente_exemplo) = Ok r s'
    ∧ aviso_sla ∉ r.
Proof.
  eexists _, _. split; [vm_compute; reflexivity |].
  eapply (@processar_mensagem_sem_aviso unicode_ascii
            (estado_aberto ambiente_exemplo) "u1" "u0" "Ana" "sistema urgente"
            0%nat);
    [vm_compute; reflexivity | vm_compute; reflexivity | | |
     vm_compute; reflexivity].
  - eexists. split; [vm_compute; reflexivity |]. left. split; reflexivity.
  - intros n.
    assert (ambiente (estado_aberto ambiente_exemplo) = ambiente_exemplo) as ->
      by (vm_compute; reflexivity).
    cbn [relogio ambiente_exemplo]. change (timedelta_minutes 30) with 1800000000.
    lia.
Defined.

(** ** The two keyword lists *)

(** X19.  A text is flagged as urgent by [classificar_mensagem] exactly when
    [extrair_prioridade] reads [CRITICA] from it or its lowered form contains
    [imediato]: the three keywords of the highest priority are urgency
    words, and [imediato] is the only urgency word that the priority table
    does not know. *)
Theorem urgencia_e_critica `{Unicode} texto :
  dict_get (classificar_mensagem texto) "urgencia" = Some true
  ↔ extrair_prioridade texto = CRITICA
    ∨ str_in "imediato" (str_lower texto) = true.
Proof.
  unfold extrair_prioridade, from_keywords, classificar_mensagem, keywords,
    palavras_chave.
  cbn [map fst snd existsb from_keywords_loop dict_get].
  rewrite decide_False by done. rewrite decide_True by done.
  destruct (str_in "urgente" _), (str_in "crítico" _), (str_in "emergência" _),
    (str_in "imediato" _); cbn [orb]; try (split; [by auto | done]).
  split; [done |]. intros [Hp | Hi]; [| done]. exfalso. revert Hp.
  repeat match goal with
         | |- context [if ?b then _ else _] => destruct b
         end; done.
Qed.

(** ** Specializations *)

(** X20.  [adicionar_especializacao] stores the lowered name in a set: a
    second call with a name that differs only in case changes nothing. *)
Theorem adicionar_especializacao_idempotente `{Unicode} s la a e e' :
  obj_agentes (memoria s) !! la = Some a →
  str_lower e = str_lower e' →
  ∃ s' a',
    adicionar_especializacao la e s = Ok tt s'
    ∧ obj_agentes (memoria s') !! la = Some a'
    ∧ str_lower e ∈ especializacoes a'
    ∧ especializacoes a ⊆ especializacoes a'
    ∧ adicionar_especializacao la e' s' = Ok tt s'.
Proof.
  intros Ha Hlow. unfold adicionar_especializacao, altera_agente.
  rewrite Ha. eexists _, _. split; [reflexivity |].
  estado_simpl. rewrite lookup_insert_eq. split; [reflexivity |].
  campos_simpl. split; [set_solver |]. split; [set_solver |].
  rewrite insert_insert_eq, <- Hlow.
  assert (especializacoes a ∪ {[str_lower e]} ∪ {[str_lower e]}
          = especializacoes a ∪ {[str_lower e]}) as ->
    by (apply set_eq; intros x; rewrite !elem_of_union; tauto).
  destruct s as [sis mem amb lei]. destruct a. reflexivity.
Qed.

Lemma adicionar_especializacao_idempotente_witness :
  ∃ s',
    @adicionar_especializacao unicode_ascii 0%nat "Alta" estado_atendimento
      = Ok tt s'
    ∧ @adicionar_especializacao unicode_ascii 0%nat "ALTA" s' = Ok tt s'.
Proof.
  edestruct (@adicionar_especializacao_idempotente unicode_ascii
               estado_atendimento 0%nat joao "Alta" "ALTA")
    as (s' & a' & Hrun & _ & _ & _ & Hrun');
    [vm_compute; reflexivity | vm_compute; reflexivity |].
  exists s'. split; [exact Hrun | exact Hrun'].
Defined.

(** ** Clients *)

(** X21.  [registrar_cliente] always returns: the client is a new object,
    no alias of an earlier one, registered under the identifier drawn for
    it, with no ticket; the earlier client objects, the agents and the
    tickets are as they were. *)
Theorem registrar_cliente_novo s nome email :
  ∃ lc s' c,
    registrar_cliente nome email s = Ok lc s'
    ∧ obj_clientes (memoria s) !! lc = None
    ∧ obj_clientes (memoria s') !! lc = Some c
    ∧ cliente_id c = gerador_uuid (ambiente s) (leituras s)
    ∧ cliente_nome c = nome ∧ cliente_email c = email
    ∧ tickets_abertos c = []
    ∧ dict_get (clientes (sistema s')) (cliente_id c) = Some lc
    ∧ clientes_estaveis s s'
    ∧ obj_agentes (memoria s') = obj_agentes (memoria s)
    ∧ obj_tickets (memoria s') = obj_tickets (memoria s)
    ∧ agentes (sistema s') = agentes (sistema s)
    ∧ tickets (sistema s') = tickets (sistema s).
Proof.
  assert (obj_clientes (memoria s) !! fresh (dom (obj_clientes (memoria s)))
          = None) as Hfresh by (apply not_elem_of_dom, is_fresh).
  eexists _, _, _. split; [reflexivity |].
  estado_simpl. split; [exact Hfresh |].
  rewrite lookup_insert_eq. split; [reflexivity |]. campos_simpl.
  rewrite dict_get_set_eq. repeat split.
  intros l c Hl. exists c. estado_simpl.
  rewrite lookup_insert_ne by congruence. split; [exact Hl |].
  unfold cliente_estavel. by repeat split.
Qed.

Lemma cliente_estavel_refl c : cliente_estavel c c.
Proof. unfold cliente_estavel. by repeat split. Qed.

Lemma cliente_estavel_trans c1 c2 c3 :
  cliente_estavel c1 c2 → cliente_estavel c2 c3 → cliente_estavel c1 c3.
Proof.
  intros (? & ? & ? & ? & ?) (? & ? & ? & ? & ?).
  unfold cliente_estavel. repeat split; try congruence. by etrans.
Qed.

Lemma clientes_estaveis_mesmos s s' :
  obj_clientes (memoria s') = obj_clientes (memoria s) → clientes_estaveis s s'.
Proof.
  intros Heq l c Hl. exists c. rewrite Heq. split; [exact Hl |].
  apply cliente_estavel_refl.
Qed.

Lemma clientes_estaveis_trans s1 s2 s3 :
  clientes_estaveis s1 s2 → clientes_estaveis s2 s3 → clientes_estaveis s1 s3.
Proof.
  intros H12 H23 l c Hl.
  destruct (H12 l c Hl) as (c2 & Hl2 & He2).
  destruct (H23 l c2 Hl2) as (c3 & Hl3 & He3).
  exists c3. split; [exact Hl3 |]. by eapply cliente_estavel_trans.
Qed.

Ltac clientes_fim :=
  apply clientes_estaveis_mesmos; estado_simpl; reflexivity.

Lemma clientes_estaveis_passo `{Unicode} c s r s' :
  executa c s = Ok r s' → clientes_estaveis s s'.
Proof.
  intros Hrun. eapply (wp_ok qualquer _ (λ _ s', clientes_estaveis s s'));
    [| exact Hrun].
  clear Hrun. destruct c; unfold executa.
  - wp_exec. clientes_fim.
  - unfold adicionar_especializacao. wp_exec. clientes_fim.
  - unfold adicionar_agente. wp_exec. clientes_fim.
  - unfold registrar_cliente. wp_exec.
    intros lx cx Hlx. estado_simpl.
    assert (obj_clientes (memoria s) !! l = None) as Hfresh
      by (apply not_elem_of_dom, is_fresh).
    rewrite lookup_insert_ne by congruence.
    exists cx. split; [exact Hlx | apply cliente_estavel_refl].
  - unfold criar_ticket. wp_exec.
    eapply wp_mono; [apply wp_designar_ticket |].
    intros r0 s0 (_ & Hcl & _). wp_exec.
    intros lx cx Hlx. rewrite Hcl. estado_simpl.
    match goal with
    | Hc : obj_clientes _ !! ?lc = Some ?c0 |- _ =>
        destruct (decide (lx = lc)) as [-> | Hne];
        [ rewrite lookup_insert_eq; assert (cx = c0) as -> by congruence;
          eexists; (split; [reflexivity |]);
          unfold cliente_estavel; campos_simpl; repeat split;
          by apply prefix_app_r
        | rewrite lookup_insert_ne by done;
          exists cx; split; [exact Hlx | apply cliente_estavel_refl] ]
    end.
  - wp_passo. eapply wp_mono; [apply wp_designar_ticket |].
    intros r0 s0 (_ & Hcl & _). wp_exec. by apply clientes_estaveis_mesmos.
  - unfold processar_mensagem. wp_exec; try exact I; clientes_fim.
  - unfold atualizar_status_ticket. wp_exec; try exact I; clientes_fim.
  - unfold avaliar_satisfacao. wp_exec; try exact I; clientes_fim.
  - wp_passo. apply wp_gerar_relatorio_desempenho.
    destruct (gerar_relatorio_desempenho s); [| done]. wp_exec.
    clientes_fim.
Qed.

(** X22.  A client object is never removed and the list [tickets_abertos]
    only grows: after any run, a client that existed before still exists
    with the same id, name, email and history, and the ticket ids it listed
    are the first ones of its list.  No call takes a ticket off the list,
    whatever status the ticket reaches. *)
Theorem tickets_abertos_so_crescem `{Unicode} cs s evs s' l c :
  executa_todas cs s = Ok evs s' →
  obj_clientes (memoria s) !! l = Some c →
  ∃ c',
    obj_clientes (memoria s') !! l = Some c'
    ∧ cliente_id c' = cliente_id c
    ∧ cliente_nome c' = cliente_nome c
    ∧ cliente_email c' = cliente_email c
    ∧ historico_interacoes c' = historico_interacoes c
    ∧ tickets_abertos c `prefix_of` tickets_abertos c'.
Proof.
  intros Hrun. revert l c.
  change (clientes_estaveis s s').
  revert s evs Hrun. induction cs as [| c cs IH]; intros s evs Hrun.
  - inversion Hrun; subst. by apply clientes_estaveis_mesmos.
  - apply executa_todas_cons in Hrun as (r & s1 & evs1 & Hc & Hcs & _).
    eapply clientes_estaveis_trans; [by eapply clientes_estaveis_passo |].
    by eapply IH.
Qed.

Lemma tickets_abertos_so_crescem_witness :
  ∃ c',
    obj_clientes (memoria estado_resolvido) !! 0%nat = Some c'
    ∧ ["u1"] `prefix_of` tickets_abertos c'.
Proof.
  edestruct (@tickets_abertos_so_crescem unicode_ascii
               [AtualizarStatusTicket "u1" RESOLVIDO None]
               (estado_aberto ambiente_exemplo))
    with (s' := estado_resolvido) (l := 0%nat)
    as (c' & Hobj & _ & _ & _ & _ & Hpre);
    [vm_compute; reflexivity | vm_compute; reflexivity |].
  exists c'. split; [exact Hobj | exact Hpre].
Defined.

(** ** The report *)







Lemma le_agentes_registrados ls s :
  (∀ l, l ∈ ls → is_Some (obj_agentes (memoria s) !! l)) →
  le_agentes ls s
  = Ok (omap (λ l, (l,.) <$> obj_agentes (memoria s) !! l) ls) s.
Proof.
  induction ls as [| l ls IH]; intros Hval; [done |].
  destruct (Hval l) as [a Ha]; [by left |].
  cbn [le_agentes omap list_omap]. unfold mbind, M_bind, le_agente.
  fold (omap (λ l, (l,.) <$> obj_agentes (memoria s) !! l) ls).
  rewrite Ha, IH by (intros; apply Hval; by right). done.
Qed.


(** The report on a state whose registries refer to existing objects, entry
    by entry. *)
Lemma gerar_relatorio_desempenho_campos s :
  tickets_validos s → agentes_validos s →
  ∃ r,
    gerar_relatorio_desempenho s = Ok r s
    ∧ rel_total_tickets r = Z.of_nat (length (tickets (sistema s)))
    ∧ rel_tickets_resolvidos r
      = Z.of_nat (length (List.filter (λ t, bool_decide (status t = RESOLVIDO))
                            (objetos_tickets s)))
    ∧ rel_taxa_resolucao r
      = (if rel_total_tickets r =? 0 then NInt 0
         else NFloat (fmul (truediv (rel_tickets_resolvidos r)
                              (rel_total_tickets r)) 100))
    ∧ rel_tempo_medio_resolucao r
      = (if rel_tickets_resolvidos r =? 0
         then soma_tempo_resolucao (objetos_tickets s)
         else divide_and_round (soma_tempo_resolucao (objetos_tickets s))
                (rel_tickets_resolvidos r))
    ∧ rel_satisfacao_media r
      = (if (soma_satisfacao (objetos_tickets s)).2 =? 0
         then NInt (soma_satisfacao (objetos_tickets s)).1
         else NFloat (truediv (soma_satisfacao (objetos_tickets s)).1
                        (soma_satisfacao (objetos_tickets s)).2))
    ∧ rel_agentes_mais_produtivos r
      = (agentes_mais_produtivos (agentes_registrados s)).*1.
Proof.
  intros Hvt Hva.
  destruct (le_tickets_objetos _ s Hvt) as [Hle _].
  pose proof (le_agentes_registrados _ s Hva) as Hla.
  unfold gerar_relatorio_desempenho, int_truediv, timedelta_truediv,
    mbind, M_bind, mret, M_ret, le_sistema.
  rewrite Hle. fold (objetos_tickets s).
  destruct (Z.of_nat (length (List.filter _ (objetos_tickets s))) =? 0) eqn:Hres;
    rewrite ?Hres;
    (destruct ((soma_satisfacao (objetos_tickets s)).2 =? 0) eqn:Hav;
     rewrite ?Hav;
     (destruct (Z.of_nat (length (tickets (sistema s))) =? 0) eqn:Htot;
      rewrite ?Htot, ?Hla;
      (eexists; split; [reflexivity |];
       cbn [rel_total_tickets rel_tickets_resolvidos rel_taxa_resolucao
            rel_tempo_medio_resolucao rel_satisfacao_media
            rel_agentes_mais_produtivos];
       rewrite ?Hres, ?Hav, ?Htot; by repeat split))).
Qed.



(** X12.  When every registered ticket that is [RESOLVIDO] has a resolution
    time, and no other registered ticket has one that is not zero, the mean
    resolution time of the report is the mean of the resolution times of
    the tickets that are [RESOLVIDO], rounded as a [timedelta] division, and
    zero when there is none. *)
Theorem relatorio_tempo_medio_consistente s :
  tickets_validos s → agentes_validos s →
  (∀ t, t ∈ objetos_tickets s → status t = RESOLVIDO →
        is_Some (tempo_resolucao t)) →
  (∀ t, t ∈ objetos_tickets s → status t ≠ RESOLVIDO →
        truthy (tempo_resolucao t) = false) →
  ∃ r ds,
    gerar_relatorio_desempenho s = Ok r s
    ∧ tempo_resolucao
        <$> List.filter (λ t, bool_decide (status t = RESOLVIDO)) (objetos_tickets s)
      = Some <$> ds
    ∧ rel_tempo_medio_resolucao r = media_duracoes ds.
Proof.
  intros Hvt Hva Htem Hcons.
  destruct (gerar_relatorio_desempenho_campos s Hvt Hva)
    as (r & Hrun & _ & Hres & _ & Hmed & _).
  exists r, ((λ t, default 0 (tempo_resolucao t))
               <$> List.filter (λ t, bool_decide (status t = RESOLVIDO))
                     (objetos_tickets s)).
  split; [exact Hrun |]. split.
  - rewrite <- list_fmap_compose. apply list_fmap_ext.
    intros i t Ht%list_elem_of_lookup_2. cbn.
    apply list_elem_of_In, filter_In in Ht as [Ht Hst].
    apply list_elem_of_In in Ht. apply bool_decide_eq_true in Hst.
    by destruct (Htem t Ht Hst) as [d ->].
  - rewrite Hmed, Hres. unfold soma_tempo_resolucao.
    rewrite (soma_tempo_resolucao_fold _ 0 Hcons), Z.add_0_l.
    unfold media_duracoes.
    destruct (List.filter _ (objetos_tickets s)) as [| t ts]; [done |].
    rewrite length_fmap.
    replace (Z.of_nat (length (t :: ts)) =? 0) with false; [done |].
    symmetry. apply Z.eqb_neq. cbn [length]. lia.
Qed.

Lemma com_tempo_decide (ts : list Ticket) :
  forallb (λ t, negb (bool_decide (status t = RESOLVIDO))
                || bool_decide (is_Some (tempo_resolucao t))) ts = true →
  ∀ t, t ∈ ts → status t = RESOLVIDO → is_Some (tempo_resolucao t).
Proof.
  intros Hall t Ht Hst. apply list_elem_of_In in Ht.
  apply (proj1 (forallb_forall _ _) Hall), orb_true_iff in Ht as [Hr | Hf].
  - apply negb_true_iff, bool_decide_eq_false in Hr. done.
  - by apply bool_decide_eq_true in Hf.
Qed.

Lemma relatorio_tempo_medio_consistente_witness :
  ∃ r,
    gerar_relatorio_desempenho estado_dois_resolvidos = Ok r estado_dois_resolvidos
    ∧ rel_tempo_medio_resolucao r = 14500000.
Proof.
  edestruct (relatorio_tempo_medio_consistente estado_dois_resolvidos)
    as (r & ds & Hrun & Hds & Hmed).
  { apply tickets_validos_decide. vm_compute. reflexivity. }
  { apply agentes_validos_decide. vm_compute. reflexivity. }
  { apply com_tempo_decide. vm_compute. reflexivity. }
  { apply sem_tempo_fora_decide. vm_compute. reflexivity. }
  exists r. split; [exact Hrun |].
  assert (Some <$> ds = Some <$> [19000000; 10000000]) as Hval
    by (rewrite <- Hds; vm_compute; reflexivity).
  apply (list_fmap_eq_inj Some) in Hval; [| by intros ? ? [=]].
  rewrite Hmed, Hval. vm_compute. reflexivity.
Defined.

(** Without the first condition the entry is not a mean of resolution
    times: a ticket set to [RESOLVIDO] while it had no agent has no
    resolution time and still counts in the divisor.  With one such ticket
    and one ticket resolved in 9 seconds the report gives 4.5 seconds. *)
Lemma relatorio_resolvido_sem_tempo :
  ∃ r,
    gerar_relatorio_desempenho estado_resolvido_sem_agente
      = Ok r estado_resolvido_sem_agente
    ∧ (λ t, (status t, tempo_resolucao t))
        <$> objetos_tickets estado_resolvido_sem_agente
      = [(RESOLVIDO, None); (RESOLVIDO, Some 9000000)]
    ∧ rel_tempo_medio_resolucao r = 4500000.
Proof.
  eexists. split; [vm_compute; reflexivity |].
  split; vm_compute; reflexivity.
Qed.
